(** * Schedule builder: formatter, parser and slot model

    A shallow embedding of the schedule builder script (the browser code
    that turns a list of (days, start, end) time slots into the schedule
    string of a class and parses such a string back), with the properties
    its specification states about it.

    JavaScript strings are modelled as lists of 8-bit characters, each read
    as the code unit of the same value (U+0000 to U+00FF).  Numbers are
    modelled as [option Z], [None] standing for NaN; the model is exact as
    long as the integers involved stay below 2^53, which every hour a time
    input can deliver does. *)

From Stdlib Require Import List Ascii String ZArith Lia Bool DecimalString.
From Stdlib Require Import Permutation Sorted DecimalZ DecimalPos.
Import ListNotations.

Abbreviation str := (list ascii).
Coercion list_ascii_of_string : string >-> list.

Open Scope string_scope.
Open Scope Z_scope.
Open Scope list_scope.

(** ** String and number primitives of the language *)

Module Js.

Definition code (c : ascii) : N := N_of_ascii c.

Definition isDigit (c : ascii) : bool :=
  ((48 <=? code c) && (code c <=? 57))%N.

Definition isUpper (c : ascii) : bool :=
  ((65 <=? code c) && (code c <=? 90))%N.

Definition isLower (c : ascii) : bool :=
  ((97 <=? code c) && (code c <=? 122))%N.

(** [[A-Za-z]]; the [i] flag adds no character to the class. *)
Definition isAlpha (c : ascii) : bool := isUpper c || isLower c.

(** White space of [\s] and of [trim] among the code units below 256:
    TAB, LF, VT, FF, CR, SPACE and NBSP. *)
Definition isSpace (c : ascii) : bool :=
  (((9 <=? code c) && (code c <=? 13)) || (code c =? 32) || (code c =? 160))%N.

Definition upperChar (c : ascii) : ascii :=
  if isLower c then ascii_of_N (code c - 32) else c.

(** [String.prototype.toUpperCase], on the strings the script applies it to:
    the letter block and the AM/PM token, both made of ASCII letters. *)
Definition toUpperCase (s : str) : str := map upperChar s.

Fixpoint str_eqb (a b : str) : bool :=
  match a, b with
  | [], [] => true
  | x :: a', y :: b' => Ascii.eqb x y && str_eqb a' b'
  | _, _ => false
  end.

(** Longest prefix whose characters satisfy [p], and the rest. *)
Fixpoint span (p : ascii -> bool) (s : str) : str * str :=
  match s with
  | [] => ([], [])
  | c :: r =>
      if p c then let (a, b) := span p r in (c :: a, b) else ([], s)
  end.

Fixpoint dropWhile (p : ascii -> bool) (s : str) : str :=
  match s with
  | [] => []
  | c :: r => if p c then dropWhile p r else s
  end.

Definition trimStart (s : str) : str := dropWhile isSpace s.
Definition trimEnd (s : str) : str := rev (dropWhile isSpace (rev s)).
Definition trim (s : str) : str := trimEnd (trimStart s).

(** [s.split(sep)] for a one-character separator: never empty. *)
Fixpoint split (sep : ascii) (s : str) : list str :=
  match s with
  | [] => [[]]
  | c :: r =>
      if Ascii.eqb c sep then [] :: split sep r
      else match split sep r with
           | [] => [[c]]
           | h :: t => (c :: h) :: t
           end
  end.

(** [arr.join(sep)] on an array of strings. *)
Fixpoint join (sep : str) (l : list str) : str :=
  match l with
  | [] => []
  | [x] => x
  | x :: r => x ++ sep ++ join sep r
  end.

Definition digitVal (c : ascii) : Z := Z.of_N (code c) - 48.

Definition digitsValue (ds : str) : Z :=
  fold_left (fun acc c => 10 * acc + digitVal c) ds 0.

(** [parseInt(s, 10)]: leading white space, an optional sign, then the
    longest run of decimal digits; NaN when that run is empty.  The value is
    the exact integer, which is the number of the language as long as it is
    below 2^53; the script reads hours of one or two digits with it. *)
Definition parseInt (s : str) : option Z :=
  let s1 := trimStart s in
  let '(neg, s2) :=
    match s1 with
    | c :: r =>
        if Ascii.eqb c "-" then (true, r)
        else if Ascii.eqb c "+" then (false, r)
        else (false, s1)
    | [] => (false, s1)
    end in
  match fst (span isDigit s2) with
  | [] => None
  | ds => Some (if neg then - digitsValue ds else digitsValue ds)
  end.

(** [Number(s)] on the strings a time input delivers: white space around
    the text is ignored, the empty text is 0, a run of decimal digits is its
    value.  Every other text is mapped to [None]: for most of them the
    language gives NaN, and signs, fractions, exponents and radix prefixes
    are outside this model. *)
Definition Number (s : str) : option Z :=
  match trim s with
  | [] => Some 0
  | t => if forallb isDigit t then Some (digitsValue t) else None
  end.

(** Decimal text of an integer, as [Number.prototype.toString] gives it. *)
Definition intToString (z : Z) : str :=
  NilZero.string_of_int (Z.to_int z).

Definition numToString (n : option Z) : str :=
  match n with
  | Some z => intToString z
  | None => "NaN"
  end.

(** Text of a possibly undefined string inside a template literal. *)
Definition optToString (s : option str) : str :=
  match s with
  | Some t => t
  | None => "undefined"
  end.

(** [s.padStart(n, "0")]. *)
Definition padStart0 (n : nat) (s : str) : str :=
  repeat "0"%char (n - List.length s)%nat ++ s.

(** Arithmetic and comparisons on numbers with NaN. *)
Definition num_lt (a b : option Z) : bool :=
  match a, b with Some x, Some y => x <? y | _, _ => false end.

Definition num_le (a b : option Z) : bool :=
  match a, b with Some x, Some y => x <=? y | _, _ => false end.

Definition num_ge (a b : option Z) : bool := num_le b a.

Definition num_eq (a b : option Z) : bool :=
  match a, b with Some x, Some y => x =? y | _, _ => false end.

Definition num_add (a b : option Z) : option Z :=
  match a, b with Some x, Some y => Some (x + y) | _, _ => None end.

Definition num_sub (a b : option Z) : option Z :=
  match a, b with Some x, Some y => Some (x - y) | _, _ => None end.

Definition num_mul (a b : option Z) : option Z :=
  match a, b with Some x, Some y => Some (x * y) | _, _ => None end.

(** The remainder operator [%] keeps the sign of the dividend. *)
Definition num_rem (a b : option Z) : option Z :=
  match a, b with
  | Some x, Some y => if y =? 0 then None else Some (Z.rem x y)
  | _, _ => None
  end.

End Js.

Import Js.

(** ** Regular expressions of the script

    Both expressions are anchored at both ends and every repetition in them
    is followed by a token that none of the repeated characters can start,
    so a greedy left-to-right scan takes the same path as the backtracking
    matcher of the language. *)

(** A character equal to the upper-case letter [u] up to case. *)
Definition ciEq (c u : ascii) : bool := Ascii.eqb (upperChar c) u.

(** [(AM|PM)] under the [i] flag, at the head of [s]: the matched text and
    the rest. *)
Definition reAmPm (s : str) : option (str * str) :=
  match s with
  | a :: m :: r =>
      if (ciEq a "A" || ciEq a "P") && ciEq m "M"
      then Some ([a; m], r) else None
  | _ => None
  end.

(** [(\d{n}):(\d{2})] at the head of [s]: hour digits, minute digits and
    the rest. *)
Definition hourMinWith (n : nat) (s : str) : option (str * str * str) :=
  let h := firstn n s in
  match skipn n s with
  | c :: m1 :: m2 :: r =>
      if (List.length h =? n)%nat && forallb isDigit h
         && Ascii.eqb c ":" && isDigit m1 && isDigit m2
      then Some (h, [m1; m2], r) else None
  | _ => None
  end.

(** [(\d{1,2}):(\d{2})]: the greedy quantifier tries two digits first. *)
Definition reHourMin (s : str) : option (str * str * str) :=
  match hourMinWith 2 s with
  | Some x => Some x
  | None => hourMinWith 1 s
  end.

(** [/^(\d{1,2}):(\d{2})\s*(AM|PM)$/i]: the three groups of a match. *)
Definition re12Hour (s : str) : option (str * str * str) :=
  match reHourMin s with
  | None => None
  | Some (h, m, r) =>
      match reAmPm (dropWhile isSpace r) with
      | Some (ap, []) => Some (h, m, ap)
      | _ => None
      end
  end.

(** Groups 1 to 5 of the entry expression. *)
Record EntryParts := mkParts {
  dayPart : str;
  startTimePart : str;
  startAmpmPart : option str;
  endTimePart : str;
  endAmpmPart : str
}.

(** [/^([A-Za-z]+)\s+(\d{1,2}:\d{2})\s*(AM|PM)?\s*-\s*(\d{1,2}:\d{2})\s*(AM|PM)$/i] *)
Definition reEntry (s : str) : option EntryParts :=
  let '(letters, r0) := span isAlpha s in
  let '(blank, r1) := span isSpace r0 in
  match letters, blank with
  | _ :: _, _ :: _ =>
      match reHourMin r1 with
      | None => None
      | Some (h1, m1, r2) =>
          let r3 := dropWhile isSpace r2 in
          let '(ap1, r4) :=
            match reAmPm r3 with
            | Some (ap, r) => (Some ap, r)
            | None => (None, r3)
            end in
          match dropWhile isSpace r4 with
          | c :: r5 =>
              if Ascii.eqb c "-" then
                match reHourMin (dropWhile isSpace r5) with
                | None => None
                | Some (h2, m2, r6) =>
                    match reAmPm (dropWhile isSpace r6) with
                    | Some (ap2, []) =>
                        Some (mkParts letters (h1 ++ ":" ++ m1) ap1
                                      (h2 ++ ":" ++ m2) ap2)
                    | _ => None
                    end
                end
              else None
          | [] => None
          end
      end
  | _, _ => None
  end.

(** ** Time conversion *)

Definition formatTimeForSchedule (timeString : str) : str :=
  match timeString with
  | [] => []
  | _ =>
      let parts := split ":" timeString in
      let hours := nth 0 parts [] in
      let minutes := nth_error parts 1 in
      let hour := parseInt hours in
      let suffix : str := if num_ge hour (Some 12) then "PM" else "AM" in
      let displayHour :=
        if num_eq (num_rem hour (Some 12)) (Some 0) then Some 12
        else num_rem hour (Some 12) in
      numToString displayHour ++ ":" ++ optToString minutes ++ " " ++ suffix
  end.

(** The display variant has the same body in the script. *)
Definition formatTimeForDisplay (timeString : str) : str :=
  formatTimeForSchedule timeString.

(** The step of [parse12HourTime] that converts the hour to the 24-hour
    clock. *)
Definition to24Hour (ampm : str) (hours : option Z) : option Z :=
  if str_eqb ampm "PM" && num_lt hours (Some 12)
  then num_add hours (Some 12)
  else if str_eqb ampm "AM" && num_eq hours (Some 12)
  then Some 0
  else hours.

Definition parse12HourTime (timeStr : str) : str :=
  let timeStr := trim timeStr in
  match re12Hour timeStr with
  | None => []
  | Some (h, minutes, ap) =>
      let hours := parseInt h in
      let ampm := toUpperCase ap in
      let hours := to24Hour ampm hours in
      padStart0 2 (numToString hours) ++ ":" ++ minutes
  end.

(** ** Slot model *)

Record TimeSlot := mkSlot {
  id : str;
  days : list str;
  startTime : str;
  endTime : str;
  isOvernight : option bool   (* absent on slots made by the parser *)
}.

(** The module-level variables of the script together with the parts of the
    page it reads and writes: the two time inputs, the hidden schedule field
    and the warnings shown.  [hasDisplay] tells whether the schedule display
    and the hidden field are in the page.  [selectedDays] is the [Set] of
    checked days in insertion order. *)
Record Builder := mkBuilder {
  timeSlots : list TimeSlot;
  selectedDays : list str;
  timeSlotCounter : Z;
  startTimeInput : str;
  endTimeInput : str;
  scheduleField : str;
  hasDisplay : bool;
  warnings : list str
}.

Definition set_timeSlots (st : Builder) (ts : list TimeSlot) : Builder :=
  mkBuilder ts (selectedDays st) (timeSlotCounter st) (startTimeInput st)
            (endTimeInput st) (scheduleField st) (hasDisplay st) (warnings st).

Definition set_scheduleField (st : Builder) (v : str) : Builder :=
  mkBuilder (timeSlots st) (selectedDays st) (timeSlotCounter st)
            (startTimeInput st) (endTimeInput st) v (hasDisplay st)
            (warnings st).

Definition set_timeSlotCounter (st : Builder) (n : Z) : Builder :=
  mkBuilder (timeSlots st) (selectedDays st) n (startTimeInput st)
            (endTimeInput st) (scheduleField st) (hasDisplay st) (warnings st).

Definition set_selectedDays (st : Builder) (d : list str) : Builder :=
  mkBuilder (timeSlots st) d (timeSlotCounter st) (startTimeInput st)
            (endTimeInput st) (scheduleField st) (hasDisplay st) (warnings st).

Definition set_timeInputs (st : Builder) (s e : str) : Builder :=
  mkBuilder (timeSlots st) (selectedDays st) (timeSlotCounter st) s e
            (scheduleField st) (hasDisplay st) (warnings st).

(** [window.showWarningNotification(msg)] *)
Definition showWarningNotification (st : Builder) (msg : str) : Builder :=
  mkBuilder (timeSlots st) (selectedDays st) (timeSlotCounter st)
            (startTimeInput st) (endTimeInput st) (scheduleField st)
            (hasDisplay st) (warnings st ++ [msg]).

(** [selectedDays.add(day)] and [selectedDays.delete(day)], the two branches
    of the change handler of a day checkbox. *)
Definition selectDay (st : Builder) (day : str) : Builder :=
  if existsb (str_eqb day) (selectedDays st) then st
  else set_selectedDays st (selectedDays st ++ [day]).

Definition unselectDay (st : Builder) (day : str) : Builder :=
  set_selectedDays st
    (filter (fun d => negb (str_eqb day d)) (selectedDays st)).

(** ** Formatter *)

(** The [dayOrder] table.  A day that is not a key of the table reads as
    [undefined], which turns the difference computed by the comparator into
    NaN. *)
Definition dayOrder : list (str * Z) :=
  [("M" : str, 0); ("T" : str, 1); ("W" : str, 2); ("Th" : str, 3);
   ("F" : str, 4); ("S" : str, 5); ("Su" : str, 6)].

Fixpoint lookup (tbl : list (str * Z)) (k : str) : option Z :=
  match tbl with
  | [] => None
  | (k', v) :: r => if str_eqb k k' then Some v else lookup r k
  end.

(** [(a, b) => dayOrder[a] - dayOrder[b]] *)
Definition dayCompare (a b : str) : option Z :=
  num_sub (lookup dayOrder a) (lookup dayOrder b).

(** [Array.prototype.sort] with a comparator: the language asks for a stable
    sort, so with a comparator that orders the elements consistently the
    result is the one stable sorted arrangement, which insertion computes.
    A NaN from the comparator counts as 0.  When the comparator is not
    consistent (here: a day missing from [dayOrder] beside two days of the
    table) the language leaves the arrangement to the engine, and insertion
    is one admissible choice: what is proved below about the arrangement
    itself is proved for days of the table. *)
Section ArraySort.
Variable A : Type.
Variable cmp : A -> A -> option Z.

Definition after (a b : A) : bool := num_lt (Some 0) (cmp a b).

Fixpoint insertSorted (x : A) (l : list A) : list A :=
  match l with
  | [] => [x]
  | y :: r => if after x y then y :: insertSorted x r else x :: l
  end.

Definition arraySort (l : list A) : list A :=
  fold_right insertSorted [] l.

(** [x] does not have to come after [y]. *)
Definition notAfter (x y : A) : Prop := after x y = false.
End ArraySort.

Arguments after {A} cmp a b.
Arguments insertSorted {A} cmp x l.
Arguments arraySort {A} cmp l.
Arguments notAfter {A} cmp x y.

(** The slot after [slot.days.sort(...)]: the array is sorted in place, so
    the slot held by [timeSlots] changes with it. *)
Definition sortSlotDays (s : TimeSlot) : TimeSlot :=
  mkSlot (id s) (arraySort dayCompare (days s)) (startTime s) (endTime s)
         (isOvernight s).

(** The text of one slot, from its already sorted days. *)
Definition slotText (s : TimeSlot) : str :=
  join "" (days s) ++ " " ++ formatTimeForSchedule (startTime s)
    ++ "-" ++ formatTimeForSchedule (endTime s).

(** [formatSchedule()]: the string returned and the slot list it leaves. *)
Definition formatSchedule (ts : list TimeSlot) : str * list TimeSlot :=
  match ts with
  | [] => ([], [])
  | _ =>
      let sorted := map sortSlotDays ts in
      (join ", " (map slotText sorted), sorted)
  end.

(** [updateScheduleDisplay()]: what it does to the slot list and to the
    hidden field (the markup written to the display is left out). *)
Definition updateScheduleDisplay (st : Builder) : Builder :=
  if negb (hasDisplay st) then st
  else match timeSlots st with
       | [] => set_scheduleField st []
       | _ =>
           let '(text, ts) := formatSchedule (timeSlots st) in
           set_scheduleField (set_timeSlots st ts) text
       end.

Definition addTimeSlot (st : Builder) (slot : TimeSlot) : Builder :=
  updateScheduleDisplay (set_timeSlots st (timeSlots st ++ [slot])).

Definition removeTimeSlot (st : Builder) (slotId : str) : Builder :=
  updateScheduleDisplay
    (set_timeSlots st
       (filter (fun s => negb (str_eqb (id s) slotId)) (timeSlots st))).

(** [`slot_${timeSlotCounter++}`]: the id and the state after the increment. *)
Definition freshId (st : Builder) : str * Builder :=
  ("slot_" ++ intToString (timeSlotCounter st),
   set_timeSlotCounter st (timeSlotCounter st + 1)).

(** ** The add button *)

(** [hours * 60 + minutes] of [t.split(':').map(Number)]; a missing second
    component is [undefined], which makes the sum NaN. *)
Definition totalMinutes (t : str) : option Z :=
  let parts := map Number (split ":" t) in
  let hours := nth 0 parts None in
  let minutes := nth 1 parts None in
  num_add (num_mul hours (Some 60)) minutes.

Definition isEmpty (s : str) : bool :=
  match s with [] => true | _ => false end.

Definition addTimeBtn_click (st : Builder) : Builder :=
  let startTime := trim (startTimeInput st) in
  let endTime := trim (endTimeInput st) in
  if isEmpty startTime || isEmpty endTime then
    showWarningNotification st "Please select both start and end times."
  else if (List.length (selectedDays st) =? 0)%nat then
    showWarningNotification st "Please select at least one day."
  else
    let startTotalMinutes := totalMinutes startTime in
    let endTotalMinutes := totalMinutes endTime in
    let isOvernight := num_lt endTotalMinutes startTotalMinutes in
    if negb isOvernight && num_le endTotalMinutes startTotalMinutes then
      showWarningNotification st "End time must be after start time."
    else
      let '(slotId, st1) := freshId st in
      let st2 :=
        addTimeSlot st1
          (mkSlot slotId (selectedDays st) startTime endTime
                  (Some isOvernight)) in
      set_selectedDays (set_timeInputs st2 [] []) [].

(** ** Parser *)

(** The day scan: a two-letter code first, then a single letter, and a
    character that is neither is passed over. *)
Definition isDayLetter (c : ascii) : bool :=
  existsb (Ascii.eqb c) ("MTWFS" : str).

Fixpoint scanDays (dayString : str) : list str :=
  match dayString with
  | [] => []
  | c :: r =>
      match r with
      | c' :: r' =>
          if str_eqb [c; c'] "TH" || str_eqb [c; c'] "SU"
          then [c; c'] :: scanDays r'
          else if isDayLetter c then [c] :: scanDays r
          else scanDays r
      | [] => if isDayLetter c then [[c]] else []
      end
  end.

(** [`${time}${ampm ? ' ' + ampm : ''}`.trim()] *)
Definition timeWithAmpm (time ampm : str) : str :=
  trim (time ++ if isEmpty ampm then [] else " " ++ ampm).

(** The 12-hour texts handed to [parse12HourTime] for the two times of a
    matched entry. *)
Definition startTimeStr (parts : EntryParts) : str :=
  let startAmpm :=
    match startAmpmPart parts with
    | Some a => toUpperCase a
    | None => []
    end in
  timeWithAmpm (startTimePart parts) startAmpm.

Definition endTimeStr (parts : EntryParts) : str :=
  let endAmpm :=
    if isEmpty (endAmpmPart parts) then []
    else toUpperCase (endAmpmPart parts) in
  timeWithAmpm (endTimePart parts) endAmpm.

(** What one entry gives when it is accepted: days, start and end. *)
Definition entrySlot (slot : str) : option (list str * str * str) :=
  match reEntry slot with
  | None => None
  | Some parts =>
      let dayString := toUpperCase (dayPart parts) in
      let days := scanDays dayString in
      let startTime := parse12HourTime (startTimeStr parts) in
      let endTime := parse12HourTime (endTimeStr parts) in
      if negb (isEmpty startTime) && negb (isEmpty endTime)
      then Some (days, startTime, endTime)
      else None
  end.

(** The body of the [forEach] callback.  Nothing in it throws on a string,
    so its [catch] branch is never taken. *)
Definition parseSlotEntry (st : Builder) (slot : str) : Builder :=
  match entrySlot slot with
  | Some (days, startTime, endTime) =>
      let '(slotId, st1) := freshId st in
      addTimeSlot st1 (mkSlot slotId days startTime endTime None)
  | None => st
  end.

(** [scheduleString.split(',').map(s => s.trim()).filter(s => s)] *)
Definition scheduleEntries (scheduleString : str) : list str :=
  filter (fun s => negb (isEmpty s)) (map trim (split "," scheduleString)).

Definition parseExistingSchedule (st : Builder) (scheduleString : str)
  : Builder :=
  match scheduleString with
  | [] => st
  | _ =>
      fold_left parseSlotEntry (scheduleEntries scheduleString)
                (set_timeSlots st [])
  end.

(** ** Conflict check *)

(** What the request to the conflict endpoint comes to: [fetch] rejects, the
    body is not JSON ([response.json()] rejects), the body is the JSON value
    [null] (reading a property of it throws), or the body is a value [data]
    with [data.success] truthy or not and [data.message] a string or
    missing. *)
Inductive Reply :=
| FetchRejected
| BodyNotJson
| BodyNull
| BodyData (success : bool) (message : option str).

Record ConflictResult := mkResult {
  hasConflict : bool;
  message : str
}.

(** [checkScheduleConflicts(timeSlots)].  The parameter shadows the module
    variable in the test of the length only: the schedule sent is the one
    [formatSchedule()] makes from the module variable.  The result comes
    with the state left behind and the list of request bodies sent. *)
Definition checkScheduleConflicts (arg : list TimeSlot) (st : Builder)
    (endpoint : str -> Reply) : ConflictResult * Builder * list str :=
  match arg with
  | [] => (mkResult false [], st, [])
  | _ =>
      let '(schedule, ts) := formatSchedule (timeSlots st) in
      let st' := set_timeSlots st ts in
      match endpoint schedule with
      | BodyData success msg =>
          (mkResult (negb success)
                    (match msg with Some m => m | None => [] end),
           st', [schedule])
      | _ =>
          (mkResult false "Error checking schedule conflicts",
           st', [schedule])
      end
  end.

(** ** Vocabulary of the statements *)

(** A list of texts from a list of literals. *)
Definition strs (l : list string) : list str := map list_ascii_of_string l.

(** The AM/PM token as the formatter writes it. *)
Definition suffixOf (pm : bool) : str := if pm then "PM" else "AM".

(** [h] is written with two digits that read back as [h]. *)
Definition twoDigitHour (h : Z) : bool :=
  match intToString h with
  | [a; b] => isDigit a && isDigit b && num_eq (parseInt [a; b]) (Some h)
  | _ => false
  end.

(** An hour token: one or two decimal digits. *)
Definition isHourToken (h : str) : bool :=
  ((List.length h =? 1)%nat || (List.length h =? 2)%nat) && forallb isDigit h.

(** The text "H:MM" of a time without AM/PM. *)
Definition timeText (h : str) (m1 m2 : ascii) : str := h ++ ":" ++ [m1; m2].

(** An entry "<days> H:MM-H:MM AM|PM": no AM/PM after the start time. *)
Definition entryWithoutStartAmpm (letters hs : str) (a1 a2 : ascii)
    (he : str) (b1 b2 : ascii) (pm : bool) : str :=
  letters ++ " " ++ timeText hs a1 a2 ++ "-" ++ timeText he b1 b2
    ++ " " ++ suffixOf pm.

(** No comma in the string. *)
Definition noComma (s : str) : bool :=
  forallb (fun c => negb (Ascii.eqb c ",")) s.

(** The builder when the page has just been set up. *)
Definition initialBuilder : Builder := mkBuilder [] [] 0 [] [] [] true [].

(** The (days, start, end) of the slots of a builder. *)
Definition slotTuples (st : Builder) : list (list str * str * str) :=
  map (fun s => (days s, startTime s, endTime s)) (timeSlots st).

(** The day-letter decomposition in the words of the specification: at each
    position a two-letter match against TH and SU comes first, otherwise
    one letter is consumed when it is one of M, T, W, F, S, and any other
    character is passed over. *)
Definition isTwoLetterCode (c c' : ascii) : bool :=
  str_eqb [c; c'] "TH" || str_eqb [c; c'] "SU".

Definition startsTwoLetter (s : str) : bool :=
  match s with
  | c :: c' :: _ => isTwoLetterCode c c'
  | _ => false
  end.

Inductive Decomposes : str -> list str -> Prop :=
| dec_end : Decomposes [] []
| dec_two c c' r ds :
    isTwoLetterCode c c' = true ->
    Decomposes r ds -> Decomposes (c :: c' :: r) ([c; c'] :: ds)
| dec_one c r ds :
    startsTwoLetter (c :: r) = false -> isDayLetter c = true ->
    Decomposes r ds -> Decomposes (c :: r) ([c] :: ds)
| dec_skip c r ds :
    startsTwoLetter (c :: r) = false -> isDayLetter c = false ->
    Decomposes r ds -> Decomposes (c :: r) ds.

(** An entry fails when it does not match the entry expression or when one
    of its two times does not parse. *)
Definition entryFails (e : str) : Prop :=
  reEntry e = None \/
  exists parts, reEntry e = Some parts /\
                (parse12HourTime (startTimeStr parts) = [] \/
                 parse12HourTime (endTimeStr parts) = []).

Definition accepted (e : str) : bool :=
  match entrySlot e with Some _ => true | None => false end.

(** The day codes of the builder: the keys of [dayOrder]. *)
Definition canonicalDay (d : str) : bool :=
  existsb (str_eqb d) (map fst dayOrder).

Definition canonicalSlot (s : TimeSlot) : Prop :=
  forallb canonicalDay (days s) = true.

(** The place of a day in the week (0 for Monday), -1 outside the table. *)
Definition dayIndex (d : str) : Z :=
  match lookup dayOrder d with
  | Some k => k
  | None => -1
  end.

Definition weekdayLe (a b : str) : Prop := dayIndex a <= dayIndex b.

(** Two slots with the same times and the same days in any order. *)
Definition sameSlotUpToDayOrder (a b : TimeSlot) : Prop :=
  Permutation (days a) (days b) /\
  startTime a = startTime b /\ endTime a = endTime b.

(** What [formatSchedule] leaves of a slot apart from the order of its
    days. *)
Definition sameSlotButDayOrder (before after : TimeSlot) : Prop :=
  id after = id before /\ startTime after = startTime before /\
  endTime after = endTime before /\ isOvernight after = isOvernight before /\
  Permutation (days after) (days before).

(** A well-formed "HH:MM" text, as a time input delivers it. *)
Definition validTimeText (t : str) : bool :=
  match t with
  | [h1; h2; c; m1; m2] =>
      isDigit h1 && isDigit h2 && Ascii.eqb c ":" && isDigit m1 && isDigit m2
  | _ => false
  end.

(** Each time input is empty or holds a well-formed time. *)
Definition timeInputsWellFormed (st : Builder) : Prop :=
  (trim (startTimeInput st) = [] \/
   validTimeText (trim (startTimeInput st)) = true) /\
  (trim (endTimeInput st) = [] \/
   validTimeText (trim (endTimeInput st)) = true).

(** The add was refused: a warning was shown and nothing else changed. *)
Definition rejected (st st' : Builder) : Prop :=
  exists msg, st' = showWarningNotification st msg.

(** The overnight flag the handler computes, and the test that the end is
    strictly after the start. *)
Definition flaggedOvernight (st : Builder) : bool :=
  num_lt (totalMinutes (trim (endTimeInput st)))
         (totalMinutes (trim (startTimeInput st))).

Definition endAfterStart (st : Builder) : bool :=
  num_lt (totalMinutes (trim (startTimeInput st)))
         (totalMinutes (trim (endTimeInput st))).

(** The cases in which the add is to be refused: no day selected, a time
    missing, or not flagged overnight with the end not strictly after the
    start. *)
Definition addRefused (st : Builder) : Prop :=
  selectedDays st = [] \/
  trim (startTimeInput st) = [] \/
  trim (endTimeInput st) = [] \/
  (flaggedOvernight st = false /\ endAfterStart st = false).

(** The request came to nothing: no usable body was read. *)
Definition requestFailed (r : Reply) : Prop :=
  match r with
  | BodyData _ _ => False
  | _ => True
  end.

(** The builder after Thursday 09:00 to 10:00 has been added through the
    page: the day checked, the two times entered, the add button clicked. *)
Definition thursdayBuilder : Builder :=
  addTimeBtn_click
    (set_timeInputs (selectDay initialBuilder "Th") "09:00" "10:00").

(** The hour of the 12-hour clock for an hour of the 24-hour clock. *)
Definition hour12 (h : Z) : Z :=
  if Z.rem h 12 =? 0 then 12 else Z.rem h 12.

(** A wall-clock time "HH:MM" with the hour from 00 to 23. *)
Definition validClock (t : str) : bool :=
  validTimeText t && (digitsValue (firstn 2 t) <=? 23).

(** For the hour written [a][b], when it is at most 23: the two digits
    read as the hour, the 12-hour text of the hour is an hour token, and
    converting that text back gives the two digits again. *)
Definition hourRoundTrips (a b : ascii) : bool :=
  let h := digitsValue [a; b] in
  if h <=? 23 then
    num_eq (parseInt [a; b]) (Some h)
    && isHourToken (intToString (hour12 h))
    && str_eqb
         (padStart0 2
            (numToString
               (to24Hour (suffixOf (12 <=? h))
                         (parseInt (intToString (hour12 h))))))
         [a; b]
  else true.

(** The text of an entry as the formatter writes it: the day letters, a
    space, and the two times with AM/PM joined by "-". *)
Definition formattedEntry (letters hs : str) (a1 a2 : ascii) (p1 : bool)
    (he : str) (b1 b2 : ascii) (p2 : bool) : str :=
  letters ++ " " ++ timeText hs a1 a2 ++ " " ++ suffixOf p1 ++ "-"
    ++ timeText he b1 b2 ++ " " ++ suffixOf p2.

(** An empty text or one that starts with a day letter. *)
Definition startsWithDayLetter (r : str) : bool :=
  match r with
  | [] => true
  | c :: _ => isDayLetter c
  end.

(** A slot as the add button makes it: at least one day, every day a code
    of the table, both times wall-clock times. *)
Definition validSlot (s : TimeSlot) : Prop :=
  days s <> [] /\ forallb canonicalDay (days s) = true /\
  validClock (startTime s) = true /\ validClock (endTime s) = true.

(** A text without comma that neither starts nor ends with white space. *)
Definition entryShaped (x : str) : Prop :=
  noComma x = true /\
  exists c r d, x = c :: r ++ [d] /\ isSpace c = false /\ isSpace d = false.

(** The tuples the accepted entries of a list give, in order. *)
Definition acceptedTuples (es : list str) : list (list str * str * str) :=
  flat_map (fun e => match entrySlot e with Some t => [t] | None => [] end)
           es.

(** What the display update does to the tuple of a slot. *)
Definition sortTuple (t : list str * str * str) : list str * str * str :=
  let '(d, a, b) := t in (arraySort dayCompare d, a, b).

Definition displayed (st : Builder) (l : list (list str * str * str))
  : list (list str * str * str) :=
  if hasDisplay st then map sortTuple l else l.

(** A slot whose days are all among the one-letter codes. *)
Definition singleLetterSlot (s : TimeSlot) : Prop :=
  forallb (fun d => existsb (str_eqb d) (strs ["M"; "T"; "W"; "F"; "S"]))
          (days s) = true.

(** ** Reset, setup and submit *)

(** Which elements of the builder the page has. *)
Record Page := mkPage {
  hasDayButtons : bool;
  hasResetDaysBtn : bool;
  hasAddTimeBtn : bool;
  hasScheduleDisplay : bool;
  hasStartTime : bool;
  hasEndTime : bool;
  hasScheduleField : bool
}.

(** The builder and the page agree on the display and the hidden field. *)
Definition onPage (st : Builder) (pg : Page) : Prop :=
  hasDisplay st = hasScheduleDisplay pg && hasScheduleField pg.

(** [resetScheduleBuilder()]: the variables are cleared; the hidden field
    and the two time inputs are set when the page has them. *)
Definition resetScheduleBuilder (st : Builder) (pg : Page) : Builder :=
  mkBuilder [] [] 0
            (if hasStartTime pg then "10:00" else startTimeInput st)
            (if hasEndTime pg then "12:00" else endTimeInput st)
            (if hasScheduleField pg then [] else scheduleField st)
            (hasDisplay st) (warnings st).

(** The test that makes [setupScheduleBuilder] return early. *)
Definition builderMissing (pg : Page) : bool :=
  negb (hasDayButtons pg) || negb (hasResetDaysBtn pg)
  || negb (hasAddTimeBtn pg) || negb (hasScheduleDisplay pg)
  || negb (hasStartTime pg) || negb (hasEndTime pg)
  || negb (hasScheduleField pg).

(** [setupScheduleBuilder(existingSchedule)]: [None] is the default [null];
    the listeners it attaches are the handlers modelled on their own. *)
Definition setupScheduleBuilder (st : Builder) (pg : Page)
    (existingSchedule : option str) : Builder :=
  let st0 := set_timeSlotCounter (set_selectedDays (set_timeSlots st []) []) 0 in
  if builderMissing pg then st0
  else match existingSchedule with
       | Some (c :: s) => parseExistingSchedule st0 (c :: s)
       | _ => updateScheduleDisplay st0
       end.

(** The click handler of the reset-days button. *)
Definition resetDaysBtn_click (st : Builder) : Builder :=
  set_selectedDays st [].

(** The loop of the submit handler over the slots: the message of the first
    slot that is refused. *)
Fixpoint slotsError (ts : list TimeSlot) : option str :=
  match ts with
  | [] => None
  | slot :: r =>
      if (List.length (days slot) =? 0)%nat
      then Some ("Each time slot must have at least one day selected" : str)
      else if isEmpty (startTime slot) || isEmpty (endTime slot)
      then Some ("Each time slot must have valid start and end times" : str)
      else slotsError r
  end.

Inductive SubmitOutcome :=
| ErrorShown (msg : str)
| Submitted
| NotSubmitted.

(** The text of the confirmation dialog. *)
Definition confirmText (message : str) : str :=
  "Schedule Conflict Detected:" ++ ["010"; "010"]%char ++ message
    ++ ["010"; "010"]%char ++ "Do you want to proceed anyway?".

(** The submit handler of the class form: what happens to the form, the
    builder left behind and the requests sent.  [confirm] is the answer of
    the user to the dialog.  [checkScheduleConflicts] never rejects, so the
    [catch] of the handler is not taken. *)
Definition classForm_submit (st : Builder) (endpoint : str -> Reply)
    (confirm : str -> bool) : SubmitOutcome * Builder * list str :=
  match timeSlots st with
  | [] => (ErrorShown "Please add at least one time slot", st, [])
  | _ =>
      match slotsError (timeSlots st) with
      | Some msg => (ErrorShown msg, st, [])
      | None =>
          let '(r, st', sent) :=
            checkScheduleConflicts (timeSlots st) st endpoint in
          if hasConflict r
          then ((if confirm (confirmText (message r))
                 then Submitted else NotSubmitted), st', sent)
          else (Submitted, st', sent)
      end
  end.

(** What can happen to the builder: the user checks or unchecks a day,
    resets the days, fills the time inputs, clicks the add button or a
    remove button, and the page resets or sets up the builder. *)
Inductive Event :=
| EvSelectDay (day : str)
| EvUnselectDay (day : str)
| EvResetDays
| EvEnterTimes (startText endText : str)
| EvClickAdd
| EvRemove (slotId : str)
| EvReset (pg : Page)
| EvSetup (pg : Page) (existingSchedule : option str).

Definition step (st : Builder) (ev : Event) : Builder :=
  match ev with
  | EvSelectDay d => selectDay st d
  | EvUnselectDay d => unselectDay st d
  | EvResetDays => resetDaysBtn_click st
  | EvEnterTimes s e => set_timeInputs st s e
  | EvClickAdd => addTimeBtn_click st
  | EvRemove x => removeTimeSlot st x
  | EvReset pg => resetScheduleBuilder st pg
  | EvSetup pg existing => setupScheduleBuilder st pg existing
  end.

Definition run (st : Builder) (evs : list Event) : Builder :=
  fold_left step evs st.

(** The id made from the counter value [k]. *)
Definition slotIdOf (k : Z) : str := "slot_" ++ intToString k.

(** The ids of the slots are distinct and were all made from counter values
    below the present one. *)
Definition idsFresh (st : Builder) : Prop :=
  0 <= timeSlotCounter st /\
  NoDup (map id (timeSlots st)) /\
  Forall (fun s => exists k, 0 <= k < timeSlotCounter st /\ id s = slotIdOf k)
         (timeSlots st).

(** The hidden field holds the text of the slots, whose days are in the
    order the formatter leaves them in. *)
Definition fieldInSync (st : Builder) : Prop :=
  scheduleField st = fst (formatSchedule (timeSlots st)) /\
  map sortSlotDays (timeSlots st) = timeSlots st.

(** The codes the day scan can give. *)
Definition scannedCodes : list str :=
  strs ["M"; "T"; "W"; "F"; "S"; "TH"; "SU"].

(** An hour token of one digit, or of two, reads as a number in range. *)
Definition hourTokenOk1 (a : ascii) : bool :=
  match parseInt [a] with
  | Some n => (0 <=? n) && (n <=? 9)
  | None => false
  end.

Definition hourTokenOk2 (a b : ascii) : bool :=
  match parseInt [a; b] with
  | Some n => (0 <=? n) && (n <=? 99)
  | None => false
  end.

(** [n] is written with exactly two digits once padded. *)
Definition paddedTwoDigits (n : Z) : bool :=
  match padStart0 2 (intToString n) with
  | [a; b] => isDigit a && isDigit b
  | _ => false
  end.

(** For the hour [h] of the 12-hour clock with AM or PM: its text is an
    hour token, and the 24-hour text the parser makes of it is two digits
    that the formatter turns back into [h] with the same AM or PM. *)
Definition canonical12Ok (h : Z) (pm : bool) : bool :=
  isHourToken (intToString h)
  && match padStart0 2
             (numToString (to24Hour (suffixOf pm) (parseInt (intToString h))))
     with
     | [a; b] =>
         isDigit a && isDigit b
         && match parseInt [a; b] with
            | Some h24 => (hour12 h24 =? h) && Bool.eqb (12 <=? h24) pm
            | None => false
            end
     | _ => false
     end.

(** The groups of a match with their letters in upper case. *)
Definition upperParts (p : EntryParts) : EntryParts :=
  mkParts (toUpperCase (dayPart p)) (toUpperCase (startTimePart p))
          (option_map toUpperCase (startAmpmPart p))
          (toUpperCase (endTimePart p)) (toUpperCase (endAmpmPart p)).

(** A triple of texts with their letters in upper case. *)
Definition upper3 (x : str * str * str) : str * str * str :=
  let '(h, m, r) := x in (toUpperCase h, toUpperCase m, toUpperCase r).

(** The slots as the display update leaves them. *)
Definition displaySlots (st : Builder) (ts : list TimeSlot) : list TimeSlot :=
  if hasDisplay st then map sortSlotDays ts else ts.

(** The test of [removeTimeSlot] on an id. *)
Definition otherId (x : str) (i : str) : bool := negb (str_eqb i x).

(** The counter values [c], [c+1], ..., [c+n-1]. *)
Definition countFrom (c : Z) (n : nat) : list Z :=
  map (fun k => c + Z.of_nat k) (seq 0 n).

(** A slot the submit handler lets pass. *)
Definition submittable (s : TimeSlot) : Prop :=
  days s <> [] /\ startTime s <> [] /\ endTime s <> [].

(** The event does not hand a stored schedule to the parser. *)
Definition noStoredSchedule (ev : Event) : bool :=
  match ev with
  | EvSetup _ (Some (_ :: _)) => false
  | _ => true
  end.

(** The ids [ids] are distinct and made from counter values below [c]. *)
Definition idsBelow (c : Z) (ids : list str) : Prop :=
  0 <= c /\ NoDup ids /\
  Forall (fun i => exists k, 0 <= k < c /\ i = slotIdOf k) ids.

(** The two messages of the validation of the slots in the submit handler,
    and the one for an empty builder. *)
Definition noDayMessage : str :=
  "Each time slot must have at least one day selected".

Definition noSlotMessage : str := "Please add at least one time slot".

(** The slot has both times. *)
Definition timed (s : TimeSlot) : Prop := startTime s <> [] /\ endTime s <> [].

(** The page has every element of the builder. *)
Definition fullPage : Page := mkPage true true true true true true true.

(** No day is selected twice and no slot lists a day twice. *)
Definition daysDistinct (st : Builder) : Prop :=
  NoDup (selectedDays st) /\
  Forall (fun s => NoDup (days s)) (timeSlots st).

(** The days of the slot are in the order of the week. *)
Definition inWeekdayOrder (s : TimeSlot) : Prop := Sorted weekdayLe (days s).

(** The two time inputs hold the same minute of the day. *)
Definition sameMinute (st : Builder) : Prop :=
  totalMinutes (trim (startTimeInput st))
  = totalMinutes (trim (endTimeInput st)).

(** A text of ASCII characters only; on such a text
    [String.prototype.toUpperCase] changes the letters a to z and nothing
    else, which is what [toUpperCase] computes. *)
Definition isAsciiText (s : str) : bool :=
  forallb (fun c => (code c <? 128)%N) s.

(** Two (days, start, end) with the same times and the same days in any
    order. *)
Definition sameTupleUpToDayOrder (t u : list str * str * str) : Prop :=
  Permutation (fst (fst t)) (fst (fst u)) /\
  snd (fst t) = snd (fst u) /\ snd t = snd u.

(** The days of the tuple are day codes of the table. *)
Definition tableDays (t : list str * str * str) : Prop :=
  forallb canonicalDay (fst (fst t)) = true.

(** ** Properties *)

(** *** Characters and scanning *)

Lemma isDigit_code c : isDigit c = true <-> (48 <= code c <= 57)%N.
Proof. unfold isDigit. rewrite andb_true_iff, !N.leb_le. tauto. Qed.

Lemma isSpace_code c :
  isSpace c = true <->
  ((9 <= code c <= 13) \/ code c = 32 \/ code c = 160)%N.
Proof.
  unfold isSpace.
  rewrite !orb_true_iff, andb_true_iff, !N.leb_le, !N.eqb_eq. tauto.
Qed.

Lemma isAlpha_code c :
  isAlpha c = true <-> ((65 <= code c <= 90) \/ (97 <= code c <= 122))%N.
Proof.
  unfold isAlpha, isUpper, isLower.
  rewrite orb_true_iff, !andb_true_iff, !N.leb_le. tauto.
Qed.

Lemma digit_not_space c : isDigit c = true -> isSpace c = false.
Proof.
  intros H. apply isDigit_code in H. apply not_true_is_false.
  rewrite isSpace_code. lia.
Qed.

Lemma digit_not_colon c : isDigit c = true -> c <> ":"%char.
Proof. intros H ->. vm_compute in H. discriminate. Qed.

Lemma alpha_not_space c : isAlpha c = true -> isSpace c = false.
Proof.
  intros H. apply isAlpha_code in H. apply not_true_is_false.
  rewrite isSpace_code. lia.
Qed.

Lemma digit_not_alpha c : isDigit c = true -> isAlpha c = false.
Proof.
  intros H. apply isDigit_code in H. apply not_true_is_false.
  rewrite isAlpha_code. lia.
Qed.

Lemma str_eqb_eq a b : str_eqb a b = true <-> a = b.
Proof.
  revert b; induction a as [|x a IH]; intros [|y b]; cbn; try easy.
  rewrite andb_true_iff, Ascii.eqb_eq, IH. split.
  - intros [-> ->]; reflexivity.
  - intros [= -> ->]; auto.
Qed.

Lemma str_eqb_refl a : str_eqb a a = true.
Proof. now apply str_eqb_eq. Qed.

Lemma trimEnd_snoc r c : isSpace c = false -> trimEnd (r ++ [c]) = r ++ [c].
Proof.
  intros H. unfold trimEnd. rewrite rev_app_distr. cbn [rev app dropWhile].
  rewrite H. change (c :: rev r) with (rev [c] ++ rev r).
  rewrite <- rev_app_distr, rev_involutive. reflexivity.
Qed.

(** A string that neither starts nor ends with white space is its own trim. *)
Lemma trim_keeps c r d :
  isSpace c = false -> isSpace d = false ->
  trim (c :: r ++ [d]) = c :: r ++ [d].
Proof.
  intros Hc Hd. unfold trim, trimStart. cbn [dropWhile]. rewrite Hc.
  change (c :: r ++ [d]) with ((c :: r) ++ [d]). now apply trimEnd_snoc.
Qed.

Lemma dropWhile_all_app p l r :
  forallb p l = true -> dropWhile p (l ++ r) = dropWhile p r.
Proof.
  induction l as [|x l IH]; cbn [forallb app dropWhile]; [reflexivity|].
  intros H. apply andb_true_iff in H as [Hx Hl]. now rewrite Hx, IH.
Qed.

Lemma forallb_rev (p : ascii -> bool) l :
  forallb p l = true -> forallb p (rev l) = true.
Proof.
  rewrite !forallb_forall. intros H x Hx. apply H. now apply in_rev.
Qed.

(** White space around such a string is what [trim] removes. *)
Lemma trim_padded c r d pad1 pad2 :
  isSpace c = false -> isSpace d = false ->
  forallb isSpace pad1 = true -> forallb isSpace pad2 = true ->
  trim (pad1 ++ (c :: r ++ [d]) ++ pad2) = c :: r ++ [d].
Proof.
  intros Hc Hd H1 H2. unfold trim, trimStart.
  rewrite dropWhile_all_app by assumption.
  cbn [app dropWhile]. rewrite Hc.
  unfold trimEnd.
  change (c :: (r ++ [d]) ++ pad2) with ((c :: r ++ [d]) ++ pad2).
  rewrite rev_app_distr, dropWhile_all_app by (now apply forallb_rev).
  change (rev (dropWhile isSpace (rev (c :: r ++ [d]))))
    with (trimEnd ((c :: r) ++ [d])).
  now apply trimEnd_snoc.
Qed.

(** *** The 12-hour expression on well-shaped input *)

Lemma isHourToken_cases h :
  isHourToken h = true ->
  (exists a, h = [a] /\ isDigit a = true) \/
  (exists a b, h = [a; b] /\ isDigit a = true /\ isDigit b = true).
Proof.
  unfold isHourToken. intros H. apply andb_true_iff in H as [L D].
  destruct h as [|a [|b [|? ?]]]; try discriminate; cbn in D.
  - left. exists a. rewrite andb_true_r in D. auto.
  - right. exists a, b. rewrite andb_true_r in D.
    apply andb_true_iff in D as [? ?]. auto.
Qed.

Lemma isHourToken_head h :
  isHourToken h = true -> exists c t, h = c :: t /\ isDigit c = true.
Proof.
  intros H. destruct (isHourToken_cases h H) as [(a & -> & Ha)|(a & b & -> & Ha & _)];
    eauto.
Qed.

Lemma reHourMin_token h m1 m2 r :
  isHourToken h = true -> isDigit m1 = true -> isDigit m2 = true ->
  reHourMin (timeText h m1 m2 ++ r) = Some (h, [m1; m2], r).
Proof.
  intros H H1 H2. unfold reHourMin, hourMinWith, timeText.
  destruct (isHourToken_cases h H) as [(a & -> & Ha)|(a & b & -> & Ha & Hb)];
    cbn [app firstn skipn List.length Nat.eqb forallb list_ascii_of_string].
  - rewrite Ha, H1, H2.
    replace (Ascii.eqb m1 ":") with false
      by (symmetry; apply Ascii.eqb_neq; now apply digit_not_colon).
    destruct r; cbn [andb]; rewrite ?andb_false_r; reflexivity.
  - rewrite Ha, Hb, H1, H2. reflexivity.
Qed.

Lemma reAmPm_suffixOf pm : reAmPm (suffixOf pm) = Some (suffixOf pm, []).
Proof. destruct pm; reflexivity. Qed.

Lemma re12Hour_token h m1 m2 pm :
  isHourToken h = true -> isDigit m1 = true -> isDigit m2 = true ->
  re12Hour (timeText h m1 m2 ++ " " ++ suffixOf pm)
  = Some (h, [m1; m2], suffixOf pm).
Proof.
  intros H H1 H2. unfold re12Hour. rewrite reHourMin_token by assumption.
  change (dropWhile isSpace (" " ++ suffixOf pm)) with
    (dropWhile isSpace (suffixOf pm)).
  destruct pm; reflexivity.
Qed.

(** Without AM/PM the expression does not match. *)
Lemma re12Hour_no_ampm h m1 m2 :
  isHourToken h = true -> isDigit m1 = true -> isDigit m2 = true ->
  re12Hour (timeText h m1 m2) = None.
Proof.
  intros H H1 H2. unfold re12Hour.
  rewrite <- (app_nil_r (timeText h m1 m2)).
  rewrite reHourMin_token by assumption. reflexivity.
Qed.

(** C4 (12/24-hour conversion): [formatTimeForSchedule] maps "00:00",
    "12:00", "13:30" and "23:59" to "12:00 AM", "12:00 PM", "1:30 PM" and
    "11:59 PM", and [parse12HourTime] maps each of these back. *)
Theorem conversion_pairs :
  formatTimeForSchedule "00:00" = "12:00 AM" /\
  formatTimeForSchedule "12:00" = "12:00 PM" /\
  formatTimeForSchedule "13:30" = "1:30 PM" /\
  formatTimeForSchedule "23:59" = "11:59 PM" /\
  parse12HourTime "12:00 AM" = "00:00" /\
  parse12HourTime "12:00 PM" = "12:00" /\
  parse12HourTime "1:30 PM" = "13:30" /\
  parse12HourTime "11:59 PM" = "23:59".
Proof. repeat split; vm_compute; reflexivity. Qed.

(** *** The time parser on well-shaped input *)

Lemma toUpperCase_suffixOf pm : toUpperCase (suffixOf pm) = suffixOf pm.
Proof. destruct pm; reflexivity. Qed.

Lemma suffixOf_last pm r :
  exists r', r ++ " " ++ suffixOf pm = r' ++ ["M"%char].
Proof.
  destruct pm.
  - exists (r ++ " P"). rewrite <- app_assoc. reflexivity.
  - exists (r ++ " A"). rewrite <- app_assoc. reflexivity.
Qed.

Lemma trim_time_text h m1 m2 pm :
  isHourToken h = true ->
  trim (timeText h m1 m2 ++ " " ++ suffixOf pm)
  = timeText h m1 m2 ++ " " ++ suffixOf pm.
Proof.
  intros H. destruct (isHourToken_head h H) as (c & t & -> & Hc).
  unfold timeText. cbn [app].
  destruct (suffixOf_last pm (t ++ ":" ++ [m1; m2])) as [r' E].
  rewrite <- !app_assoc in E. cbn [app] in E. rewrite <- !app_assoc.
  cbn [app]. rewrite E.
  apply trim_keeps; [now apply digit_not_space | reflexivity].
Qed.

Lemma trim_timeText h m1 m2 :
  isHourToken h = true -> isDigit m2 = true ->
  trim (timeText h m1 m2) = timeText h m1 m2.
Proof.
  intros H H2. destruct (isHourToken_head h H) as (c & t & -> & Hc).
  unfold timeText.
  replace ((c :: t) ++ ":" ++ [m1; m2])
    with (c :: (t ++ [":"%char; m1]) ++ [m2])
    by (cbn; rewrite <- app_assoc; reflexivity).
  apply trim_keeps; now apply digit_not_space.
Qed.

Lemma parse12HourTime_token h m1 m2 pm :
  isHourToken h = true -> isDigit m1 = true -> isDigit m2 = true ->
  parse12HourTime (timeText h m1 m2 ++ " " ++ suffixOf pm)
  = padStart0 2 (numToString (to24Hour (suffixOf pm) (parseInt h)))
      ++ ":" ++ [m1; m2].
Proof.
  intros H H1 H2. unfold parse12HourTime.
  rewrite trim_time_text by assumption.
  rewrite re12Hour_token by assumption.
  rewrite toUpperCase_suffixOf. reflexivity.
Qed.

(** A time without AM/PM is a parse failure. *)
Lemma parse12HourTime_no_ampm h m1 m2 :
  isHourToken h = true -> isDigit m1 = true -> isDigit m2 = true ->
  parse12HourTime (timeText h m1 m2) = [].
Proof.
  intros H H1 H2. unfold parse12HourTime.
  rewrite trim_timeText by assumption.
  rewrite re12Hour_no_ampm by assumption. reflexivity.
Qed.

(** A boolean property checked on every integer of a range holds on the
    range. *)
Lemma Z_range_forallb (P : Z -> bool) (lo : Z) (n : nat) :
  forallb P (map (fun k => lo + Z.of_nat k) (seq 0 n)) = true ->
  forall h, lo <= h < lo + Z.of_nat n -> P h = true.
Proof.
  intros H h Hh. rewrite forallb_forall in H. apply H.
  apply in_map_iff. exists (Z.to_nat (h - lo)). split; [lia|].
  apply in_seq. lia.
Qed.

Lemma twoDigitHour_range h : 10 <= h <= 99 -> twoDigitHour h = true.
Proof.
  intros H. apply (Z_range_forallb twoDigitHour 10 90); [|lia].
  vm_compute. reflexivity.
Qed.

(** The hour token of any hour from 10 to 99: two digits that read back. *)
Lemma twoDigitHour_text h :
  10 <= h <= 99 ->
  exists a b, intToString h = [a; b] /\ isDigit a = true /\
              isDigit b = true /\ parseInt [a; b] = Some h.
Proof.
  intros H. pose proof (twoDigitHour_range h H) as T. unfold twoDigitHour in T.
  destruct (intToString h) as [|a [|b [|? ?]]]; try discriminate.
  apply andb_true_iff in T as [T T3]. apply andb_true_iff in T as [T1 T2].
  exists a, b. repeat split; auto.
  destruct (parseInt [a; b]) as [z|]; cbn in T3; [|discriminate].
  apply Z.eqb_eq in T3. now subst.
Qed.

(** C10 (no hour range check): [parse12HourTime] takes any hour token of one
    or two digits.  "h:MM PM" with h from 13 to 99 gives h unchanged,
    "0:MM AM" gives "00:MM", and no well-shaped text with a one- or
    two-digit hour is reported as a failure (the empty string). *)
Theorem parse12HourTime_no_hour_check :
  (forall h m1 m2,
      13 <= h <= 99 -> isDigit m1 = true -> isDigit m2 = true ->
      parse12HourTime (intToString h ++ ":" ++ [m1; m2] ++ " PM")
      = intToString h ++ ":" ++ [m1; m2]) /\
  (forall m1 m2,
      isDigit m1 = true -> isDigit m2 = true ->
      parse12HourTime ("0:" ++ [m1; m2] ++ " AM") = "00:" ++ [m1; m2]) /\
  (forall hh m1 m2 pm,
      isHourToken hh = true -> isDigit m1 = true -> isDigit m2 = true ->
      parse12HourTime (hh ++ ":" ++ [m1; m2] ++ " " ++ suffixOf pm) <> []) /\
  parse12HourTime "13:30 PM" = "13:30".
Proof.
  split; [|split; [|split]].
  - intros h m1 m2 Hh H1 H2.
    destruct (twoDigitHour_text h) as (a & b & E & Ha & Hb & P); [lia|].
    rewrite E.
    change ([a; b] ++ ":" ++ [m1; m2] ++ " PM")
      with (timeText [a; b] m1 m2 ++ " " ++ suffixOf true).
    rewrite parse12HourTime_token; try assumption.
    2:{ unfold isHourToken. cbn. now rewrite Ha, Hb. }
    rewrite P. unfold to24Hour. cbn [suffixOf num_lt num_eq].
    replace (h <? 12) with false by (symmetry; apply Z.ltb_ge; lia).
    rewrite andb_false_r. cbn [str_eqb list_ascii_of_string Ascii.eqb].
    cbn. rewrite E. reflexivity.
  - intros m1 m2 H1 H2.
    exact (parse12HourTime_token "0" m1 m2 false eq_refl H1 H2).
  - intros hh m1 m2 pm Hh H1 H2 Habs.
    change (hh ++ ":" ++ [m1; m2] ++ " " ++ suffixOf pm)
      with (hh ++ (":" ++ [m1; m2]) ++ " " ++ suffixOf pm) in Habs.
    rewrite app_assoc in Habs. fold (timeText hh m1 m2) in Habs.
    rewrite parse12HourTime_token in Habs by assumption.
    apply app_eq_nil in Habs as [_ Habs]. discriminate.
  - vm_compute. reflexivity.
Qed.

Lemma parse12HourTime_no_hour_check_witness :
  13 <= 47 <= 99 /\ isDigit "0" = true /\ isDigit "5" = true /\
  parse12HourTime "47:05 PM" = "47:05".
Proof.
  split; [lia|]. split; [reflexivity|]. split; [reflexivity|].
  apply (proj1 parse12HourTime_no_hour_check 47 "0"%char "5"%char);
    [lia | reflexivity | reflexivity].
Defined.

(** *** The entry expression on an entry without AM/PM on the start *)

Lemma span_app p l c r :
  forallb p l = true -> p c = false -> span p (l ++ c :: r) = (l, c :: r).
Proof.
  intros Hl Hc. induction l as [|x l IH]; cbn [app span].
  - now rewrite Hc.
  - cbn in Hl. apply andb_true_iff in Hl as [Hx Hl].
    rewrite Hx, (IH Hl). reflexivity.
Qed.

Lemma dropWhile_time h m1 m2 r :
  isHourToken h = true ->
  dropWhile isSpace (timeText h m1 m2 ++ r) = timeText h m1 m2 ++ r.
Proof.
  intros H. destruct (isHourToken_head h H) as (c & t & -> & Hc).
  unfold timeText. cbn [app dropWhile].
  now rewrite (digit_not_space c Hc).
Qed.

Lemma span_space_time h m1 m2 r :
  isHourToken h = true ->
  span isSpace (" " ++ timeText h m1 m2 ++ r)
  = ([" "%char], timeText h m1 m2 ++ r).
Proof.
  intros H. destruct (isHourToken_head h H) as (c & t & -> & Hc).
  unfold timeText. cbn [app span list_ascii_of_string].
  change (isSpace " ") with true. cbv iota.
  now rewrite (digit_not_space c Hc).
Qed.

Lemma reAmPm_dash r : reAmPm ("-"%char :: r) = None.
Proof. destruct r; reflexivity. Qed.

Lemma reEntry_without_start_ampm letters hs a1 a2 he b1 b2 pm :
  letters <> [] -> forallb isAlpha letters = true ->
  isHourToken hs = true -> isDigit a1 = true -> isDigit a2 = true ->
  isHourToken he = true -> isDigit b1 = true -> isDigit b2 = true ->
  reEntry (entryWithoutStartAmpm letters hs a1 a2 he b1 b2 pm)
  = Some (mkParts letters (timeText hs a1 a2) None (timeText he b1 b2)
                  (suffixOf pm)).
Proof.
  intros Hne Hl Hs Ha1 Ha2 He Hb1 Hb2.
  unfold reEntry, entryWithoutStartAmpm.
  change (letters ++ " " ++ timeText hs a1 a2 ++ "-" ++ timeText he b1 b2
            ++ " " ++ suffixOf pm)
    with (letters ++ " "%char :: timeText hs a1 a2 ++ "-" ++ timeText he b1 b2
            ++ " " ++ suffixOf pm).
  rewrite span_app by (assumption || reflexivity).
  change (" "%char :: timeText hs a1 a2 ++ "-" ++ timeText he b1 b2
            ++ " " ++ suffixOf pm)
    with (" " ++ timeText hs a1 a2 ++ "-" ++ timeText he b1 b2
            ++ " " ++ suffixOf pm).
  rewrite span_space_time by assumption.
  destruct letters as [|l0 lt]; [congruence|].
  rewrite reHourMin_token by assumption.
  change ("-" ++ timeText he b1 b2 ++ " " ++ suffixOf pm)
    with ("-"%char :: timeText he b1 b2 ++ " " ++ suffixOf pm).
  change (dropWhile isSpace ("-"%char :: timeText he b1 b2 ++ " " ++ suffixOf pm))
    with ("-"%char :: timeText he b1 b2 ++ " " ++ suffixOf pm).
  rewrite reAmPm_dash.
  change (dropWhile isSpace ("-"%char :: timeText he b1 b2 ++ " " ++ suffixOf pm))
    with ("-"%char :: timeText he b1 b2 ++ " " ++ suffixOf pm).
  change (Ascii.eqb "-" "-") with true. cbv iota.
  rewrite dropWhile_time, reHourMin_token by assumption.
  change (dropWhile isSpace (" " ++ suffixOf pm)) with
    (dropWhile isSpace (suffixOf pm)).
  destruct pm; reflexivity.
Qed.

(** *** The entry expression on a formatted entry *)

Lemma dropWhile_space_suffix p r :
  dropWhile isSpace (" " ++ suffixOf p ++ r) = suffixOf p ++ r.
Proof. destruct p; reflexivity. Qed.

Lemma reAmPm_suffix_app p r : reAmPm (suffixOf p ++ r) = Some (suffixOf p, r).
Proof. destruct p; reflexivity. Qed.

Lemma reEntry_formatted letters hs a1 a2 p1 he b1 b2 p2 :
  letters <> [] -> forallb isAlpha letters = true ->
  isHourToken hs = true -> isDigit a1 = true -> isDigit a2 = true ->
  isHourToken he = true -> isDigit b1 = true -> isDigit b2 = true ->
  reEntry (formattedEntry letters hs a1 a2 p1 he b1 b2 p2)
  = Some (mkParts letters (timeText hs a1 a2) (Some (suffixOf p1))
                  (timeText he b1 b2) (suffixOf p2)).
Proof.
  intros Hne Hl Hs Ha1 Ha2 He Hb1 Hb2.
  unfold reEntry, formattedEntry.
  change (letters ++ " " ++ ?r) with (letters ++ " "%char :: r).
  rewrite span_app by (assumption || reflexivity).
  change (" "%char :: ?r) with (" " ++ r).
  rewrite span_space_time by assumption.
  destruct letters as [|l0 lt]; [congruence|].
  rewrite reHourMin_token by assumption.
  rewrite dropWhile_space_suffix, reAmPm_suffix_app.
  change (dropWhile isSpace ("-" ++ ?r)) with ("-"%char :: r).
  change (Ascii.eqb "-" "-") with true. cbv iota.
  rewrite dropWhile_time, reHourMin_token by assumption.
  change (dropWhile isSpace (" " ++ suffixOf p2)) with
    (dropWhile isSpace (suffixOf p2)).
  destruct p2; reflexivity.
Qed.

(** AM/PM is required after the end time: the same entry without it does
    not match. *)
Lemma reEntry_without_end_ampm letters hs a1 a2 p1 he b1 b2 :
  letters <> [] -> forallb isAlpha letters = true ->
  isHourToken hs = true -> isDigit a1 = true -> isDigit a2 = true ->
  isHourToken he = true -> isDigit b1 = true -> isDigit b2 = true ->
  reEntry (letters ++ " " ++ timeText hs a1 a2 ++ " " ++ suffixOf p1 ++ "-"
             ++ timeText he b1 b2) = None.
Proof.
  intros Hne Hl Hs Ha1 Ha2 He Hb1 Hb2.
  unfold reEntry.
  change (letters ++ " " ++ ?r) with (letters ++ " "%char :: r).
  rewrite span_app by (assumption || reflexivity).
  change (" "%char :: ?r) with (" " ++ r).
  rewrite span_space_time by assumption.
  destruct letters as [|l0 lt]; [congruence|].
  rewrite reHourMin_token by assumption.
  rewrite dropWhile_space_suffix, reAmPm_suffix_app.
  change (dropWhile isSpace ("-" ++ ?r)) with ("-"%char :: r).
  change (Ascii.eqb "-" "-") with true. cbv iota.
  rewrite <- (app_nil_r (timeText he b1 b2)).
  rewrite dropWhile_time, reHourMin_token by assumption.
  reflexivity.
Qed.

(** *** Splitting a schedule string into entries *)

Lemma split_nonempty sep s : split sep s <> [].
Proof.
  destruct s as [|c r]; cbn; [discriminate|].
  destruct (Ascii.eqb c sep); [discriminate|].
  destruct (split sep r); discriminate.
Qed.

Lemma split_app sep a b :
  split sep (a ++ sep :: b) = split sep a ++ split sep b.
Proof.
  induction a as [|c a IH]; cbn [app split].
  - now rewrite Ascii.eqb_refl.
  - destruct (Ascii.eqb c sep); rewrite IH; [reflexivity|].
    pose proof (split_nonempty sep a).
    destruct (split sep a); [congruence|reflexivity].
Qed.

Lemma split_noComma s : noComma s = true -> split "," s = [s].
Proof.
  unfold noComma. induction s as [|c s IH]; cbn [forallb split]; [reflexivity|].
  intros H. apply andb_true_iff in H as [Hc Hs].
  apply negb_true_iff in Hc. rewrite Hc, (IH Hs). reflexivity.
Qed.

Lemma scheduleEntries_app a b :
  scheduleEntries (a ++ "," ++ b) = scheduleEntries a ++ scheduleEntries b.
Proof.
  unfold scheduleEntries.
  change (a ++ "," ++ b) with (a ++ ","%char :: b).
  now rewrite split_app, map_app, filter_app.
Qed.

Lemma scheduleEntries_single e e' :
  noComma e = true -> trim e = e' -> e' <> [] -> scheduleEntries e = [e'].
Proof.
  intros Hc Ht Hne. unfold scheduleEntries. rewrite split_noComma by assumption.
  cbn [map filter]. rewrite Ht. destruct e'; [congruence|reflexivity].
Qed.

Lemma parseExistingSchedule_nonempty st s :
  s <> [] ->
  parseExistingSchedule st s
  = fold_left parseSlotEntry (scheduleEntries s) (set_timeSlots st []).
Proof. destruct s; [congruence|reflexivity]. Qed.

Lemma noComma_app a b : noComma (a ++ b) = noComma a && noComma b.
Proof. apply forallb_app. Qed.

Lemma noComma_of (p : ascii -> bool) s :
  (forall c, p c = true -> Ascii.eqb c "," = false) ->
  forallb p s = true -> noComma s = true.
Proof.
  intros Hp H. unfold noComma. rewrite forallb_forall in *.
  intros c Hc. now rewrite (Hp c (H c Hc)).
Qed.

Lemma alpha_not_comma c : isAlpha c = true -> Ascii.eqb c "," = false.
Proof.
  intros H. apply Ascii.eqb_neq. intros ->. vm_compute in H. discriminate.
Qed.

Lemma digit_not_comma c : isDigit c = true -> Ascii.eqb c "," = false.
Proof.
  intros H. apply Ascii.eqb_neq. intros ->. vm_compute in H. discriminate.
Qed.

Lemma space_not_comma c : isSpace c = true -> Ascii.eqb c "," = false.
Proof.
  intros H. apply Ascii.eqb_neq. intros ->. vm_compute in H. discriminate.
Qed.

Lemma noComma_timeText h m1 m2 :
  isHourToken h = true -> isDigit m1 = true -> isDigit m2 = true ->
  noComma (timeText h m1 m2) = true.
Proof.
  intros H H1 H2. unfold timeText. rewrite noComma_app.
  apply andb_true_iff. split.
  - apply (noComma_of isDigit); [apply digit_not_comma|].
    unfold isHourToken in H. now apply andb_true_iff in H as [_ ?].
  - cbn. now rewrite (digit_not_comma m1 H1), (digit_not_comma m2 H2).
Qed.

Lemma noComma_suffixOf pm : noComma (" " ++ suffixOf pm) = true.
Proof. destruct pm; reflexivity. Qed.

Section EntryWithoutStartAmpm.
Variables (letters hs : str) (a1 a2 : ascii) (he : str) (b1 b2 : ascii)
          (pm : bool).
Hypothesis letters_nonempty : letters <> [].
Hypothesis letters_alpha : forallb isAlpha letters = true.
Hypothesis start_hour : isHourToken hs = true.
Hypothesis start_min1 : isDigit a1 = true.
Hypothesis start_min2 : isDigit a2 = true.
Hypothesis end_hour : isHourToken he = true.
Hypothesis end_min1 : isDigit b1 = true.
Hypothesis end_min2 : isDigit b2 = true.

Local Abbreviation entry :=
  (entryWithoutStartAmpm letters hs a1 a2 he b1 b2 pm).

Lemma entry_noComma : noComma entry = true.
Proof.
  unfold entryWithoutStartAmpm.
  rewrite !noComma_app, !noComma_timeText by assumption.
  rewrite (noComma_of isAlpha letters alpha_not_comma letters_alpha).
  rewrite <- noComma_app, noComma_suffixOf. reflexivity.
Qed.

Lemma entry_shape :
  exists c r, entry = c :: r ++ ["M"%char] /\ isSpace c = false.
Proof.
  unfold entryWithoutStartAmpm.
  destruct letters as [|l0 lt]; [congruence|].
  cbn in letters_alpha. apply andb_true_iff in letters_alpha as [H0 _].
  destruct (suffixOf_last pm (lt ++ " " ++ timeText hs a1 a2 ++ "-"
                                 ++ timeText he b1 b2)) as [r' E].
  rewrite <- !app_assoc in E.
  exists l0, r'. split; [|now apply alpha_not_space].
  rewrite <- E. reflexivity.
Qed.

Lemma entry_padded pad1 pad2 :
  forallb isSpace pad1 = true -> forallb isSpace pad2 = true ->
  trim (pad1 ++ entry ++ pad2) = entry.
Proof.
  intros H1 H2. destruct entry_shape as (c & r & -> & Hc).
  now apply trim_padded.
Qed.

Lemma entry_nonempty : entry <> [].
Proof.
  unfold entryWithoutStartAmpm.
  destruct letters; [congruence | discriminate].
Qed.

Lemma entrySlot_without_start_ampm : entrySlot entry = None.
Proof.
  unfold entrySlot.
  rewrite reEntry_without_start_ampm by assumption.
  unfold startTimeStr.
  cbn [dayPart startTimePart startAmpmPart endTimePart endAmpmPart].
  unfold timeWithAmpm at 1. cbn [isEmpty]. rewrite app_nil_r.
  rewrite trim_timeText, parse12HourTime_no_ampm by assumption.
  reflexivity.
Qed.
End EntryWithoutStartAmpm.

(** C9 (start-time AM/PM asymmetry): an entry "<days> H:MM-H:MM AM|PM"
    matches the entry expression with no AM/PM captured for the start,
    whereas an entry with AM/PM after the start only does not match; the
    start text without AM/PM then fails the 12-hour parse, the entry is
    skipped, and the entries around it are parsed as if it were not
    there. *)
Theorem start_ampm_asymmetry letters hs a1 a2 he b1 b2 pm :
  letters <> [] -> forallb isAlpha letters = true ->
  isHourToken hs = true -> isDigit a1 = true -> isDigit a2 = true ->
  isHourToken he = true -> isDigit b1 = true -> isDigit b2 = true ->
  let entry := entryWithoutStartAmpm letters hs a1 a2 he b1 b2 pm in
  reEntry entry
    = Some (mkParts letters (timeText hs a1 a2) None (timeText he b1 b2)
                    (suffixOf pm)) /\
  reEntry (letters ++ " " ++ timeText hs a1 a2 ++ " " ++ suffixOf pm ++ "-"
             ++ timeText he b1 b2) = None /\
  (forall parts, reEntry entry = Some parts ->
                 parse12HourTime (startTimeStr parts) = []) /\
  entrySlot entry = None /\
  (forall st, parseSlotEntry st entry = st) /\
  (forall st before after pad1 pad2,
      forallb isSpace pad1 = true -> forallb isSpace pad2 = true ->
      parseExistingSchedule st
        (before ++ "," ++ (pad1 ++ entry ++ pad2) ++ "," ++ after)
      = parseExistingSchedule st (before ++ "," ++ after)).
Proof.
  intros Hne Hl Hs Ha1 Ha2 He Hb1 Hb2 entry.
  assert (Hslot : entrySlot entry = None)
    by (now apply entrySlot_without_start_ampm).
  assert (Hskip : forall st, parseSlotEntry st entry = st)
    by (intros st; unfold parseSlotEntry; now rewrite Hslot).
  split; [now apply reEntry_without_start_ampm|].
  split; [now apply reEntry_without_end_ampm|].
  split.
  { intros parts Hp. unfold entry in Hp.
    rewrite reEntry_without_start_ampm in Hp by assumption.
    injection Hp as <-. unfold startTimeStr, timeWithAmpm.
    cbn [startTimePart startAmpmPart isEmpty]. rewrite app_nil_r.
    rewrite trim_timeText by assumption.
    now apply parse12HourTime_no_ampm. }
  split; [exact Hslot|]. split; [exact Hskip|].
  intros st before after pad1 pad2 Hp1 Hp2.
  rewrite !parseExistingSchedule_nonempty
    by (destruct before; discriminate).
  rewrite !scheduleEntries_app.
  rewrite (scheduleEntries_single (pad1 ++ entry ++ pad2) entry).
  - rewrite !fold_left_app. cbn [fold_left]. now rewrite Hskip.
  - rewrite !noComma_app.
    rewrite (noComma_of isSpace pad1 space_not_comma Hp1).
    rewrite (noComma_of isSpace pad2 space_not_comma Hp2).
    unfold entry. now rewrite entry_noComma.
  - now apply entry_padded.
  - now apply entry_nonempty.
Qed.

Lemma start_ampm_asymmetry_witness :
  map (fun s => (days s, startTime s, endTime s))
      (timeSlots (parseExistingSchedule
                    (mkBuilder [] [] 0 [] [] [] true [])
                    "MWF 10:00 AM-12:00 PM, M 9:00-10:00 AM, F 1:00 PM-2:30 PM"))
  = [(strs ["M"; "W"; "F"], "10:00" : str, "12:00" : str);
     (strs ["F"], "13:00" : str, "14:30" : str)].
Proof.
  transitivity
    (map (fun s => (days s, startTime s, endTime s))
       (timeSlots (parseExistingSchedule
                     (mkBuilder [] [] 0 [] [] [] true [])
                     "MWF 10:00 AM-12:00 PM, F 1:00 PM-2:30 PM")));
    [|vm_compute; reflexivity].
  apply (f_equal (fun b => map (fun s => (days s, startTime s, endTime s))
                               (timeSlots b))).
  exact (proj2 (proj2 (proj2 (proj2 (proj2
    (start_ampm_asymmetry "M" "9" "0" "0" "10" "0" "0" false
       ltac:(discriminate) eq_refl eq_refl eq_refl eq_refl eq_refl eq_refl
       eq_refl)))))
    (mkBuilder [] [] 0 [] [] [] true []) "MWF 10:00 AM-12:00 PM"
    " F 1:00 PM-2:30 PM" " " "" eq_refl eq_refl).
Defined.

(** *** The day scan *)

Lemma scanDays_two c c' r :
  isTwoLetterCode c c' = true ->
  scanDays (c :: c' :: r) = [c; c'] :: scanDays r.
Proof. unfold isTwoLetterCode. cbn [scanDays]. now intros ->. Qed.

Lemma scanDays_one c r :
  startsTwoLetter (c :: r) = false -> isDayLetter c = true ->
  scanDays (c :: r) = [c] :: scanDays r.
Proof.
  unfold startsTwoLetter, isTwoLetterCode. cbn [scanDays].
  destruct r as [|c' r]; intros H ->; [reflexivity | now rewrite H].
Qed.

Lemma scanDays_skip c r :
  startsTwoLetter (c :: r) = false -> isDayLetter c = false ->
  scanDays (c :: r) = scanDays r.
Proof.
  unfold startsTwoLetter, isTwoLetterCode. cbn [scanDays].
  destruct r as [|c' r]; intros H ->; [reflexivity | now rewrite H].
Qed.

Lemma Decomposes_sound s ds : Decomposes s ds -> scanDays s = ds.
Proof.
  induction 1 as [|c c' r ds H _ IH|c r ds H1 H2 _ IH|c r ds H1 H2 _ IH].
  - reflexivity.
  - now rewrite scanDays_two, IH.
  - now rewrite scanDays_one, IH.
  - now rewrite scanDays_skip, IH.
Qed.

Lemma Decomposes_scan_bounded n :
  forall s, (List.length s <= n)%nat -> Decomposes s (scanDays s).
Proof.
  induction n as [|n IH]; intros s Hs.
  - destruct s; [constructor | cbn in Hs; lia].
  - destruct s as [|c r]; [constructor|].
    destruct (startsTwoLetter (c :: r)) eqn:E2.
    + destruct r as [|c' r]; [discriminate|]. cbn in E2.
      rewrite scanDays_two by assumption.
      apply dec_two; [assumption|]. apply IH. cbn in Hs. lia.
    + destruct (isDayLetter c) eqn:E1.
      * rewrite scanDays_one by assumption.
        apply dec_one; try assumption. apply IH. cbn in Hs. lia.
      * rewrite scanDays_skip by assumption.
        apply dec_skip; try assumption. apply IH. cbn in Hs. lia.
Qed.

(** The scan of the script computes the decomposition the specification
    describes, and that decomposition is unique. *)
Lemma scanDays_decomposes s ds : Decomposes s ds <-> scanDays s = ds.
Proof.
  split; [apply Decomposes_sound|].
  intros <-. now apply (Decomposes_scan_bounded (List.length s)).
Qed.

(** C5 (day-letter decomposition): the scan of the script computes the
    decomposition described (two-letter match first, then one letter, other
    characters passed over).  Evaluated on "TH 9:00 AM-10:00 AM", the entry
    gives one slot with one day, and that day is the text "TH" of the
    upper-cased letter block, which is not the day code "Th" and not a key
    of [dayOrder]. *)
Theorem thursday_entry_day_is_upper_case :
  (forall s ds, Decomposes s ds <-> scanDays s = ds) /\
  entrySlot "TH 9:00 AM-10:00 AM"
    = Some (strs ["TH"], "09:00" : str, "10:00" : str) /\
  map days (timeSlots (parseExistingSchedule initialBuilder
                                             "TH 9:00 AM-10:00 AM"))
    = [strs ["TH"]] /\
  strs ["TH"] <> strs ["Th"] /\
  lookup dayOrder "TH" = None /\
  lookup dayOrder "Th" = Some 3.
Proof.
  split; [exact scanDays_decomposes|].
  repeat split; try (vm_compute; reflexivity). discriminate.
Qed.

(** *** Skipped entries *)

Lemma entryFails_entrySlot e : entryFails e <-> entrySlot e = None.
Proof.
  unfold entryFails, entrySlot. destruct (reEntry e) as [parts|].
  - split.
    + intros [H|(p & [= <-] & H)]; [discriminate|].
      destruct H as [-> | ->]; [reflexivity|].
      now rewrite andb_false_r.
    + intros H. right. exists parts. split; [reflexivity|].
      destruct (parse12HourTime (startTimeStr parts)); [now left|].
      destruct (parse12HourTime (endTimeStr parts)); [now right|].
      discriminate.
  - split; auto.
Qed.

Lemma accepted_false e : accepted e = false <-> entryFails e.
Proof.
  rewrite entryFails_entrySlot. unfold accepted.
  destruct (entrySlot e); split; congruence.
Qed.

Lemma timeSlots_updateScheduleDisplay_length st :
  List.length (timeSlots (updateScheduleDisplay st))
  = List.length (timeSlots st).
Proof.
  unfold updateScheduleDisplay. destruct (hasDisplay st); cbn [negb];
    [|reflexivity].
  destruct (timeSlots st) eqn:E; cbn; [now rewrite E|].
  now rewrite length_map.
Qed.

Lemma addTimeSlot_length st slot :
  List.length (timeSlots (addTimeSlot st slot))
  = S (List.length (timeSlots st)).
Proof.
  unfold addTimeSlot. rewrite timeSlots_updateScheduleDisplay_length.
  cbn. rewrite length_app. cbn. lia.
Qed.

Lemma parseSlotEntry_skip st e : entryFails e -> parseSlotEntry st e = st.
Proof.
  intros H. apply entryFails_entrySlot in H. unfold parseSlotEntry.
  now rewrite H.
Qed.

Lemma parseSlotEntry_length st e :
  List.length (timeSlots (parseSlotEntry st e))
  = (List.length (timeSlots st) + (if accepted e then 1 else 0))%nat.
Proof.
  unfold parseSlotEntry, accepted.
  destruct (entrySlot e) as [[[d a] b]|]; [|lia].
  cbn [freshId]. rewrite addTimeSlot_length. cbn. lia.
Qed.

Lemma fold_parse_filter es :
  forall st,
    fold_left parseSlotEntry es st
    = fold_left parseSlotEntry (filter accepted es) st.
Proof.
  induction es as [|e es IH]; intros st; [reflexivity|].
  cbn [filter fold_left]. destruct (accepted e) eqn:E.
  - cbn [fold_left]. apply IH.
  - rewrite parseSlotEntry_skip by (now apply accepted_false). apply IH.
Qed.

Lemma fold_parse_length es :
  forall st,
    List.length (timeSlots (fold_left parseSlotEntry es st))
    = (List.length (timeSlots st) + List.length (filter accepted es))%nat.
Proof.
  induction es as [|e es IH]; intros st; cbn [fold_left filter]; [cbn; lia|].
  rewrite IH, parseSlotEntry_length. destruct (accepted e); cbn; lia.
Qed.

(** C6 (resilient parse): an entry that does not match the entry expression,
    or one of whose times does not parse, leaves the builder as it is; the
    entries after it are processed all the same, so the result is the one
    of the accepted entries alone and has one slot for each of them.  The
    string with a malformed middle entry gives exactly two slots. *)
Theorem resilient_parse :
  (forall st e, entryFails e -> parseSlotEntry st e = st) /\
  (forall st before e after,
      entryFails e ->
      fold_left parseSlotEntry (before ++ e :: after) st
      = fold_left parseSlotEntry (before ++ after) st) /\
  (forall st s,
      parseExistingSchedule st s
      = match s with
        | [] => st
        | _ => fold_left parseSlotEntry
                 (filter accepted (scheduleEntries s)) (set_timeSlots st [])
        end) /\
  (forall st s,
      s <> [] ->
      List.length (timeSlots (parseExistingSchedule st s))
      = List.length (filter accepted (scheduleEntries s))) /\
  (let s : str :=
     "MWF 10:00 AM-12:00 PM, garbage-entry, TTh 1:00 PM-2:30 PM" in
   map entrySlot (scheduleEntries s)
   = [Some (strs ["M"; "W"; "F"], "10:00" : str, "12:00" : str);
      None;
      Some (strs ["T"; "TH"], "13:00" : str, "14:30" : str)] /\
   map (fun x => (id x, startTime x, endTime x))
       (timeSlots (parseExistingSchedule initialBuilder s))
   = [("slot_0" : str, "10:00" : str, "12:00" : str);
      ("slot_1" : str, "13:00" : str, "14:30" : str)]).
Proof.
  split; [exact parseSlotEntry_skip|]. split; [|split; [|split]].
  - intros st before e after H.
    rewrite !fold_left_app. cbn [fold_left].
    now rewrite parseSlotEntry_skip.
  - intros st [|c s]; [reflexivity|].
    unfold parseExistingSchedule. apply fold_parse_filter.
  - intros st s Hs. rewrite parseExistingSchedule_nonempty by assumption.
    rewrite fold_parse_length. reflexivity.
  - split; vm_compute; reflexivity.
Qed.

Lemma resilient_parse_witness :
  entryFails "garbage-entry" /\
  parseSlotEntry initialBuilder "garbage-entry" = initialBuilder.
Proof.
  assert (H : entryFails "garbage-entry") by (left; vm_compute; reflexivity).
  split; [exact H|].
  exact (proj1 resilient_parse initialBuilder "garbage-entry" H).
Defined.

(** *** Sorting *)

Section SortTheory.
Context {A : Type} (cmp : A -> A -> option Z).

Lemma insertSorted_perm x l : Permutation (insertSorted cmp x l) (x :: l).
Proof.
  induction l as [|y l IH]; cbn [insertSorted]; [reflexivity|].
  destruct (after cmp x y); [|reflexivity].
  rewrite IH. apply perm_swap.
Qed.

Lemma arraySort_perm l : Permutation (arraySort cmp l) l.
Proof.
  induction l as [|x l IH]; cbn [arraySort fold_right]; [reflexivity|].
  fold (arraySort cmp l). rewrite insertSorted_perm. now constructor.
Qed.

Hypothesis after_asym :
  forall a b, after cmp a b = true -> after cmp b a = false.

Lemma insertSorted_sorted x l :
  Sorted (notAfter cmp) l -> Sorted (notAfter cmp) (insertSorted cmp x l).
Proof.
  induction 1 as [|y l Hs IH Hd]; cbn [insertSorted].
  - repeat constructor.
  - destruct (after cmp x y) eqn:E.
    + constructor; [assumption|].
      destruct l as [|z l]; cbn [insertSorted].
      * constructor. now apply after_asym.
      * destruct (after cmp x z).
        -- constructor. now inversion Hd.
        -- constructor. now apply after_asym.
    + repeat constructor; assumption.
Qed.

Lemma arraySort_sorted l : Sorted (notAfter cmp) (arraySort cmp l).
Proof.
  induction l as [|x l IH]; cbn [arraySort fold_right]; [constructor|].
  now apply insertSorted_sorted.
Qed.

(** Sorting an arrangement that is already in order changes nothing. *)
Lemma arraySort_fixpoint l : Sorted (notAfter cmp) l -> arraySort cmp l = l.
Proof.
  induction 1 as [|x l Hs IH Hd]; [reflexivity|].
  cbn [arraySort fold_right]. fold (arraySort cmp l). rewrite IH.
  destruct Hd as [|y l Hxy]; cbn [insertSorted]; [reflexivity|].
  unfold notAfter in Hxy. now rewrite Hxy.
Qed.

Lemma arraySort_idempotent l :
  arraySort cmp (arraySort cmp l) = arraySort cmp l.
Proof. apply arraySort_fixpoint, arraySort_sorted. Qed.

(** A comparator that orders a set [D] of values by an injective key. *)
Variable D : A -> Prop.
Variable key : A -> Z.
Hypothesis after_key :
  forall a b, D a -> D b -> after cmp a b = (key b <? key a).
Hypothesis key_inj : forall a b, D a -> D b -> key a = key b -> a = b.

Lemma insertSorted_comm x y l :
  D x -> D y -> Forall D l ->
  insertSorted cmp x (insertSorted cmp y l)
  = insertSorted cmp y (insertSorted cmp x l).
Proof.
  intros Hx Hy Hl. induction Hl as [|z l Hz Hl IH];
    repeat (cbn [insertSorted]; rewrite ?after_key by assumption;
            match goal with
            | |- context [Z.ltb ?a ?b] => destruct (Z.ltb_spec a b)
            end);
    try lia; try reflexivity; try (now rewrite IH);
    assert (x = y) by (apply key_inj; auto; lia); now subst.
Qed.

(** Two arrangements of the same values sort to the same array. *)
Lemma arraySort_perm_eq l1 l2 :
  Permutation l1 l2 -> Forall D l1 -> arraySort cmp l1 = arraySort cmp l2.
Proof.
  induction 1 as [|x l1 l2 HP IH|x y l|l1 l2 l3 HP1 IH1 HP2 IH2];
    intros HD.
  - reflexivity.
  - cbn [arraySort fold_right]. fold (arraySort cmp l1) (arraySort cmp l2).
    rewrite IH; [reflexivity|]. now inversion HD.
  - cbn [arraySort fold_right]. fold (arraySort cmp l).
    inversion HD as [|? ? Hy HD']; subst.
    inversion HD' as [|? ? Hx HD'']; subst.
    apply insertSorted_comm; try assumption.
    eapply Permutation_Forall; [symmetry; apply arraySort_perm|assumption].
  - rewrite IH1 by assumption. apply IH2.
    eapply Permutation_Forall; eassumption.
Qed.

Lemma arraySort_key_sorted l :
  Forall D l ->
  Sorted (fun a b => key a <= key b) (arraySort cmp l).
Proof.
  intros HD.
  assert (HD' : Forall D (arraySort cmp l))
    by (eapply Permutation_Forall; [symmetry; apply arraySort_perm|auto]).
  pose proof (arraySort_sorted l) as HS.
  induction HS as [|x r Hs IH Hd]; constructor.
  - apply IH. now inversion HD'.
  - inversion HD' as [|? ? Hx Hr]; subst.
    destruct Hd as [|y r Hxy]; constructor.
    unfold notAfter in Hxy. inversion Hr; subst.
    rewrite after_key in Hxy by assumption.
    apply Z.ltb_ge in Hxy. lia.
Qed.
End SortTheory.

(** *** The comparator of the formatter *)

Lemma dayCompare_asym a b :
  after dayCompare a b = true -> after dayCompare b a = false.
Proof.
  unfold after, dayCompare.
  destruct (lookup dayOrder a), (lookup dayOrder b); cbn; try congruence.
  intros H. apply Z.ltb_lt in H. apply Z.ltb_ge. lia.
Qed.

Lemma canonicalDay_cases d :
  canonicalDay d = true -> In d (strs ["M"; "T"; "W"; "Th"; "F"; "S"; "Su"]).
Proof.
  unfold canonicalDay. intros H. apply existsb_exists in H as (x & Hx & E).
  apply str_eqb_eq in E. now subst.
Qed.

Ltac day_cases H :=
  apply canonicalDay_cases in H; cbn in H;
  repeat (destruct H as [<-|H]); try contradiction.

Lemma after_dayIndex a b :
  canonicalDay a = true -> canonicalDay b = true ->
  after dayCompare a b = (dayIndex b <? dayIndex a).
Proof. intros Ha Hb. day_cases Ha; day_cases Hb; reflexivity. Qed.

Lemma dayIndex_inj a b :
  canonicalDay a = true -> canonicalDay b = true ->
  dayIndex a = dayIndex b -> a = b.
Proof.
  intros Ha Hb. day_cases Ha; day_cases Hb; intros E;
    solve [reflexivity | vm_compute in E; discriminate E].
Qed.

Lemma canonical_Forall ds :
  forallb canonicalDay ds = true ->
  Forall (fun d => canonicalDay d = true) ds.
Proof. intros H. apply Forall_forall. now apply forallb_forall. Qed.

Lemma sortDays_perm_eq ds1 ds2 :
  Permutation ds1 ds2 -> forallb canonicalDay ds1 = true ->
  arraySort dayCompare ds1 = arraySort dayCompare ds2.
Proof.
  intros HP HC.
  apply (arraySort_perm_eq dayCompare (fun d => canonicalDay d = true)
           dayIndex after_dayIndex dayIndex_inj); [assumption|].
  now apply canonical_Forall.
Qed.

Lemma sortDays_sorted ds :
  forallb canonicalDay ds = true -> Sorted weekdayLe (arraySort dayCompare ds).
Proof.
  intros HC.
  apply (arraySort_key_sorted dayCompare dayCompare_asym
           (fun d => canonicalDay d = true) dayIndex after_dayIndex).
  now apply canonical_Forall.
Qed.

Lemma formatSchedule_text ts :
  fst (formatSchedule ts) = join ", " (map slotText (map sortSlotDays ts)).
Proof. destruct ts; reflexivity. Qed.

Lemma formatSchedule_slots ts :
  snd (formatSchedule ts) = map sortSlotDays ts.
Proof. destruct ts; reflexivity. Qed.

Lemma slotText_perm a b :
  canonicalSlot a -> sameSlotUpToDayOrder a b ->
  slotText (sortSlotDays a) = slotText (sortSlotDays b).
Proof.
  intros HC (HP & Hs & He). unfold slotText, sortSlotDays.
  cbn [days startTime endTime].
  now rewrite (sortDays_perm_eq _ _ HP HC), Hs, He.
Qed.

(** C7 (day-sort determinism): for slots whose days are day codes of the
    table, the text [formatSchedule] emits for a slot starts with these
    days, each as often as the slot has it, arranged in the order M, T, W,
    Th, F, S, Su; so two slot lists that differ only in the order of the
    days inside the slots give the same string. *)
Theorem day_sort_determinism :
  map dayIndex (strs ["M"; "T"; "W"; "Th"; "F"; "S"; "Su"])
  = [0; 1; 2; 3; 4; 5; 6] /\
  (forall ts,
      Forall canonicalSlot ts ->
      fst (formatSchedule ts)
      = join ", "
          (map (fun s =>
                  join "" (arraySort dayCompare (days s)) ++ " "
                    ++ formatTimeForSchedule (startTime s) ++ "-"
                    ++ formatTimeForSchedule (endTime s)) ts) /\
      Forall (fun s =>
                Permutation (arraySort dayCompare (days s)) (days s) /\
                Sorted weekdayLe (arraySort dayCompare (days s))) ts) /\
  (forall ts1 ts2,
      Forall canonicalSlot ts1 -> Forall2 sameSlotUpToDayOrder ts1 ts2 ->
      fst (formatSchedule ts1) = fst (formatSchedule ts2)) /\
  fst (formatSchedule
         [mkSlot "slot_0" (strs ["Su"; "F"; "Th"; "M"; "S"; "W"; "T"])
                 "09:00" "10:00" (Some false)])
  = "MTWThFSSu 9:00 AM-10:00 AM".
Proof.
  split; [reflexivity|]. split; [|split].
  - intros ts HC. split.
    + rewrite formatSchedule_text, map_map. reflexivity.
    + apply Forall_forall. intros s Hs. rewrite Forall_forall in HC.
      split; [apply arraySort_perm | apply sortDays_sorted, HC, Hs].
  - intros ts1 ts2 HC HF. rewrite !formatSchedule_text. f_equal.
    induction HF as [|a b ts1 ts2 Hab HF IH]; [reflexivity|].
    inversion HC; subst. cbn [map]. f_equal; [|now apply IH].
    now apply slotText_perm.
  - vm_compute. reflexivity.
Qed.

Lemma day_sort_determinism_witness :
  fst (formatSchedule [mkSlot "slot_0" (strs ["Th"; "M"]) "09:00" "10:00" None])
  = fst (formatSchedule [mkSlot "slot_7" (strs ["M"; "Th"]) "09:00" "10:00" None]).
Proof.
  apply (proj1 (proj2 (proj2 day_sort_determinism))).
  - repeat constructor.
  - repeat constructor.
Defined.

(** *** The formatter and the slots it is given *)

Lemma sortSlotDays_same s : sameSlotButDayOrder s (sortSlotDays s).
Proof.
  unfold sameSlotButDayOrder, sortSlotDays. cbn. repeat split.
  apply arraySort_perm.
Qed.

Lemma sortSlotDays_idempotent s :
  sortSlotDays (sortSlotDays s) = sortSlotDays s.
Proof.
  unfold sortSlotDays. cbn [id days startTime endTime isOvernight].
  now rewrite (arraySort_idempotent dayCompare dayCompare_asym).
Qed.

Lemma map_sortSlotDays_idempotent ts :
  map sortSlotDays (map sortSlotDays ts) = map sortSlotDays ts.
Proof.
  rewrite map_map. apply map_ext. intros s. apply sortSlotDays_idempotent.
Qed.

Lemma weekdayOrder_fixpoint ds :
  forallb canonicalDay ds = true -> Sorted weekdayLe ds ->
  arraySort dayCompare ds = ds.
Proof.
  intros HC HS. apply arraySort_fixpoint.
  induction HS as [|x l HS IH Hd]; [constructor|].
  cbn [forallb] in HC. apply andb_true_iff in HC as [Hx Hl].
  constructor; [now apply IH|].
  destruct Hd as [|y l Hxy]; constructor.
  cbn [forallb] in Hl. apply andb_true_iff in Hl as [Hy _].
  unfold notAfter. rewrite after_dayIndex by assumption.
  apply Z.ltb_ge. exact Hxy.
Qed.

Lemma map_fixed {A : Type} (f : A -> A) l :
  map f l = l -> Forall (fun x => f x = x) l.
Proof.
  induction l as [|x l IH]; cbn [map]; intros E; constructor;
    injection E; auto.
Qed.

(** C2 as the script has it, for slots whose days are day codes of the
    table: [formatSchedule] is not free of effects.  It keeps the slots,
    their order, ids, times and overnight flags, and keeps the days of each
    slot, but it leaves each [days] array in the order of the week; so the
    call leaves the slot list as it was exactly when the days of every slot
    were in the order of the week already.  Called again it returns the
    same string and changes nothing more. *)
Theorem formatSchedule_sorts_in_place ts :
  Forall canonicalSlot ts ->
  Forall2 sameSlotButDayOrder ts (snd (formatSchedule ts)) /\
  Forall inWeekdayOrder (snd (formatSchedule ts)) /\
  (snd (formatSchedule ts) = ts <-> Forall inWeekdayOrder ts) /\
  formatSchedule (snd (formatSchedule ts))
  = (fst (formatSchedule ts), snd (formatSchedule ts)).
Proof.
  intros HC. rewrite formatSchedule_slots. split; [|split; [|split]].
  - clear HC. induction ts as [|s ts IH]; constructor;
      auto using sortSlotDays_same.
  - apply Forall_map. revert HC. apply Forall_impl. intros s Hs.
    unfold inWeekdayOrder. cbn [sortSlotDays days].
    now apply sortDays_sorted.
  - split.
    + intros E. apply map_fixed in E. rewrite Forall_forall in *.
      intros s Hs. specialize (E s Hs). apply (f_equal days) in E.
      cbn [sortSlotDays days] in E. unfold inWeekdayOrder. rewrite <- E.
      apply sortDays_sorted, HC, Hs.
    + intros HS.
      induction ts as [|s ts IH]; [reflexivity|]. cbn [map].
      inversion HC as [|? ? Hc HC']; inversion HS as [|? ? Hs HS']; subst.
      rewrite (IH HC' HS'). f_equal. destruct s as [i d a b o].
      unfold sortSlotDays. cbn [id days startTime endTime isOvernight].
      f_equal. now apply weekdayOrder_fixpoint.
  - rewrite (surjective_pairing (formatSchedule (map sortSlotDays ts))).
    now rewrite !formatSchedule_text, formatSchedule_slots,
      map_sortSlotDays_idempotent.
Qed.

Lemma formatSchedule_sorts_in_place_witness :
  let ts := [mkSlot "slot_0" (strs ["W"; "M"]) "09:00" "10:00" (Some false);
             mkSlot "slot_1" (strs ["T"; "Th"]) "13:00" "14:30" (Some false)] in
  Forall canonicalSlot ts /\
  Forall inWeekdayOrder (snd (formatSchedule ts)) /\
  ~ Forall inWeekdayOrder ts /\
  snd (formatSchedule ts) <> ts.
Proof.
  intros ts.
  assert (HC : Forall canonicalSlot ts) by (repeat constructor).
  assert (N : ~ Forall inWeekdayOrder ts).
  { intros F. inversion F as [|? ? H _]. unfold inWeekdayOrder in H.
    cbn [days] in H. inversion H as [|? ? _ Hd]. inversion Hd as [|? ? Hwm].
    vm_compute in Hwm. now apply Hwm. }
  split; [exact HC|].
  split; [exact (proj1 (proj2 (formatSchedule_sorts_in_place ts HC)))|].
  split; [exact N|].
  intros E. apply N.
  exact (proj1 (proj1 (proj2 (proj2 (formatSchedule_sorts_in_place ts HC))))
               E).
Defined.

(** The claim of C2 fails on a slot whose days were picked out of order:
    the call returns the text and leaves the [days] array rearranged. *)
Lemma formatSchedule_changes_days :
  let ts := [mkSlot "slot_0" (strs ["W"; "M"]) "09:00" "10:00" (Some false)] in
  fst (formatSchedule ts) = "MW 9:00 AM-10:00 AM" /\
  map days ts = [strs ["W"; "M"]] /\
  map days (snd (formatSchedule ts)) = [strs ["M"; "W"]] /\
  snd (formatSchedule ts) <> ts.
Proof.
  repeat split; try (vm_compute; reflexivity).
  vm_compute. discriminate.
Qed.

(** *** The add button *)

Lemma validTimeText_total t :
  validTimeText t = true -> exists n, totalMinutes t = Some n.
Proof.
  destruct t as [|h1 [|h2 [|c [|m1 [|m2 [|? ?]]]]]]; try discriminate.
  cbn [validTimeText]. intros H.
  apply andb_true_iff in H as [H Hm2]. apply andb_true_iff in H as [H Hm1].
  apply andb_true_iff in H as [H Hc]. apply andb_true_iff in H as [Hh1 Hh2].
  apply Ascii.eqb_eq in Hc. subst c.
  assert (N : forall a b, isDigit a = true -> isDigit b = true ->
                          Number [a; b] = Some (digitsValue [a; b])).
  { intros a b Ha Hb. unfold Number.
    change (trim [a; b]) with (trim (a :: [] ++ [b])).
    rewrite (trim_keeps a [] b) by (now apply digit_not_space).
    cbn [app forallb]. now rewrite Ha, Hb. }
  assert (C : forall a, isDigit a = true -> Ascii.eqb a ":" = false)
    by (intros a Ha; apply Ascii.eqb_neq; now apply digit_not_colon).
  unfold totalMinutes. cbn [split].
  rewrite ?(C h1), ?(C h2), ?(C m1), ?(C m2) by assumption.
  change (Ascii.eqb ":" ":") with true.
  cbn [map nth].
  rewrite !N by assumption. cbn [num_mul num_add]. eauto.
Qed.

Lemma warnings_updateScheduleDisplay st :
  warnings (updateScheduleDisplay st) = warnings st.
Proof.
  unfold updateScheduleDisplay. destruct (hasDisplay st); [|reflexivity].
  cbn [negb]. destruct (timeSlots st); reflexivity.
Qed.

Lemma rejected_keeps_slots st st' :
  rejected st st' ->
  timeSlots st' = timeSlots st /\ selectedDays st' = selectedDays st /\
  timeSlotCounter st' = timeSlotCounter st /\
  scheduleField st' = scheduleField st /\
  startTimeInput st' = startTimeInput st /\
  endTimeInput st' = endTimeInput st.
Proof. intros [msg ->]. repeat split. Qed.

Section AddButton.
Variable st : Builder.
Hypothesis inputs_ok : timeInputsWellFormed st.

Local Abbreviation refusal := (addRefused st).

Lemma click_refuses : refusal -> rejected st (addTimeBtn_click st).
Proof.
  unfold addRefused, rejected, addTimeBtn_click,
    flaggedOvernight, endAfterStart.
  destruct inputs_ok as [Hs He].
  destruct (trim (startTimeInput st)) as [|c1 t1] eqn:Es;
    [intros _; cbn; eauto|].
  destruct (trim (endTimeInput st)) as [|c2 t2] eqn:Ee;
    [intros _; cbn; eauto|].
  cbn [isEmpty orb].
  destruct (selectedDays st) as [|d ds] eqn:Ed; [intros _; cbn; eauto|].
  cbn [List.length Nat.eqb].
  destruct Hs as [Hs|Hs]; [discriminate|].
  destruct He as [He|He]; [discriminate|].
  destruct (validTimeText_total _ Hs) as [a ->].
  destruct (validTimeText_total _ He) as [b ->].
  cbn [num_lt num_le].
  intros [H|[H|[H|[H1 H2]]]]; try discriminate.
  rewrite H1. cbn [negb andb].
  apply Z.ltb_ge in H1, H2.
  replace (b <=? a) with true by (symmetry; apply Z.leb_le; lia).
  eauto.
Qed.

Lemma click_adds :
  ~ refusal ->
  warnings (addTimeBtn_click st) = warnings st /\
  List.length (timeSlots (addTimeBtn_click st))
  = S (List.length (timeSlots st)) /\
  timeSlotCounter (addTimeBtn_click st) = timeSlotCounter st + 1.
Proof.
  unfold addRefused, addTimeBtn_click, flaggedOvernight, endAfterStart.
  destruct inputs_ok as [Hs He].
  destruct (trim (startTimeInput st)) as [|c1 t1] eqn:Es;
    [intros H; exfalso; apply H; auto|].
  destruct (trim (endTimeInput st)) as [|c2 t2] eqn:Ee;
    [intros H; exfalso; apply H; auto|].
  cbn [isEmpty orb].
  destruct (selectedDays st) as [|d ds] eqn:Ed;
    [intros H; exfalso; apply H; auto|].
  cbn [List.length Nat.eqb].
  destruct Hs as [Hs|Hs]; [discriminate|].
  destruct He as [He|He]; [discriminate|].
  destruct (validTimeText_total _ Hs) as [a ->].
  destruct (validTimeText_total _ He) as [b ->].
  cbn [num_lt num_le]. intros H.
  assert (Hc : negb (b <? a) && (b <=? a) = false).
  { destruct (Z.ltb_spec b a); [reflexivity|]. cbn [negb andb].
    apply Z.leb_gt. destruct (Z.ltb_spec a b); [assumption|].
    exfalso. apply H. do 3 right. split; reflexivity. }
  rewrite Hc. cbn [freshId].
  split; [|split].
  - cbn [warnings set_selectedDays set_timeInputs].
    unfold addTimeSlot. now rewrite warnings_updateScheduleDisplay.
  - change (timeSlots (set_selectedDays (set_timeInputs ?x _ _) _))
      with (timeSlots x).
    now rewrite addTimeSlot_length.
  - unfold addTimeSlot, updateScheduleDisplay.
    cbn [set_timeSlots set_timeSlotCounter hasDisplay timeSlots].
    destruct (hasDisplay st); cbn [negb]; [|reflexivity].
    destruct (timeSlots st ++ _); reflexivity.
Qed.

Lemma click_rejected_iff : rejected st (addTimeBtn_click st) <-> refusal.
Proof.
  split; [|apply click_refuses].
  intros R. destruct (rejected_keeps_slots _ _ R) as [Hts _].
  assert (Dec : refusal \/ ~ refusal).
  { unfold addRefused.
    destruct (selectedDays st); [now left; left|].
    destruct (trim (startTimeInput st)); [now left; right; left|].
    destruct (trim (endTimeInput st)); [now left; right; right; left|].
    destruct (flaggedOvernight st), (endAfterStart st);
      try (left; do 3 right; split; reflexivity);
      right; intros [H|[H|[H|[H1 H2]]]]; discriminate. }
  destruct Dec as [|N]; [assumption|].
  destruct (click_adds N) as (_ & L & _). rewrite Hts in L. lia.
Qed.
End AddButton.




(** *** Conflict check *)

(** C8 (conflict checker): on an empty slot list the result is no conflict
    with an empty message and no request is sent; when the request or the
    reading of its body fails, the result is no conflict with a diagnostic
    message.  The function returns a result in every case. *)
Theorem conflict_check_fails_open :
  (forall st endpoint,
      checkScheduleConflicts [] st endpoint = (mkResult false [], st, [])) /\
  (forall arg st endpoint,
      arg <> [] ->
      requestFailed (endpoint (fst (formatSchedule (timeSlots st)))) ->
      fst (fst (checkScheduleConflicts arg st endpoint))
      = mkResult false "Error checking schedule conflicts") /\
  (forall arg st,
      arg <> [] ->
      fst (fst (checkScheduleConflicts arg st (fun _ => FetchRejected)))
      = mkResult false "Error checking schedule conflicts" /\
      fst (fst (checkScheduleConflicts arg st (fun _ => BodyNotJson)))
      = mkResult false "Error checking schedule conflicts").
Proof.
  split; [reflexivity|].
  assert (G : forall arg st endpoint,
             arg <> [] ->
             requestFailed (endpoint (fst (formatSchedule (timeSlots st)))) ->
             fst (fst (checkScheduleConflicts arg st endpoint))
             = mkResult false "Error checking schedule conflicts").
  { intros arg st endpoint Harg Hfail. unfold checkScheduleConflicts.
    destruct arg; [congruence|].
    destruct (formatSchedule (timeSlots st)) as [schedule ts].
    cbn [fst] in Hfail.
    destruct (endpoint schedule); cbn in Hfail; [reflexivity ..|contradiction]. }
  split; [exact G|].
  intros arg st Harg. split; apply G; cbn; auto.
Qed.

Lemma conflict_check_fails_open_witness :
  let slots := [mkSlot "slot_0" (strs ["M"]) "09:00" "10:00" (Some false)] in
  let st := set_timeSlots initialBuilder slots in
  slots <> [] /\
  fst (fst (checkScheduleConflicts slots st (fun _ => BodyNotJson)))
  = mkResult false "Error checking schedule conflicts".
Proof.
  intros slots st. split; [discriminate|].
  apply (proj1 (proj2 conflict_check_fails_open) slots st
           (fun _ => BodyNotJson)); [discriminate | exact I].
Defined.

(** *** Round trip *)

(** C1 (round trip), evaluated on a slot for Thursday: the slot is added
    through the page with the day code "Th", the formatter writes
    "Th 9:00 AM-10:00 AM", and parsing that string gives a slot whose day is
    "TH", so the tuples of the parsed schedule are not those of the
    schedule that was formatted. *)
Theorem round_trip_loses_two_letter_day_codes :
  slotTuples thursdayBuilder
    = [(strs ["Th"], "09:00" : str, "10:00" : str)] /\
  fst (formatSchedule (timeSlots thursdayBuilder)) = "Th 9:00 AM-10:00 AM" /\
  scheduleField thursdayBuilder = "Th 9:00 AM-10:00 AM" /\
  slotTuples (parseExistingSchedule initialBuilder "Th 9:00 AM-10:00 AM")
    = [(strs ["TH"], "09:00" : str, "10:00" : str)] /\
  slotTuples (parseExistingSchedule initialBuilder
                (fst (formatSchedule (timeSlots thursdayBuilder))))
    <> slotTuples thursdayBuilder.
Proof.
  repeat split; try (vm_compute; reflexivity).
  vm_compute. discriminate.
Qed.

(** *** Times survive formatting and parsing *)

Lemma digit_cases c : isDigit c = true -> In c ("0123456789" : str).
Proof.
  intros H. apply isDigit_code in H. unfold code in H.
  rewrite <- (ascii_N_embedding c).
  remember (N_of_ascii c) as n eqn:E. clear E.
  assert (Hn : (n = 48 \/ n = 49 \/ n = 50 \/ n = 51 \/ n = 52 \/
                n = 53 \/ n = 54 \/ n = 55 \/ n = 56 \/ n = 57)%N) by lia.
  repeat (destruct Hn as [->|Hn]); try subst n; vm_compute; tauto.
Qed.

Lemma two_digits_forall (P : ascii -> ascii -> bool) :
  forallb (fun a => forallb (P a) ("0123456789" : str)) ("0123456789" : str)
  = true ->
  forall a b, isDigit a = true -> isDigit b = true -> P a b = true.
Proof.
  intros H a b Ha Hb. rewrite forallb_forall in H.
  specialize (H a (digit_cases a Ha)). rewrite forallb_forall in H.
  exact (H b (digit_cases b Hb)).
Qed.

Lemma hourRoundTrips_all a b :
  isDigit a = true -> isDigit b = true -> hourRoundTrips a b = true.
Proof. apply two_digits_forall. vm_compute. reflexivity. Qed.

Lemma digit_colon_eqb c : isDigit c = true -> Ascii.eqb c ":" = false.
Proof. intros H. apply Ascii.eqb_neq. now apply digit_not_colon. Qed.

Lemma split_clock a b m1 m2 :
  isDigit a = true -> isDigit b = true ->
  isDigit m1 = true -> isDigit m2 = true ->
  split ":" [a; b; ":"%char; m1; m2] = [[a; b]; [m1; m2]].
Proof.
  intros Ha Hb H1 H2. cbn [split].
  rewrite (digit_colon_eqb a Ha), (digit_colon_eqb b Hb),
    (digit_colon_eqb m1 H1), (digit_colon_eqb m2 H2).
  reflexivity.
Qed.

Lemma formatTimeForSchedule_clock a b m1 m2 h :
  isDigit a = true -> isDigit b = true ->
  isDigit m1 = true -> isDigit m2 = true ->
  parseInt [a; b] = Some h ->
  formatTimeForSchedule [a; b; ":"%char; m1; m2]
  = timeText (intToString (hour12 h)) m1 m2 ++ " " ++ suffixOf (12 <=? h).
Proof.
  intros Ha Hb H1 H2 Hp. unfold formatTimeForSchedule.
  rewrite split_clock by assumption. cbn [nth nth_error]. rewrite Hp.
  unfold num_ge, num_le, num_rem, num_eq, hour12, timeText, suffixOf.
  change (12 =? 0) with false. cbv iota.
  rewrite <- !app_assoc.
  destruct (Z.rem h 12 =? 0), (12 <=? h); reflexivity.
Qed.

(** Formatting a wall-clock time and parsing the result gives the time
    back. *)
Lemma clock_round_trip t :
  validClock t = true -> parse12HourTime (formatTimeForSchedule t) = t.
Proof.
  unfold validClock. intros H. apply andb_true_iff in H as [V H23].
  destruct t as [|a [|b [|c [|m1 [|m2 [|? ?]]]]]]; try discriminate.
  cbn [validTimeText] in V.
  apply andb_true_iff in V as [V Hm2]. apply andb_true_iff in V as [V Hm1].
  apply andb_true_iff in V as [V Hc]. apply andb_true_iff in V as [Ha Hb].
  apply Ascii.eqb_eq in Hc. subst c. cbn [firstn] in H23.
  pose proof (hourRoundTrips_all a b Ha Hb) as R. unfold hourRoundTrips in R.
  cbv zeta in R. rewrite H23 in R.
  apply andb_true_iff in R as [R R3]. apply andb_true_iff in R as [R1 R2].
  destruct (parseInt [a; b]) as [h|] eqn:Hp; [|discriminate].
  cbn [num_eq] in R1. apply Z.eqb_eq in R1. subst h.
  rewrite (formatTimeForSchedule_clock a b m1 m2 _ Ha Hb Hm1 Hm2 Hp).
  rewrite parse12HourTime_token by assumption.
  apply str_eqb_eq in R3. rewrite R3. reflexivity.
Qed.

(** *** The day letters of a formatted entry *)

Lemma join_empty_cons x r : join "" (x :: r) = x ++ join "" r.
Proof. destruct r; cbn [join app]; [now rewrite app_nil_r | reflexivity]. Qed.

Lemma toUpperCase_app a b :
  toUpperCase (a ++ b) = toUpperCase a ++ toUpperCase b.
Proof. apply map_app. Qed.

Lemma dayLetter_cases c : isDayLetter c = true -> In c ("MTWFS" : str).
Proof.
  unfold isDayLetter. intros H. apply existsb_exists in H as (x & Hx & E).
  apply Ascii.eqb_eq in E. now subst.
Qed.

Lemma scanDays_code d r :
  canonicalDay d = true -> startsWithDayLetter r = true ->
  scanDays (toUpperCase d ++ r) = toUpperCase d :: scanDays r /\
  startsWithDayLetter (toUpperCase d ++ r) = true.
Proof.
  intros Hd Hr.
  assert (Hc : r = [] \/ exists c r', r = c :: r' /\ In c ("MTWFS" : str)).
  { destruct r as [|c r']; [now left|]. right. exists c, r'.
    split; [reflexivity|]. now apply dayLetter_cases. }
  day_cases Hd;
    (destruct Hc as [->|(c & r' & -> & Hc)];
     [split; reflexivity
     |cbn in Hc; repeat (destruct Hc as [<-|Hc]); try contradiction;
      split; reflexivity]).
Qed.

Lemma scanDays_codes ds :
  forallb canonicalDay ds = true ->
  scanDays (toUpperCase (join "" ds)) = map toUpperCase ds /\
  startsWithDayLetter (toUpperCase (join "" ds)) = true.
Proof.
  induction ds as [|d ds IH]; [intros _; split; reflexivity|].
  cbn [forallb]. intros H. apply andb_true_iff in H as [Hd Hds].
  destruct (IH Hds) as [IH1 IH2].
  rewrite join_empty_cons, toUpperCase_app.
  destruct (scanDays_code d _ Hd IH2) as [E1 E2].
  split; [|exact E2]. rewrite E1, IH1. reflexivity.
Qed.

Lemma canonicalDay_alpha d :
  canonicalDay d = true -> forallb isAlpha d = true /\ d <> [].
Proof. intros Hd. day_cases Hd; split; (reflexivity || discriminate). Qed.

Lemma dayLetters_alpha ds :
  forallb canonicalDay ds = true -> forallb isAlpha (join "" ds) = true.
Proof.
  induction ds as [|d ds IH]; [reflexivity|].
  cbn [forallb]. intros H. apply andb_true_iff in H as [Hd Hds].
  rewrite join_empty_cons, forallb_app, (IH Hds).
  now rewrite (proj1 (canonicalDay_alpha d Hd)).
Qed.

Lemma dayLetters_nonempty ds :
  ds <> [] -> forallb canonicalDay ds = true -> join "" ds <> [].
Proof.
  destruct ds as [|d ds]; [congruence|]. intros _ H. cbn [forallb] in H.
  apply andb_true_iff in H as [Hd _]. rewrite join_empty_cons.
  destruct (canonicalDay_alpha d Hd) as [_ Hne].
  destruct d; [congruence|discriminate].
Qed.

(** *** A formatted slot read back *)

Lemma validClock_inv t :
  validClock t = true ->
  exists a b m1 m2,
    t = [a; b; ":"%char; m1; m2] /\ isDigit a = true /\ isDigit b = true /\
    isDigit m1 = true /\ isDigit m2 = true /\ digitsValue [a; b] <= 23.
Proof.
  unfold validClock. intros H. apply andb_true_iff in H as [V H23].
  destruct t as [|a [|b [|c [|m1 [|m2 [|? ?]]]]]]; try discriminate.
  cbn [validTimeText] in V.
  apply andb_true_iff in V as [V Hm2]. apply andb_true_iff in V as [V Hm1].
  apply andb_true_iff in V as [V Hc]. apply andb_true_iff in V as [Ha Hb].
  apply Ascii.eqb_eq in Hc. subst c. cbn [firstn] in H23.
  apply Z.leb_le in H23. exists a, b, m1, m2. repeat split; assumption.
Qed.

(** The formatter writes a wall-clock time as an hour token, the minutes,
    a space and AM or PM. *)
Lemma formatted_clock_shape t :
  validClock t = true ->
  exists hs m1 m2 p,
    formatTimeForSchedule t = timeText hs m1 m2 ++ " " ++ suffixOf p /\
    isHourToken hs = true /\ isDigit m1 = true /\ isDigit m2 = true.
Proof.
  intros H.
  destruct (validClock_inv t H) as (a & b & m1 & m2 & -> & Ha & Hb & H1 & H2 & H23).
  pose proof (hourRoundTrips_all a b Ha Hb) as R. unfold hourRoundTrips in R.
  cbv zeta in R. rewrite (proj2 (Z.leb_le _ _) H23) in R.
  apply andb_true_iff in R as [R _]. apply andb_true_iff in R as [R1 R2].
  destruct (parseInt [a; b]) as [h|] eqn:Hp; [|discriminate].
  cbn [num_eq] in R1. apply Z.eqb_eq in R1. subst h.
  exists (intToString (hour12 (digitsValue [a; b]))), m1, m2,
    (12 <=? digitsValue [a; b]).
  split; [now apply formatTimeForSchedule_clock|]. auto.
Qed.

Lemma isEmpty_suffixOf p : isEmpty (suffixOf p) = false.
Proof. destruct p; reflexivity. Qed.

Lemma timeWithAmpm_formatted hs m1 m2 p :
  isHourToken hs = true ->
  timeWithAmpm (timeText hs m1 m2) (suffixOf p)
  = timeText hs m1 m2 ++ " " ++ suffixOf p.
Proof.
  intros H. unfold timeWithAmpm. rewrite isEmpty_suffixOf.
  now apply trim_time_text.
Qed.

Lemma validClock_nonempty t : validClock t = true -> isEmpty t = false.
Proof.
  intros H. destruct (validClock_inv t H) as (a & b & m1 & m2 & -> & _).
  reflexivity.
Qed.

(** The text of a slot, read as an entry, gives the days in upper case and
    the two times of the slot. *)
Lemma entrySlot_slotText ds t1 t2 :
  ds <> [] -> forallb canonicalDay ds = true ->
  validClock t1 = true -> validClock t2 = true ->
  entrySlot (join "" ds ++ " " ++ formatTimeForSchedule t1 ++ "-"
               ++ formatTimeForSchedule t2)
  = Some (map toUpperCase ds, t1, t2).
Proof.
  intros Hne Hc H1 H2.
  pose proof (clock_round_trip t1 H1) as R1.
  pose proof (clock_round_trip t2 H2) as R2.
  destruct (formatted_clock_shape t1 H1) as (hs & a1 & a2 & p1 & E1 & Hs & Ha1 & Ha2).
  destruct (formatted_clock_shape t2 H2) as (he & b1 & b2 & p2 & E2 & He & Hb1 & Hb2).
  rewrite E1, E2 in *. rewrite <- !app_assoc.
  fold (formattedEntry (join "" ds) hs a1 a2 p1 he b1 b2 p2).
  unfold entrySlot.
  rewrite reEntry_formatted;
    try assumption; [|now apply dayLetters_nonempty|now apply dayLetters_alpha].
  unfold startTimeStr, endTimeStr.
  cbn [dayPart startTimePart startAmpmPart endTimePart endAmpmPart].
  rewrite isEmpty_suffixOf, !toUpperCase_suffixOf.
  rewrite !timeWithAmpm_formatted by assumption.
  rewrite R1, R2, (validClock_nonempty t1 H1), (validClock_nonempty t2 H2).
  cbn [negb andb].
  now rewrite (proj1 (scanDays_codes ds Hc)).
Qed.

(** *** The entries of a formatted schedule *)

Lemma scheduleEntries_join_padded texts :
  Forall entryShaped texts ->
  texts <> [] ->
  forall pad, forallb isSpace pad = true ->
              scheduleEntries (pad ++ join ", " texts) = texts.
Proof.
  induction 1 as [|x texts Hx Hs IH]; [congruence|]. intros _ pad Hpad.
  destruct Hx as (Hc & c & r & d & Ex & Hc1 & Hd1).
  assert (Hone : forall pad', forallb isSpace pad' = true ->
                              scheduleEntries (pad' ++ x) = [x]).
  { intros pad' Hp. apply scheduleEntries_single.
    - rewrite noComma_app, Hc, (noComma_of isSpace pad' space_not_comma Hp).
      reflexivity.
    - rewrite <- (app_nil_r x) at 1. rewrite Ex. now apply trim_padded.
    - rewrite Ex. discriminate. }
  destruct texts as [|y texts]; [cbn [join]; now apply Hone|].
  change (join ", " (x :: y :: texts))
    with (x ++ "," ++ " " ++ join ", " (y :: texts)).
  rewrite app_assoc, scheduleEntries_app, (Hone pad Hpad).
  rewrite (IH ltac:(discriminate) " " eq_refl). reflexivity.
Qed.

Lemma scheduleEntries_join texts :
  Forall entryShaped texts -> scheduleEntries (join ", " texts) = texts.
Proof.
  intros H. destruct texts as [|x texts]; [reflexivity|].
  apply (scheduleEntries_join_padded (x :: texts) H ltac:(discriminate) []).
  reflexivity.
Qed.

Lemma noComma_clock t :
  validClock t = true -> noComma (formatTimeForSchedule t) = true.
Proof.
  intros H.
  destruct (formatted_clock_shape t H) as (hs & m1 & m2 & p & -> & Hs & H1 & H2).
  now rewrite noComma_app, noComma_timeText, noComma_suffixOf.
Qed.

Lemma slotText_shaped s :
  validSlot s -> entryShaped (slotText (sortSlotDays s)).
Proof.
  intros (Hne & Hc & H1 & H2). unfold slotText, sortSlotDays.
  cbn [days startTime endTime].
  set (ds := arraySort dayCompare (days s)).
  assert (Hds : forallb canonicalDay ds = true).
  { apply forallb_forall. intros d Hd. rewrite forallb_forall in Hc.
    apply Hc. eapply Permutation_in; [apply arraySort_perm|exact Hd]. }
  assert (Hdne : ds <> []).
  { intros E. apply Hne. apply Permutation_nil.
    rewrite <- E. apply arraySort_perm. }
  split.
  - rewrite !noComma_app, !noComma_clock by assumption.
    rewrite (noComma_of isAlpha _ alpha_not_comma (dayLetters_alpha ds Hds)).
    reflexivity.
  - pose proof (dayLetters_alpha ds Hds) as Ha.
    pose proof (dayLetters_nonempty ds Hdne Hds) as Hn.
    destruct (join "" ds) as [|l0 lt]; [congruence|].
    cbn [forallb] in Ha. apply andb_true_iff in Ha as [Hl0 _].
    destruct (formatted_clock_shape _ H2) as (he & b1 & b2 & p2 & -> & _).
    destruct (suffixOf_last p2
                (lt ++ " " ++ formatTimeForSchedule (startTime s) ++ "-"
                    ++ timeText he b1 b2)) as [r' E].
    rewrite <- !app_assoc in E.
    exists l0, r', "M"%char. split.
    + rewrite <- E. reflexivity.
    + split; [now apply alpha_not_space | reflexivity].
Qed.

(** Round trip up to the case of the day codes: the entries of the string
    [formatSchedule] writes for slots made by the add button are accepted
    one for one, each with the times of its slot and with the days of its
    slot in weekday order, written in upper case. *)
Lemma formatted_entries_accepted ts :
  Forall validSlot ts ->
  map entrySlot (scheduleEntries (fst (formatSchedule ts)))
  = map (fun s => Some (map toUpperCase (arraySort dayCompare (days s)),
                        startTime s, endTime s)) ts.
Proof.
  intros H. rewrite formatSchedule_text.
  rewrite scheduleEntries_join.
  - rewrite !map_map. apply map_ext_in. intros s Hs.
    rewrite Forall_forall in H. destruct (H s Hs) as (Hne & Hc & H1 & H2).
    unfold slotText, sortSlotDays. cbn [days startTime endTime].
    apply entrySlot_slotText; try assumption.
    + intros E. apply Hne. apply Permutation_nil.
      rewrite <- E. apply arraySort_perm.
    + apply forallb_forall. intros d Hd. rewrite forallb_forall in Hc.
      apply Hc. eapply Permutation_in; [apply arraySort_perm|exact Hd].
  - apply Forall_forall. intros x Hx. apply in_map_iff in Hx as (s' & <- & Hs').
    apply in_map_iff in Hs' as (s & <- & Hs).
    apply slotText_shaped. rewrite Forall_forall in H. now apply H.
Qed.

(** *** The slots a parse leaves *)

Lemma sortTuple_idempotent t : sortTuple (sortTuple t) = sortTuple t.
Proof.
  destruct t as [[d a] b]. cbn [sortTuple].
  now rewrite (arraySort_idempotent dayCompare dayCompare_asym).
Qed.

Lemma slotTuples_sorted ts :
  map (fun s => (days s, startTime s, endTime s)) (map sortSlotDays ts)
  = map sortTuple (map (fun s => (days s, startTime s, endTime s)) ts).
Proof. rewrite !map_map. reflexivity. Qed.

Lemma timeSlots_updateScheduleDisplay st :
  timeSlots (updateScheduleDisplay st)
  = if hasDisplay st then map sortSlotDays (timeSlots st) else timeSlots st.
Proof.
  unfold updateScheduleDisplay. destruct (hasDisplay st); [|reflexivity].
  cbn [negb]. destruct (timeSlots st) eqn:E; cbn; [now rewrite E|reflexivity].
Qed.

Lemma slotTuples_addTimeSlot st slot :
  slotTuples (addTimeSlot st slot)
  = displayed st (slotTuples st ++ [(days slot, startTime slot, endTime slot)]).
Proof.
  unfold addTimeSlot, displayed, slotTuples.
  rewrite timeSlots_updateScheduleDisplay.
  cbn [hasDisplay timeSlots set_timeSlots].
  destruct (hasDisplay st); [|now rewrite map_app].
  now rewrite slotTuples_sorted, map_app.
Qed.

Lemma hasDisplay_parseSlotEntry st e :
  hasDisplay (parseSlotEntry st e) = hasDisplay st.
Proof.
  unfold parseSlotEntry. destruct (entrySlot e) as [[[d a] b]|]; [|reflexivity].
  cbn [freshId]. unfold addTimeSlot, updateScheduleDisplay.
  cbn [hasDisplay set_timeSlots set_timeSlotCounter timeSlots].
  destruct (hasDisplay st) eqn:E; cbn [negb].
  - destruct (timeSlots st ++ _); cbn; assumption.
  - cbn. assumption.
Qed.

Lemma displayed_app_displayed st l1 l2 :
  displayed st (displayed st l1 ++ l2) = displayed st (l1 ++ l2).
Proof.
  unfold displayed. destruct (hasDisplay st); [|reflexivity].
  rewrite !map_app, map_map. f_equal. apply map_ext.
  apply sortTuple_idempotent.
Qed.

Lemma slotTuples_parseSlotEntry st e :
  slotTuples (parseSlotEntry st e)
  = match entrySlot e with
    | Some t => displayed st (slotTuples st ++ [t])
    | None => slotTuples st
    end.
Proof.
  unfold parseSlotEntry. destruct (entrySlot e) as [[[d a] b]|]; [|reflexivity].
  cbn [freshId]. rewrite slotTuples_addTimeSlot. reflexivity.
Qed.

Lemma displayed_parseSlotEntry st e l :
  displayed (parseSlotEntry st e) l = displayed st l.
Proof. unfold displayed. now rewrite hasDisplay_parseSlotEntry. Qed.

(** The tuples after a run of entries: the ones there before followed by
    those of the accepted entries, as the display update leaves them. *)
Lemma slotTuples_fold es :
  forall st,
    slotTuples (fold_left parseSlotEntry es st)
    = match acceptedTuples es with
      | [] => slotTuples st
      | new => displayed st (slotTuples st ++ new)
      end.
Proof.
  induction es as [|e es IH]; intros st; [reflexivity|].
  cbn [fold_left]. rewrite IH.
  unfold acceptedTuples. cbn [flat_map]. fold (acceptedTuples es).
  destruct (acceptedTuples es) as [|t' new];
    rewrite ?displayed_parseSlotEntry, slotTuples_parseSlotEntry;
    destruct (entrySlot e) as [t|]; cbn [app]; try reflexivity.
  rewrite displayed_app_displayed, <- app_assoc. reflexivity.
Qed.

Lemma acceptedTuples_of_map es l :
  map entrySlot es = map Some l -> acceptedTuples es = l.
Proof.
  revert l; induction es as [|e es IH]; intros [|t l] H; try discriminate.
  - reflexivity.
  - cbn [map] in H. injection H as He Hes.
    unfold acceptedTuples. cbn [flat_map]. rewrite He.
    fold (acceptedTuples es). now rewrite (IH l Hes).
Qed.

Lemma singleLetter_upper d :
  existsb (str_eqb d) (strs ["M"; "T"; "W"; "F"; "S"]) = true ->
  toUpperCase d = d.
Proof.
  intros H. apply existsb_exists in H as (x & Hx & E).
  apply str_eqb_eq in E. subst x. cbn in Hx.
  repeat (destruct Hx as [<-|Hx]); try contradiction; reflexivity.
Qed.

(** Round trip for slots with one-letter day codes: parsing what
    [formatSchedule] writes for them leaves slots with the days in weekday
    order and the times of the slots formatted. *)
Lemma one_letter_round_trip st ts :
  ts <> [] -> Forall validSlot ts -> Forall singleLetterSlot ts ->
  slotTuples (parseExistingSchedule st (fst (formatSchedule ts)))
  = map (fun s => (arraySort dayCompare (days s), startTime s, endTime s)) ts.
Proof.
  intros Hne Hv Hs.
  pose proof (formatted_entries_accepted ts Hv) as R.
  rewrite <- (map_map _ Some) in R. apply acceptedTuples_of_map in R.
  assert (Htext : fst (formatSchedule ts) <> []).
  { intros E. rewrite E in R. destruct ts; [congruence|discriminate]. }
  assert (Hup : map (fun s => (map toUpperCase (arraySort dayCompare (days s)),
                               startTime s, endTime s)) ts
                = map (fun s => (arraySort dayCompare (days s),
                                 startTime s, endTime s)) ts).
  { apply map_ext_in. intros s Hin. rewrite Forall_forall in Hs.
    f_equal. f_equal.
    rewrite <- (map_id (arraySort dayCompare (days s))) at 2.
    apply map_ext_in. intros d Hd. apply singleLetter_upper.
    specialize (Hs s Hin). unfold singleLetterSlot in Hs.
    rewrite forallb_forall in Hs. apply Hs.
    eapply Permutation_in; [apply arraySort_perm|exact Hd]. }
  rewrite parseExistingSchedule_nonempty by assumption.
  rewrite slotTuples_fold, R, Hup.
  assert (G : forall X : list (list str * str * str),
             displayed (set_timeSlots st [])
               (slotTuples (set_timeSlots st []) ++ X) = displayed st X)
    by reflexivity.
  destruct ts as [|s0 ts0]; [congruence|]. cbn [map]. rewrite G.
  change (?x :: map ?f ts0) with (map f (s0 :: ts0)).
  unfold displayed. destruct (hasDisplay st); [|reflexivity].
  rewrite map_map. apply map_ext. intros s. cbn [sortTuple].
  now rewrite (arraySort_idempotent dayCompare dayCompare_asym).
Qed.

(** The two round-trip statements on a schedule of two slots, the second
    with Thursday. *)
Example round_trip_two_slots :
  let ts := [mkSlot "slot_0" (strs ["W"; "M"; "F"]) "10:00" "12:00" (Some false);
             mkSlot "slot_1" (strs ["Th"; "T"]) "13:00" "14:30" (Some false)] in
  fst (formatSchedule ts) = "MWF 10:00 AM-12:00 PM, TTh 1:00 PM-2:30 PM" /\
  map entrySlot (scheduleEntries (fst (formatSchedule ts)))
  = [Some (strs ["M"; "W"; "F"], "10:00" : str, "12:00" : str);
     Some (strs ["T"; "TH"], "13:00" : str, "14:30" : str)].
Proof.
  intros ts. split; [vm_compute; reflexivity|].
  rewrite (formatted_entries_accepted ts).
  - vm_compute. reflexivity.
  - repeat constructor; discriminate.
Qed.

Example round_trip_one_letter_slots :
  let ts := [mkSlot "slot_0" (strs ["W"; "M"; "F"]) "10:00" "12:00" (Some false);
             mkSlot "slot_1" (strs ["S"; "T"]) "23:30" "00:15" (Some true)] in
  slotTuples (parseExistingSchedule initialBuilder (fst (formatSchedule ts)))
  = [(strs ["M"; "W"; "F"], "10:00" : str, "12:00" : str);
     (strs ["T"; "S"], "23:30" : str, "00:15" : str)].
Proof.
  intros ts. rewrite (one_letter_round_trip initialBuilder ts).
  - vm_compute. reflexivity.
  - discriminate.
  - repeat constructor; discriminate.
  - repeat constructor.
Qed.

(** ** Further properties of the script *)

(** X1. Formatting a wall-clock time "HH:MM" with the hour from 00 to 23 and
    parsing the result gives the time back. *)
Theorem time_round_trip t :
  validClock t = true -> parse12HourTime (formatTimeForSchedule t) = t.
Proof. exact (clock_round_trip t). Qed.

Lemma time_round_trip_witness :
  validClock "00:05" = true /\
  parse12HourTime (formatTimeForSchedule "00:05") = "00:05".
Proof.
  split; [reflexivity|]. apply (time_round_trip "00:05"). reflexivity.
Defined.

(** X7. Round trip up to the case of the day codes: the entries of the string
    [formatSchedule] writes for slots with at least one day, days from the
    table and wall-clock times are accepted one for one, each with the
    times of its slot and with the days of its slot in weekday order,
    written in upper case. *)
Theorem round_trip_up_to_case ts :
  Forall validSlot ts ->
  map entrySlot (scheduleEntries (fst (formatSchedule ts)))
  = map (fun s => Some (map toUpperCase (arraySort dayCompare (days s)),
                        startTime s, endTime s)) ts.
Proof. exact (formatted_entries_accepted ts). Qed.

Lemma round_trip_up_to_case_witness :
  let ts := [mkSlot "slot_0" (strs ["Su"; "T"]) "08:30" "09:45" (Some false)] in
  Forall validSlot ts /\
  map entrySlot (scheduleEntries (fst (formatSchedule ts)))
  = map (fun s => Some (map toUpperCase (arraySort dayCompare (days s)),
                        startTime s, endTime s)) ts.
Proof.
  intros ts.
  assert (H : Forall validSlot ts) by (repeat constructor; discriminate).
  split; [exact H|]. exact (round_trip_up_to_case ts H).
Defined.

(** X8. Round trip for slots with one-letter day codes: parsing what
    [formatSchedule] writes for them leaves slots with the days in weekday
    order and the times of the slots formatted. *)
Theorem round_trip_single_letter_days st ts :
  ts <> [] -> Forall validSlot ts -> Forall singleLetterSlot ts ->
  slotTuples (parseExistingSchedule st (fst (formatSchedule ts)))
  = map (fun s => (arraySort dayCompare (days s), startTime s, endTime s)) ts.
Proof. exact (one_letter_round_trip st ts). Qed.

Lemma round_trip_single_letter_days_witness :
  let ts := [mkSlot "slot_0" (strs ["F"; "M"]) "08:30" "09:45" (Some false)] in
  ts <> [] /\ Forall validSlot ts /\ Forall singleLetterSlot ts /\
  slotTuples (parseExistingSchedule initialBuilder (fst (formatSchedule ts)))
  = map (fun s => (arraySort dayCompare (days s), startTime s, endTime s)) ts.
Proof.
  intros ts.
  assert (H0 : ts <> []) by discriminate.
  assert (H1 : Forall validSlot ts) by (repeat constructor; discriminate).
  assert (H2 : Forall singleLetterSlot ts) by (repeat constructor).
  split; [exact H0|]. split; [exact H1|]. split; [exact H2|].
  exact (round_trip_single_letter_days initialBuilder ts H0 H1 H2).
Defined.

(** *** What the time parser returns *)

Lemma reAmPm_inv s ap r :
  reAmPm s = Some (ap, r) ->
  s = ap ++ r /\ (toUpperCase ap = "AM" \/ toUpperCase ap = "PM").
Proof.
  unfold reAmPm. destruct s as [|a [|m s]]; try discriminate.
  destruct ((ciEq a "A" || ciEq a "P") && ciEq m "M") eqn:E; [|discriminate].
  intros [= <- <-]. split; [reflexivity|].
  apply andb_true_iff in E as [E1 E2]. unfold ciEq in *.
  apply Ascii.eqb_eq in E2. apply orb_true_iff in E1 as [E1|E1];
    apply Ascii.eqb_eq in E1; cbn [toUpperCase map]; rewrite E1, E2; auto.
Qed.

Lemma hourMinWith_inv n s h m r :
  hourMinWith n s = Some (h, m, r) ->
  List.length h = n /\ forallb isDigit h = true /\
  exists m1 m2, m = [m1; m2] /\ isDigit m1 = true /\ isDigit m2 = true /\
                s = h ++ ":" ++ m ++ r.
Proof.
  unfold hourMinWith. destruct (skipn n s) as [|c [|m1 [|m2 r']]] eqn:E;
    try discriminate.
  destruct ((List.length (firstn n s) =? n)%nat && forallb isDigit (firstn n s)
            && Ascii.eqb c ":" && isDigit m1 && isDigit m2) eqn:T;
    [|discriminate].
  intros [= <- <- <-].
  apply andb_true_iff in T as [T H2]. apply andb_true_iff in T as [T H1].
  apply andb_true_iff in T as [T Hc]. apply andb_true_iff in T as [Hl Hd].
  apply Nat.eqb_eq in Hl. apply Ascii.eqb_eq in Hc. subst c.
  repeat split; try assumption. exists m1, m2. repeat split; try assumption.
  rewrite <- (firstn_skipn n s) at 1. rewrite E. reflexivity.
Qed.

Lemma reHourMin_inv s h m r :
  reHourMin s = Some (h, m, r) ->
  isHourToken h = true /\
  exists m1 m2, m = [m1; m2] /\ isDigit m1 = true /\ isDigit m2 = true /\
                s = h ++ ":" ++ m ++ r.
Proof.
  unfold reHourMin, isHourToken.
  destruct (hourMinWith 2 s) as [[[h2 m2'] r2]|] eqn:E2.
  - intros [= <- <- <-]. apply hourMinWith_inv in E2 as (L & D & R).
    split; [|exact R]. now rewrite L, D.
  - intros E1. apply hourMinWith_inv in E1 as (L & D & R).
    split; [|exact R]. now rewrite L, D.
Qed.

Lemma re12Hour_inv s h m ap :
  re12Hour s = Some (h, m, ap) ->
  isHourToken h = true /\
  (exists m1 m2, m = [m1; m2] /\ isDigit m1 = true /\ isDigit m2 = true) /\
  (toUpperCase ap = "AM" \/ toUpperCase ap = "PM").
Proof.
  unfold re12Hour. destruct (reHourMin s) as [[[h' m'] r]|] eqn:E;
    [|discriminate].
  destruct (reAmPm (dropWhile isSpace r)) as [[ap' [|? ?]]|] eqn:A;
    try discriminate.
  intros [= <- <- <-].
  apply reHourMin_inv in E as (Hh & m1 & m2 & -> & H1 & H2 & _).
  apply reAmPm_inv in A as [_ A]. repeat split; eauto.
Qed.

Lemma parseInt_hourToken h :
  isHourToken h = true -> exists n, parseInt h = Some n /\ 0 <= n <= 99.
Proof.
  intros H.
  destruct (isHourToken_cases h H) as [(a & -> & Ha)|(a & b & -> & Ha & Hb)].
  - assert (T : hourTokenOk1 a = true).
    { pose proof (digit_cases a Ha) as C. cbn in C.
      repeat (destruct C as [<-|C]); try contradiction; reflexivity. }
    unfold hourTokenOk1 in T. destruct (parseInt [a]) as [n|]; [|discriminate].
    exists n. split; [reflexivity|]. lia.
  - assert (T : hourTokenOk2 a b = true)
      by (apply two_digits_forall; [vm_compute; reflexivity | assumption ..]).
    unfold hourTokenOk2 in T.
    destruct (parseInt [a; b]) as [n|]; [|discriminate].
    exists n. split; [reflexivity|]. lia.
Qed.

Lemma paddedTwoDigits_range n : 0 <= n <= 99 -> paddedTwoDigits n = true.
Proof.
  intros H. apply (Z_range_forallb paddedTwoDigits 0 100); [|lia].
  vm_compute. reflexivity.
Qed.

Lemma to24Hour_range ampm n :
  0 <= n <= 99 -> exists n', to24Hour ampm (Some n) = Some n' /\ 0 <= n' <= 99.
Proof.
  intros H. unfold to24Hour. cbn [num_lt num_eq num_add].
  destruct (str_eqb ampm "PM" && (n <? 12)) eqn:E1.
  - apply andb_true_iff in E1 as [_ E1]. apply Z.ltb_lt in E1.
    eexists. split; [reflexivity|]. lia.
  - destruct (str_eqb ampm "AM" && (n =? 12)); eexists;
      (split; [reflexivity|]); lia.
Qed.

(** What the time parser returns is the empty string, exactly when the
    trimmed text does not match the expression, or a well-formed "HH:MM"
    text. *)
Lemma parse12HourTime_result s :
  (parse12HourTime s = [] <-> re12Hour (trim s) = None) /\
  (parse12HourTime s = [] \/ validTimeText (parse12HourTime s) = true).
Proof.
  unfold parse12HourTime.
  destruct (re12Hour (trim s)) as [[[h m] ap]|] eqn:E;
    [|split; [tauto | now left]].
  apply re12Hour_inv in E as (Hh & (m1 & m2 & -> & H1 & H2) & _).
  destruct (parseInt_hourToken h Hh) as (n & -> & Hn).
  destruct (to24Hour_range (toUpperCase ap) n Hn) as (n' & -> & Hn').
  pose proof (paddedTwoDigits_range n' Hn') as P. unfold paddedTwoDigits in P.
  cbn [numToString].
  destruct (padStart0 2 (intToString n')) as [|a [|b [|? ?]]];
    try discriminate.
  apply andb_true_iff in P as [Ha Hb].
  split.
  - split; discriminate.
  - right. cbn [app validTimeText list_ascii_of_string].
    rewrite Ha, Hb, H1, H2. reflexivity.
Qed.

(** X3. What the time parser returns is the empty string, exactly when the
    trimmed text does not match the expression, or a well-formed "HH:MM"
    text. *)
Theorem parse12HourTime_output_well_formed s :
  (parse12HourTime s = [] <-> re12Hour (trim s) = None) /\
  (parse12HourTime s = [] \/ validTimeText (parse12HourTime s) = true).
Proof. exact (parse12HourTime_result s). Qed.

(** *** From the 12-hour text to the 24-hour text and back *)

Lemma canonical12Ok_range h pm : 1 <= h <= 12 -> canonical12Ok h pm = true.
Proof.
  intros H.
  apply (Z_range_forallb (fun h => canonical12Ok h pm) 1 12); [|lia].
  destruct pm; vm_compute; reflexivity.
Qed.

(** X2. Parsing a 12-hour text as the formatter writes it (the hour from 1 to
    12 without leading zero, one space, AM or PM) and formatting the result
    gives the text back. *)
Theorem format_after_parse_round_trip h m1 m2 pm :
  1 <= h <= 12 -> isDigit m1 = true -> isDigit m2 = true ->
  formatTimeForSchedule
    (parse12HourTime (timeText (intToString h) m1 m2 ++ " " ++ suffixOf pm))
  = timeText (intToString h) m1 m2 ++ " " ++ suffixOf pm.
Proof.
  intros Hh H1 H2.
  pose proof (canonical12Ok_range h pm Hh) as C. unfold canonical12Ok in C.
  apply andb_true_iff in C as [Tok C].
  rewrite parse12HourTime_token by assumption.
  destruct (padStart0 2 _) as [|a [|b [|? ?]]]; try discriminate.
  apply andb_true_iff in C as [C C3]. apply andb_true_iff in C as [Ha Hb].
  destruct (parseInt [a; b]) as [h24|] eqn:P; [|discriminate].
  apply andb_true_iff in C3 as [E1 E2].
  apply Z.eqb_eq in E1. apply Bool.eqb_prop in E2.
  change ([a; b] ++ ":" ++ [m1; m2]) with [a; b; ":"%char; m1; m2].
  rewrite (formatTimeForSchedule_clock a b m1 m2 h24) by assumption.
  now rewrite E1, E2.
Qed.

Lemma format_after_parse_round_trip_witness :
  1 <= 12 <= 12 /\ isDigit "4" = true /\ isDigit "5" = true /\
  formatTimeForSchedule (parse12HourTime "12:45 AM") = "12:45 AM".
Proof.
  split; [lia|]. split; [reflexivity|]. split; [reflexivity|].
  apply (format_after_parse_round_trip 12 "4" "5" false);
    [lia | reflexivity | reflexivity].
Defined.

(** *** What the day scan returns *)

Lemma scanDays_run s : Decomposes s (scanDays s).
Proof. now apply (Decomposes_scan_bounded (List.length s)). Qed.

Lemma twoLetterCode_cases c c' :
  isTwoLetterCode c c' = true ->
  ([c; c'] = ("TH" : str) \/ [c; c'] = ("SU" : str)) /\ isDayLetter c = true.
Proof.
  unfold isTwoLetterCode. intros H. apply orb_true_iff in H as [H|H];
    apply str_eqb_eq in H; injection H as -> ->; split; auto.
Qed.

(** The day scan gives only the codes M, T, W, F, S, TH and SU, at most one
    per character, and gives none exactly when the text has no day
    letter. *)
Lemma scanDays_facts s :
  Forall (fun d => In d scannedCodes) (scanDays s) /\
  (List.length (scanDays s) <= List.length s)%nat /\
  (scanDays s = [] <-> forallb (fun c => negb (isDayLetter c)) s = true).
Proof.
  pose proof (scanDays_run s) as H.
  induction H as [|c c' r ds H2 _ IH|c r ds H1 HL _ IH|c r ds H1 HL _ IH].
  - repeat split; auto.
  - destruct IH as (IH1 & IH2 & IH3).
    destruct (twoLetterCode_cases c c' H2) as [[E|E] L]; rewrite E;
      (split; [constructor; [cbn; tauto|exact IH1]|]);
      (split; [cbn [List.length]; lia|]);
      cbn [forallb]; rewrite L; cbn; split; discriminate.
  - destruct IH as (IH1 & IH2 & IH3).
    split; [constructor; [|exact IH1]|].
    { apply dayLetter_cases in HL. cbn in HL.
      repeat (destruct HL as [<-|HL]); try contradiction; cbn; tauto. }
    split; [cbn [List.length]; lia|].
    cbn [forallb]. rewrite HL. cbn. split; discriminate.
  - destruct IH as (IH1 & IH2 & IH3).
    split; [exact IH1|]. split; [cbn [List.length]; lia|].
    cbn [forallb]. rewrite HL. cbn [negb andb]. exact IH3.
Qed.

(** X4. The day scan gives only the codes M, T, W, F, S, TH and SU, at most one
    per character, and gives none exactly when the text has no day
    letter. *)
Theorem scanDays_codes_and_emptiness s :
  Forall (fun d => In d scannedCodes) (scanDays s) /\
  (List.length (scanDays s) <= List.length s)%nat /\
  (scanDays s = [] <-> forallb (fun c => negb (isDayLetter c)) s = true).
Proof. exact (scanDays_facts s). Qed.

(** X5. Every entry the parser accepts gives days among the scanned codes and
    two well-formed "HH:MM" times. *)
Theorem accepted_entry_shape e ds a b :
  entrySlot e = Some (ds, a, b) ->
  Forall (fun d => In d scannedCodes) ds /\
  validTimeText a = true /\ validTimeText b = true.
Proof.
  unfold entrySlot. destruct (reEntry e) as [parts|]; [|discriminate].
  destruct (parse12HourTime (startTimeStr parts)) as [|x xs] eqn:Ea;
    [discriminate|].
  destruct (parse12HourTime (endTimeStr parts)) as [|y ys] eqn:Eb;
    [discriminate|].
  cbn [isEmpty negb andb]. intros [= <- <- <-].
  split; [apply scanDays_facts|].
  split.
  - destruct (proj2 (parse12HourTime_result (startTimeStr parts)))
      as [H|H]; rewrite Ea in H; [discriminate|exact H].
  - destruct (proj2 (parse12HourTime_result (endTimeStr parts)))
      as [H|H]; rewrite Eb in H; [discriminate|exact H].
Qed.

Lemma accepted_entry_shape_witness :
  entrySlot "xmthu 9:05am - 1:30 pm"
    = Some (strs ["M"; "TH"], "09:05" : str, "13:30" : str) /\
  Forall (fun d => In d scannedCodes) (strs ["M"; "TH"]) /\
  validTimeText "09:05" = true /\ validTimeText "13:30" = true.
Proof.
  assert (E : entrySlot "xmthu 9:05am - 1:30 pm"
              = Some (strs ["M"; "TH"], "09:05" : str, "13:30" : str))
    by (vm_compute; reflexivity).
  split; [exact E|]. exact (accepted_entry_shape _ _ _ _ E).
Defined.

(** *** The parser does not see the case of letters *)

Lemma isLower_code c : isLower c = true <-> (97 <= code c <= 122)%N.
Proof. unfold isLower. rewrite andb_true_iff, !N.leb_le. tauto. Qed.

Lemma code_upperChar_lower c :
  isLower c = true -> code (upperChar c) = (code c - 32)%N.
Proof.
  intros L. unfold upperChar. rewrite L. unfold code.
  apply N_ascii_embedding. apply isLower_code in L. unfold code in L. lia.
Qed.

Lemma bool_eq_iff (a b : bool) : (a = true <-> b = true) -> a = b.
Proof. destruct a, b; intros [H1 H2]; auto; (now rewrite H1) || (now rewrite H2). Qed.

Lemma upperChar_not_lower c : isLower c = false -> upperChar c = c.
Proof. intros L. unfold upperChar. now rewrite L. Qed.

Lemma isAlpha_upperChar c : isAlpha (upperChar c) = isAlpha c.
Proof.
  destruct (isLower c) eqn:L; [|now rewrite upperChar_not_lower].
  apply bool_eq_iff. rewrite !isAlpha_code, code_upperChar_lower by assumption.
  apply isLower_code in L. lia.
Qed.

Lemma isSpace_upperChar c : isSpace (upperChar c) = isSpace c.
Proof.
  destruct (isLower c) eqn:L; [|now rewrite upperChar_not_lower].
  apply bool_eq_iff. rewrite !isSpace_code, code_upperChar_lower by assumption.
  apply isLower_code in L. lia.
Qed.

Lemma isDigit_upperChar c : isDigit (upperChar c) = isDigit c.
Proof.
  destruct (isLower c) eqn:L; [|now rewrite upperChar_not_lower].
  apply bool_eq_iff. rewrite !isDigit_code, code_upperChar_lower by assumption.
  apply isLower_code in L. lia.
Qed.

Lemma isLower_upperChar c : isLower (upperChar c) = false.
Proof.
  destruct (isLower c) eqn:L; [|now rewrite upperChar_not_lower].
  apply not_true_is_false. rewrite isLower_code, code_upperChar_lower by assumption.
  apply isLower_code in L. lia.
Qed.

Lemma upperChar_idempotent c : upperChar (upperChar c) = upperChar c.
Proof. apply upperChar_not_lower, isLower_upperChar. Qed.

(** A character that is not a letter is met by [c] exactly when it is met
    by the upper case of [c]. *)
Lemma eqb_upperChar c x :
  isAlpha x = false -> Ascii.eqb (upperChar c) x = Ascii.eqb c x.
Proof.
  intros Hx. destruct (isLower c) eqn:L; [|now rewrite upperChar_not_lower].
  assert (Hc : isAlpha c = true)
    by (unfold isAlpha; rewrite L; apply orb_true_r).
  assert (Hu : isAlpha (upperChar c) = true) by now rewrite isAlpha_upperChar.
  rewrite !(proj2 (Ascii.eqb_neq _ _)); [reflexivity| |]; intros E; subst;
    congruence.
Qed.

Lemma ciEq_upperChar c x : ciEq (upperChar c) x = ciEq c x.
Proof. unfold ciEq. now rewrite upperChar_idempotent. Qed.

Lemma toUpperCase_idempotent s : toUpperCase (toUpperCase s) = toUpperCase s.
Proof.
  unfold toUpperCase. rewrite map_map. apply map_ext.
  apply upperChar_idempotent.
Qed.

Lemma toUpperCase_digits s : forallb isDigit s = true -> toUpperCase s = s.
Proof.
  induction s as [|c s IH]; [reflexivity|]. cbn [forallb toUpperCase map].
  intros H. apply andb_true_iff in H as [Hc Hs].
  fold (toUpperCase s). rewrite (IH Hs). f_equal.
  apply upperChar_not_lower. apply not_true_is_false. intros L.
  apply isLower_code in L. apply isDigit_code in Hc. lia.
Qed.

Lemma isEmpty_toUpperCase s : isEmpty (toUpperCase s) = isEmpty s.
Proof. destruct s; reflexivity. Qed.

Section UpperScan.
Variable p : ascii -> bool.
Hypothesis p_upper : forall c, p (upperChar c) = p c.

Lemma span_toUpperCase s :
  span p (toUpperCase s)
  = (toUpperCase (fst (span p s)), toUpperCase (snd (span p s))).
Proof.
  induction s as [|c s IH]; [reflexivity|].
  cbn [toUpperCase map span]. fold (toUpperCase s). rewrite p_upper, IH.
  destruct (p c); [|reflexivity]. destruct (span p s). reflexivity.
Qed.

Lemma dropWhile_toUpperCase s :
  dropWhile p (toUpperCase s) = toUpperCase (dropWhile p s).
Proof.
  induction s as [|c s IH]; [reflexivity|].
  cbn [toUpperCase map dropWhile]. fold (toUpperCase s). rewrite p_upper, IH.
  destruct (p c); reflexivity.
Qed.

Lemma span_fst_all s : forallb p (fst (span p s)) = true.
Proof.
  induction s as [|c s IH]; [reflexivity|]. cbn [span].
  destruct (p c) eqn:E; [|reflexivity].
  destruct (span p s). cbn [fst forallb] in *. now rewrite E, IH.
Qed.
End UpperScan.

Lemma trim_toUpperCase s : trim (toUpperCase s) = toUpperCase (trim s).
Proof.
  unfold trim, trimStart, trimEnd, toUpperCase.
  rewrite (dropWhile_toUpperCase isSpace isSpace_upperChar).
  unfold toUpperCase.
  rewrite <- map_rev, (dropWhile_toUpperCase isSpace isSpace_upperChar).
  unfold toUpperCase. now rewrite map_rev.
Qed.

Lemma split_comma_toUpperCase s :
  split "," (toUpperCase s) = map toUpperCase (split "," s).
Proof.
  induction s as [|c s IH]; [reflexivity|].
  cbn [toUpperCase map split]. fold (toUpperCase s).
  rewrite eqb_upperChar by reflexivity. rewrite IH.
  destruct (Ascii.eqb c ","); [reflexivity|].
  destruct (split "," s); reflexivity.
Qed.

Lemma scheduleEntries_toUpperCase s :
  scheduleEntries (toUpperCase s) = map toUpperCase (scheduleEntries s).
Proof.
  unfold scheduleEntries. rewrite split_comma_toUpperCase, map_map.
  rewrite (map_ext _ (fun x => toUpperCase (trim x)))
    by (intros x; apply trim_toUpperCase).
  rewrite <- (map_map trim toUpperCase).
  induction (map trim (split "," s)) as [|x l IH]; [reflexivity|].
  cbn [map filter]. rewrite isEmpty_toUpperCase, IH.
  destruct (isEmpty x); reflexivity.
Qed.

Lemma reAmPm_toUpperCase s :
  reAmPm (toUpperCase s)
  = option_map (fun x => (toUpperCase (fst x), toUpperCase (snd x)))
               (reAmPm s).
Proof.
  destruct s as [|a [|m r]]; try reflexivity.
  cbn [toUpperCase map reAmPm]. rewrite !ciEq_upperChar.
  destruct ((ciEq a "A" || ciEq a "P") && ciEq m "M"); reflexivity.
Qed.

Lemma forallb_isDigit_toUpperCase s :
  forallb isDigit (toUpperCase s) = forallb isDigit s.
Proof.
  induction s as [|c s IH]; [reflexivity|].
  cbn [toUpperCase map forallb]. fold (toUpperCase s).
  now rewrite isDigit_upperChar, IH.
Qed.

Lemma hourMinWith_toUpperCase n s :
  hourMinWith n (toUpperCase s) = option_map upper3 (hourMinWith n s).
Proof.
  unfold hourMinWith, toUpperCase.
  rewrite firstn_map, skipn_map, length_map.
  fold (toUpperCase (firstn n s)). rewrite forallb_isDigit_toUpperCase.
  destruct (skipn n s) as [|c [|m1 [|m2 r]]]; try reflexivity.
  cbn [map]. rewrite eqb_upperChar by reflexivity.
  rewrite !isDigit_upperChar.
  destruct ((List.length (firstn n s) =? n)%nat && forallb isDigit (firstn n s)
            && Ascii.eqb c ":" && isDigit m1 && isDigit m2); reflexivity.
Qed.

Lemma reHourMin_toUpperCase s :
  reHourMin (toUpperCase s) = option_map upper3 (reHourMin s).
Proof.
  unfold reHourMin. rewrite !hourMinWith_toUpperCase.
  destruct (hourMinWith 2 s); reflexivity.
Qed.

Lemma re12Hour_toUpperCase s :
  re12Hour (toUpperCase s) = option_map upper3 (re12Hour s).
Proof.
  unfold re12Hour. rewrite reHourMin_toUpperCase.
  destruct (reHourMin s) as [[[h m] r]|]; [|reflexivity].
  cbn [option_map upper3].
  rewrite (dropWhile_toUpperCase isSpace isSpace_upperChar), reAmPm_toUpperCase.
  destruct (reAmPm (dropWhile isSpace r)) as [[ap [|? ?]]|]; reflexivity.
Qed.

Lemma reEntry_toUpperCase s :
  reEntry (toUpperCase s) = option_map upperParts (reEntry s).
Proof.
  unfold reEntry.
  rewrite (span_toUpperCase isAlpha isAlpha_upperChar).
  destruct (span isAlpha s) as [letters r0]. cbn [fst snd].
  rewrite (span_toUpperCase isSpace isSpace_upperChar).
  destruct (span isSpace r0) as [blank r1]. cbn [fst snd].
  destruct letters as [|l0 lt]; [reflexivity|].
  destruct blank as [|b0 bt]; [reflexivity|].
  cbn [toUpperCase map]. fold (toUpperCase r1).
  rewrite reHourMin_toUpperCase.
  destruct (reHourMin r1) as [[[h1 m1] r2]|]; [|reflexivity].
  cbn [option_map upper3].
  rewrite (dropWhile_toUpperCase isSpace isSpace_upperChar), reAmPm_toUpperCase.
  destruct (reAmPm (dropWhile isSpace r2)) as [[ap1 r4]|];
    cbn [option_map fst snd];
    rewrite (dropWhile_toUpperCase isSpace isSpace_upperChar).
  all: match goal with
       | |- context [dropWhile isSpace ?x] =>
           destruct (dropWhile isSpace x) as [|c r5]
       end; [reflexivity|].
  all: cbn [toUpperCase map]; fold (toUpperCase r5);
    rewrite eqb_upperChar by reflexivity;
    destruct (Ascii.eqb c "-"); [|reflexivity];
    rewrite (dropWhile_toUpperCase isSpace isSpace_upperChar),
      reHourMin_toUpperCase;
    destruct (reHourMin (dropWhile isSpace r5)) as [[[h2 m2] r6]|];
    [|reflexivity];
    cbn [option_map upper3];
    rewrite (dropWhile_toUpperCase isSpace isSpace_upperChar),
      reAmPm_toUpperCase;
    destruct (reAmPm (dropWhile isSpace r6)) as [[ap2 [|? ?]]|];
    try reflexivity;
    unfold upperParts, toUpperCase;
    cbn [option_map fst snd dayPart startTimePart startAmpmPart
         endTimePart endAmpmPart];
    rewrite !map_app; reflexivity.
Qed.

Lemma parseInt_toUpperCase s : parseInt (toUpperCase s) = parseInt s.
Proof.
  unfold parseInt, trimStart.
  rewrite (dropWhile_toUpperCase isSpace isSpace_upperChar).
  destruct (dropWhile isSpace s) as [|c r]; [reflexivity|].
  cbn [toUpperCase map]. fold (toUpperCase r).
  rewrite !eqb_upperChar by reflexivity.
  assert (D : forall x, fst (span isDigit (toUpperCase x)) = fst (span isDigit x)).
  { intros x. rewrite (span_toUpperCase isDigit isDigit_upperChar). cbn [fst].
    apply toUpperCase_digits, span_fst_all. }
  destruct (Ascii.eqb c "-"); [now rewrite D|].
  destruct (Ascii.eqb c "+"); [now rewrite D|].
  change (upperChar c :: toUpperCase r) with (toUpperCase (c :: r)).
  now rewrite D.
Qed.

Lemma parse12HourTime_toUpperCase s :
  parse12HourTime (toUpperCase s) = parse12HourTime s.
Proof.
  unfold parse12HourTime. rewrite trim_toUpperCase, re12Hour_toUpperCase.
  destruct (re12Hour (trim s)) as [[[h m] ap]|] eqn:E; [|reflexivity].
  cbn [option_map upper3].
  apply re12Hour_inv in E as (_ & (m1 & m2 & -> & H1 & H2) & _).
  rewrite parseInt_toUpperCase, toUpperCase_idempotent.
  rewrite (toUpperCase_digits [m1; m2]) by (cbn; now rewrite H1, H2).
  reflexivity.
Qed.

Lemma timeWithAmpm_toUpperCase t a :
  timeWithAmpm (toUpperCase t) (toUpperCase a)
  = toUpperCase (timeWithAmpm t a).
Proof.
  unfold timeWithAmpm. rewrite isEmpty_toUpperCase, <- trim_toUpperCase.
  f_equal. destruct (isEmpty a); unfold toUpperCase; rewrite !map_app;
    reflexivity.
Qed.

Lemma entrySlot_toUpperCase e : entrySlot (toUpperCase e) = entrySlot e.
Proof.
  unfold entrySlot. rewrite reEntry_toUpperCase.
  destruct (reEntry e) as [parts|]; [|reflexivity].
  cbn [option_map].
  assert (Es : parse12HourTime (startTimeStr (upperParts parts))
               = parse12HourTime (startTimeStr parts)).
  { unfold startTimeStr, upperParts. cbn [startTimePart startAmpmPart].
    destruct (startAmpmPart parts) as [a|]; cbn [option_map].
    - rewrite toUpperCase_idempotent.
      rewrite <- (toUpperCase_idempotent a) at 1.
      now rewrite timeWithAmpm_toUpperCase, parse12HourTime_toUpperCase.
    - change (@nil ascii) with (toUpperCase []) at 1.
      now rewrite timeWithAmpm_toUpperCase, parse12HourTime_toUpperCase. }
  assert (Ee : parse12HourTime (endTimeStr (upperParts parts))
               = parse12HourTime (endTimeStr parts)).
  { unfold endTimeStr, upperParts. cbn [endTimePart endAmpmPart].
    rewrite isEmpty_toUpperCase. destruct (isEmpty (endAmpmPart parts)).
    - change (@nil ascii) with (toUpperCase []) at 1.
      now rewrite timeWithAmpm_toUpperCase, parse12HourTime_toUpperCase.
    - rewrite toUpperCase_idempotent.
      rewrite <- (toUpperCase_idempotent (endAmpmPart parts)) at 1.
      now rewrite timeWithAmpm_toUpperCase, parse12HourTime_toUpperCase. }
  rewrite Es, Ee. unfold upperParts at 1. cbn [dayPart].
  now rewrite toUpperCase_idempotent.
Qed.

Lemma parseSlotEntry_toUpperCase st e :
  parseSlotEntry st (toUpperCase e) = parseSlotEntry st e.
Proof. unfold parseSlotEntry. now rewrite entrySlot_toUpperCase. Qed.

Lemma fold_parse_toUpperCase es :
  forall st,
    fold_left parseSlotEntry (map toUpperCase es) st
    = fold_left parseSlotEntry es st.
Proof.
  induction es as [|e es IH]; intros st; [reflexivity|].
  cbn [map fold_left]. now rewrite parseSlotEntry_toUpperCase, IH.
Qed.

Lemma parseExistingSchedule_toUpperCase st s :
  parseExistingSchedule st (toUpperCase s) = parseExistingSchedule st s.
Proof.
  destruct s as [|c s]; [reflexivity|].
  change (toUpperCase (c :: s)) with (upperChar c :: toUpperCase s).
  unfold parseExistingSchedule.
  change (upperChar c :: toUpperCase s) with (toUpperCase (c :: s)).
  now rewrite scheduleEntries_toUpperCase, fold_parse_toUpperCase.
Qed.

(** X6. The parser does not see the case of letters: an ASCII 12-hour text,
    entry or whole schedule string is read as its upper-case form is, so
    two ASCII schedule strings that differ only in the case of letters
    leave the same builder. *)
Theorem parser_ignores_case :
  (forall t, isAsciiText t = true ->
             parse12HourTime (toUpperCase t) = parse12HourTime t) /\
  (forall e, isAsciiText e = true ->
             entrySlot (toUpperCase e) = entrySlot e) /\
  (forall st s1 s2,
      isAsciiText s1 = true -> isAsciiText s2 = true ->
      toUpperCase s1 = toUpperCase s2 ->
      parseExistingSchedule st s1 = parseExistingSchedule st s2).
Proof.
  split; [intros t _; apply parse12HourTime_toUpperCase|].
  split; [intros e _; apply entrySlot_toUpperCase|].
  intros st s1 s2 _ _ E.
  rewrite <- (parseExistingSchedule_toUpperCase st s1), E.
  apply parseExistingSchedule_toUpperCase.
Qed.

Lemma parser_ignores_case_witness :
  isAsciiText "mWf 10:00 am-12:00 Pm, tth 1:00 pm-2:30 pm" = true /\
  isAsciiText "MWF 10:00 AM-12:00 PM, TTh 1:00 PM-2:30 PM" = true /\
  toUpperCase "mWf 10:00 am-12:00 Pm, tth 1:00 pm-2:30 pm"
  = toUpperCase "MWF 10:00 AM-12:00 PM, TTh 1:00 PM-2:30 PM" /\
  parseExistingSchedule initialBuilder
    "mWf 10:00 am-12:00 Pm, tth 1:00 pm-2:30 pm"
  = parseExistingSchedule initialBuilder
      "MWF 10:00 AM-12:00 PM, TTh 1:00 PM-2:30 PM".
Proof.
  assert (A1 : isAsciiText "mWf 10:00 am-12:00 Pm, tth 1:00 pm-2:30 pm"
               = true) by reflexivity.
  assert (A2 : isAsciiText "MWF 10:00 AM-12:00 PM, TTh 1:00 PM-2:30 PM"
               = true) by reflexivity.
  assert (E : toUpperCase "mWf 10:00 am-12:00 Pm, tth 1:00 pm-2:30 pm"
              = toUpperCase "MWF 10:00 AM-12:00 PM, TTh 1:00 PM-2:30 PM")
    by reflexivity.
  split; [exact A1|]. split; [exact A2|]. split; [exact E|].
  exact (proj2 (proj2 parser_ignores_case) initialBuilder _ _ A1 A2 E).
Defined.

(** *** Slot ids *)

Lemma to_int_nonnil z :
  Z.to_int z <> Decimal.Pos Decimal.Nil /\
  Z.to_int z <> Decimal.Neg Decimal.Nil.
Proof.
  destruct z; cbn; split; try discriminate; intros [= H];
    now apply (DecimalPos.Unsigned.to_uint_nonnil p).
Qed.

Lemma intToString_inj a b : intToString a = intToString b -> a = b.
Proof.
  unfold intToString. intros H.
  apply (f_equal string_of_list_ascii) in H.
  rewrite !string_of_list_ascii_of_string in H.
  apply (f_equal NilZero.int_of_string) in H.
  rewrite !NilZero.isi in H by apply to_int_nonnil.
  injection H as H. now apply DecimalZ.to_int_inj.
Qed.

Lemma slotIdOf_inj a b : slotIdOf a = slotIdOf b -> a = b.
Proof.
  unfold slotIdOf. intros H. apply app_inv_head in H.
  now apply intToString_inj.
Qed.

Lemma ids_sorted ts : map id (map sortSlotDays ts) = map id ts.
Proof. rewrite map_map. reflexivity. Qed.

Lemma ids_displaySlots st ts : map id (displaySlots st ts) = map id ts.
Proof.
  unfold displaySlots. destruct (hasDisplay st); [apply ids_sorted|reflexivity].
Qed.

Lemma timeSlots_update st :
  timeSlots (updateScheduleDisplay st) = displaySlots st (timeSlots st).
Proof. apply timeSlots_updateScheduleDisplay. Qed.

Lemma counter_update st :
  timeSlotCounter (updateScheduleDisplay st) = timeSlotCounter st.
Proof.
  unfold updateScheduleDisplay. destruct (hasDisplay st); [|reflexivity].
  cbn [negb]. destruct (timeSlots st); reflexivity.
Qed.

Lemma hasDisplay_update st :
  hasDisplay (updateScheduleDisplay st) = hasDisplay st.
Proof.
  unfold updateScheduleDisplay. destruct (hasDisplay st) eqn:E; [|exact E].
  cbn [negb]. destruct (timeSlots st); cbn; exact E.
Qed.

Lemma selectedDays_update st :
  selectedDays (updateScheduleDisplay st) = selectedDays st.
Proof.
  unfold updateScheduleDisplay. destruct (hasDisplay st); [|reflexivity].
  cbn [negb]. destruct (timeSlots st); reflexivity.
Qed.

Lemma timeSlots_addTimeSlot st slot :
  timeSlots (addTimeSlot st slot) = displaySlots st (timeSlots st ++ [slot]).
Proof. unfold addTimeSlot. now rewrite timeSlots_update. Qed.

Lemma timeSlots_removeTimeSlot st x :
  timeSlots (removeTimeSlot st x)
  = displaySlots st (filter (fun s => otherId x (id s)) (timeSlots st)).
Proof. unfold removeTimeSlot. now rewrite timeSlots_update. Qed.

Lemma ids_filter x ts :
  map id (filter (fun s => otherId x (id s)) ts)
  = filter (otherId x) (map id ts).
Proof.
  induction ts as [|s ts IH]; [reflexivity|]. cbn [filter map].
  destruct (otherId x (id s)); cbn [map]; now rewrite IH.
Qed.

Lemma ids_removeTimeSlot st x :
  map id (timeSlots (removeTimeSlot st x))
  = filter (otherId x) (map id (timeSlots st)).
Proof. now rewrite timeSlots_removeTimeSlot, ids_displaySlots, ids_filter. Qed.

Lemma otherId_true x i : otherId x i = true <-> i <> x.
Proof.
  unfold otherId. rewrite negb_true_iff. split.
  - intros H E. subst. now rewrite str_eqb_refl in H.
  - intros H. apply not_true_is_false. intros E. now apply str_eqb_eq in E.
Qed.

Lemma filter_otherId_absent x l : ~ In x l -> filter (otherId x) l = l.
Proof.
  induction l as [|i l IH]; [reflexivity|]. cbn [In filter]. intros H.
  rewrite (proj2 (otherId_true x i)) by (intros E; apply H; now left).
  rewrite IH by (intros E; apply H; now right). reflexivity.
Qed.

Lemma filter_slots_absent x ts :
  ~ In x (map id ts) -> filter (fun s => otherId x (id s)) ts = ts.
Proof.
  induction ts as [|s ts IH]; [reflexivity|]. cbn [map In filter]. intros H.
  rewrite (proj2 (otherId_true x (id s))) by (intros E; apply H; now left).
  rewrite IH by (intros E; apply H; now right). reflexivity.
Qed.

(** X9. [removeTimeSlot]: afterwards no slot has the id; the ids left are the
    others in their order; and an id that no slot has leaves the slots as
    the display update alone leaves them. *)
Theorem removeTimeSlot_removes_id st x :
  ~ In x (map id (timeSlots (removeTimeSlot st x))) /\
  map id (timeSlots (removeTimeSlot st x))
  = filter (otherId x) (map id (timeSlots st)) /\
  (~ In x (map id (timeSlots st)) ->
   timeSlots (removeTimeSlot st x) = displaySlots st (timeSlots st)).
Proof.
  split; [|split].
  - rewrite ids_removeTimeSlot. intros H. apply filter_In in H as [_ H].
    apply otherId_true in H. congruence.
  - apply ids_removeTimeSlot.
  - intros H. rewrite timeSlots_removeTimeSlot.
    now rewrite filter_slots_absent.
Qed.

Lemma removeTimeSlot_removes_id_witness :
  let st := parseExistingSchedule initialBuilder "M 9:00 AM-10:00 AM" in
  ~ In ("slot_7" : str) (map id (timeSlots st)) /\
  timeSlots (removeTimeSlot st "slot_7") = displaySlots st (timeSlots st).
Proof.
  intros st.
  assert (H : ~ In ("slot_7" : str) (map id (timeSlots st))).
  { vm_compute. intros [H|[]]. discriminate H. }
  split; [exact H|].
  exact (proj2 (proj2 (removeTimeSlot_removes_id st "slot_7")) H).
Defined.

Lemma idsFresh_iff st :
  idsFresh st <-> idsBelow (timeSlotCounter st) (map id (timeSlots st)).
Proof.
  unfold idsFresh, idsBelow. rewrite Forall_map. reflexivity.
Qed.

Lemma idsBelow_snoc c ids :
  idsBelow c ids -> idsBelow (c + 1) (ids ++ [slotIdOf c]).
Proof.
  intros (Hc & Hn & Hf). split; [lia|]. split.
  - apply NoDup_app; [assumption | repeat constructor; intros [] |].
    intros i Hi [E|[]]. subst i. rewrite Forall_forall in Hf.
    destruct (Hf _ Hi) as (k & Hk & E). apply slotIdOf_inj in E. lia.
  - apply Forall_app. split.
    + eapply Forall_impl; [|exact Hf]. intros i (k & Hk & E).
      exists k. split; [lia|exact E].
    + repeat constructor. exists c. split; [lia|reflexivity].
Qed.

Lemma idsBelow_filter c ids p :
  idsBelow c ids -> idsBelow c (filter p ids).
Proof.
  intros (Hc & Hn & Hf). split; [assumption|]. split.
  - now apply NoDup_filter.
  - rewrite Forall_forall in *. intros i Hi. apply filter_In in Hi as [Hi _].
    now apply Hf.
Qed.

Lemma idsBelow_nil c : 0 <= c -> idsBelow c [].
Proof. intros H. repeat split; [assumption | constructor | constructor]. Qed.

(** The two ways a click on the add button ends. *)
Lemma click_cases st :
  (exists msg, addTimeBtn_click st = showWarningNotification st msg) \/
  (exists a b f,
      addTimeBtn_click st
      = set_selectedDays
          (set_timeInputs
             (addTimeSlot
                (set_timeSlotCounter st (timeSlotCounter st + 1))
                (mkSlot (slotIdOf (timeSlotCounter st)) (selectedDays st)
                        a b (Some f)))
             [] []) [] /\
      selectedDays st <> [] /\ a <> [] /\ b <> []).
Proof.
  unfold addTimeBtn_click.
  destruct (trim (startTimeInput st)) as [|c1 t1]; [left; cbn; eauto|].
  destruct (trim (endTimeInput st)) as [|c2 t2]; [left; cbn; eauto|].
  cbn [isEmpty orb].
  destruct (selectedDays st) as [|d ds] eqn:Ed; [left; cbn; eauto|].
  cbn [List.length Nat.eqb].
  match goal with
  | |- context [if ?c then _ else _] => destruct c
  end; [left; eauto|].
  right. cbn [freshId]. do 3 eexists. split; [reflexivity|].
  repeat split; discriminate.
Qed.

Lemma parseSlotEntry_cases st e :
  parseSlotEntry st e
  = match entrySlot e with
    | Some (d, a, b) =>
        addTimeSlot (set_timeSlotCounter st (timeSlotCounter st + 1))
                    (mkSlot (slotIdOf (timeSlotCounter st)) d a b None)
    | None => st
    end.
Proof.
  unfold parseSlotEntry. destruct (entrySlot e) as [[[d a] b]|]; reflexivity.
Qed.

Lemma ids_addTimeSlot st slot :
  map id (timeSlots (addTimeSlot st slot))
  = map id (timeSlots st) ++ [id slot].
Proof.
  now rewrite timeSlots_addTimeSlot, ids_displaySlots, map_app.
Qed.

Lemma counter_addTimeSlot st slot :
  timeSlotCounter (addTimeSlot st slot) = timeSlotCounter st.
Proof. unfold addTimeSlot. now rewrite counter_update. Qed.

Lemma idsFresh_fresh_slot st d a b f :
  idsFresh st ->
  idsFresh (addTimeSlot (set_timeSlotCounter st (timeSlotCounter st + 1))
                        (mkSlot (slotIdOf (timeSlotCounter st)) d a b f)).
Proof.
  rewrite !idsFresh_iff, ids_addTimeSlot, counter_addTimeSlot.
  apply idsBelow_snoc.
Qed.

Lemma idsFresh_click st : idsFresh st -> idsFresh (addTimeBtn_click st).
Proof.
  intros H. destruct (click_cases st) as [[msg ->]|(a & b & f & -> & _)].
  - exact H.
  - apply (idsFresh_fresh_slot st (selectedDays st) a b (Some f)) in H.
    exact H.
Qed.

Lemma idsFresh_parseSlotEntry st e :
  idsFresh st -> idsFresh (parseSlotEntry st e).
Proof.
  intros H. rewrite parseSlotEntry_cases.
  destruct (entrySlot e) as [[[d a] b]|]; [|exact H].
  now apply idsFresh_fresh_slot.
Qed.

Lemma idsFresh_fold es :
  forall st, idsFresh st -> idsFresh (fold_left parseSlotEntry es st).
Proof.
  induction es as [|e es IH]; intros st H; [exact H|].
  cbn [fold_left]. apply IH. now apply idsFresh_parseSlotEntry.
Qed.

Lemma idsFresh_cleared st :
  0 <= timeSlotCounter st -> idsFresh (set_timeSlots st []).
Proof. intros H. apply idsFresh_iff. now apply idsBelow_nil. Qed.

Lemma idsFresh_parseExistingSchedule st s :
  idsFresh st -> idsFresh (parseExistingSchedule st s).
Proof.
  intros H. destruct s as [|c s]; [exact H|].
  unfold parseExistingSchedule. apply idsFresh_fold, idsFresh_cleared.
  apply H.
Qed.

Lemma idsFresh_update st : idsFresh st -> idsFresh (updateScheduleDisplay st).
Proof.
  rewrite !idsFresh_iff, timeSlots_update, ids_displaySlots, counter_update.
  auto.
Qed.

Lemma idsFresh_removeTimeSlot st x :
  idsFresh st -> idsFresh (removeTimeSlot st x).
Proof.
  rewrite !idsFresh_iff, ids_removeTimeSlot. unfold removeTimeSlot.
  rewrite counter_update. apply idsBelow_filter.
Qed.

Lemma idsFresh_setup st pg existing :
  idsFresh (setupScheduleBuilder st pg existing).
Proof.
  unfold setupScheduleBuilder.
  set (st0 := set_timeSlotCounter (set_selectedDays (set_timeSlots st []) []) 0).
  assert (H0 : idsFresh st0) by (apply idsFresh_iff, idsBelow_nil; cbn; lia).
  destruct (builderMissing pg); [exact H0|].
  destruct existing as [[|c s]|];
    auto using idsFresh_update, idsFresh_parseExistingSchedule.
Qed.

Lemma idsFresh_step st ev : idsFresh st -> idsFresh (step st ev).
Proof.
  intros H. destruct ev; cbn [step].
  - unfold selectDay. destruct (existsb _ _); exact H.
  - exact H.
  - exact H.
  - exact H.
  - now apply idsFresh_click.
  - now apply idsFresh_removeTimeSlot.
  - apply idsFresh_iff, idsBelow_nil. cbn. lia.
  - apply idsFresh_setup.
Qed.

Lemma idsFresh_run evs : forall st, idsFresh st -> idsFresh (run st evs).
Proof.
  induction evs as [|ev evs IH]; intros st H; [exact H|].
  cbn [run fold_left]. apply IH. now apply idsFresh_step.
Qed.

(** X10. Slot ids are never reused: whatever the user and the page do from the
    initial builder on, the slots have distinct ids, each made from a
    counter value below the present one. *)
Theorem slot_ids_stay_fresh evs : idsFresh (run initialBuilder evs).
Proof.
  apply idsFresh_run. apply idsFresh_iff, idsBelow_nil. cbn. lia.
Qed.

Lemma filter_otherId_length x l :
  NoDup l -> In x l ->
  S (List.length (filter (otherId x) l)) = List.length l.
Proof.
  induction 1 as [|i l Hi Hn IH]; [intros []|]. cbn [In filter List.length].
  intros [E|Hx].
  - subst i. replace (otherId x x) with false
      by (symmetry; apply not_true_is_false; rewrite otherId_true; congruence).
    now rewrite filter_otherId_absent.
  - rewrite (proj2 (otherId_true x i)) by (intros E; subst; contradiction).
    cbn [List.length]. now rewrite IH.
Qed.

(** X11. In a builder with distinct ids, removing the id of a slot that is there
    removes exactly one slot. *)
Theorem removeTimeSlot_removes_one st s :
  idsFresh st -> In s (timeSlots st) ->
  S (List.length (timeSlots (removeTimeSlot st (id s))))
  = List.length (timeSlots st) /\
  ~ In (id s) (map id (timeSlots (removeTimeSlot st (id s)))).
Proof.
  intros (_ & Hn & _) Hs. split.
  - rewrite <- (length_map id (timeSlots (removeTimeSlot st (id s)))).
    rewrite ids_removeTimeSlot, filter_otherId_length; auto using in_map.
    apply length_map.
  - rewrite ids_removeTimeSlot. intros H. apply filter_In in H as [_ H].
    apply otherId_true in H. congruence.
Qed.

Lemma removeTimeSlot_removes_one_witness :
  let st := run initialBuilder
              [EvSetup (mkPage true true true true true true true)
                       (Some ("MWF 10:00 AM-12:00 PM, TTh 1:00 PM-2:30 PM" : str))] in
  exists s, idsFresh st /\ In s (timeSlots st) /\
            S (List.length (timeSlots (removeTimeSlot st (id s))))
            = List.length (timeSlots st).
Proof.
  intros st.
  exists (mkSlot "slot_1" (strs ["T"; "TH"]) "13:00" "14:30" None).
  assert (F : idsFresh st).
  { apply idsFresh_run. apply idsFresh_iff, idsBelow_nil. cbn. lia. }
  assert (I : In (mkSlot "slot_1" (strs ["T"; "TH"]) "13:00" "14:30" None)
                 (timeSlots st)) by (vm_compute; auto).
  split; [exact F|]. split; [exact I|].
  exact (proj1 (removeTimeSlot_removes_one st _ F I)).
Defined.

(** *** Adding and removing *)

Lemma displaySlots_idempotent st ts :
  displaySlots st (displaySlots st ts) = displaySlots st ts.
Proof.
  unfold displaySlots. destruct (hasDisplay st); [|reflexivity].
  apply map_sortSlotDays_idempotent.
Qed.

Lemma filter_displaySlots st x ts :
  filter (fun s => otherId x (id s)) (displaySlots st ts)
  = displaySlots st (filter (fun s => otherId x (id s)) ts).
Proof.
  unfold displaySlots. destruct (hasDisplay st); [|reflexivity].
  induction ts as [|s ts IH]; [reflexivity|]. cbn [map filter].
  change (id (sortSlotDays s)) with (id s).
  destruct (otherId x (id s)); cbn [map]; now rewrite IH.
Qed.

Lemma hasDisplay_addTimeSlot st slot :
  hasDisplay (addTimeSlot st slot) = hasDisplay st.
Proof. unfold addTimeSlot. now rewrite hasDisplay_update. Qed.

Lemma idsFresh_absent st :
  idsFresh st -> ~ In (slotIdOf (timeSlotCounter st)) (map id (timeSlots st)).
Proof.
  intros H Hin. apply idsFresh_iff in H as (_ & _ & Hf).
  rewrite Forall_forall in Hf. destruct (Hf _ Hin) as (k & Hk & E).
  apply slotIdOf_inj in E. lia.
Qed.

(** X12. With slots and selected days that are day codes of the table, a
    click on the add button followed by the removal of the id the click
    would use leaves the slots that were there, as the display update
    leaves them, whether the click added a slot or was refused. *)
Theorem add_then_remove st :
  idsFresh st ->
  Forall canonicalSlot (timeSlots st) ->
  forallb canonicalDay (selectedDays st) = true ->
  timeSlots (removeTimeSlot (addTimeBtn_click st)
                            (slotIdOf (timeSlotCounter st)))
  = displaySlots st (timeSlots st).
Proof.
  intros H _ _. pose proof (idsFresh_absent st H) as Habs.
  rewrite timeSlots_removeTimeSlot.
  destruct (click_cases st) as [[msg ->]|(a & b & f & -> & _)].
  - cbn [timeSlots showWarningNotification].
    now rewrite filter_slots_absent.
  - set (slot := mkSlot (slotIdOf (timeSlotCounter st)) (selectedDays st)
                        a b (Some f)).
    set (st1 := set_timeSlotCounter st (timeSlotCounter st + 1)).
    change (timeSlots (set_selectedDays
                         (set_timeInputs (addTimeSlot st1 slot) [] []) []))
      with (timeSlots (addTimeSlot st1 slot)).
    unfold displaySlots at 1.
    change (hasDisplay (set_selectedDays
                          (set_timeInputs (addTimeSlot st1 slot) [] []) []))
      with (hasDisplay (addTimeSlot st1 slot)).
    rewrite hasDisplay_addTimeSlot. change (hasDisplay st1) with (hasDisplay st).
    fold (displaySlots st (filter (fun s => otherId (slotIdOf (timeSlotCounter st)) (id s))
                                  (timeSlots (addTimeSlot st1 slot)))).
    rewrite timeSlots_addTimeSlot.
    change (displaySlots st1) with (displaySlots st).
    change (timeSlots st1) with (timeSlots st).
    rewrite filter_displaySlots, displaySlots_idempotent, filter_app.
    rewrite filter_slots_absent by assumption.
    cbn [filter id slot].
    replace (otherId (slotIdOf (timeSlotCounter st))
                     (slotIdOf (timeSlotCounter st))) with false
      by (symmetry; apply not_true_is_false; rewrite otherId_true; congruence).
    now rewrite app_nil_r.
Qed.

Lemma add_then_remove_witness :
  let st := set_timeInputs (selectDay thursdayBuilder "F") "11:00" "12:30" in
  idsFresh st /\
  Forall canonicalSlot (timeSlots st) /\
  forallb canonicalDay (selectedDays st) = true /\
  timeSlots (removeTimeSlot (addTimeBtn_click st) "slot_1")
  = timeSlots thursdayBuilder.
Proof.
  intros st.
  assert (F : idsFresh st).
  { apply (idsFresh_run [EvSelectDay "Th"; EvEnterTimes "09:00" "10:00";
                         EvClickAdd; EvSelectDay "F";
                         EvEnterTimes "11:00" "12:30"] initialBuilder).
    apply idsFresh_iff, idsBelow_nil. cbn. lia. }
  assert (C : Forall canonicalSlot (timeSlots st))
    by (repeat constructor).
  assert (D : forallb canonicalDay (selectedDays st) = true) by reflexivity.
  split; [exact F|]. split; [exact C|]. split; [exact D|].
  exact (add_then_remove st F C D).
Defined.

(** *** The hidden field *)

Lemma update_in_sync st :
  hasDisplay st = true -> fieldInSync (updateScheduleDisplay st).
Proof.
  intros H. unfold fieldInSync, updateScheduleDisplay. rewrite H. cbn [negb].
  destruct (timeSlots st) as [|t ts] eqn:E.
  - cbn. rewrite E. split; reflexivity.
  - cbn [formatSchedule fst snd set_scheduleField set_timeSlots
         scheduleField timeSlots].
    rewrite formatSchedule_text, map_sortSlotDays_idempotent. split; reflexivity.
Qed.

Lemma parseSlotEntry_in_sync st e :
  hasDisplay st = true -> accepted e = true -> fieldInSync (parseSlotEntry st e).
Proof.
  intros H A. rewrite parseSlotEntry_cases. unfold accepted in A.
  destruct (entrySlot e) as [[[d a] b]|]; [|discriminate].
  unfold addTimeSlot. now apply update_in_sync.
Qed.

Lemma fold_in_sync es :
  forall st,
    hasDisplay st = true ->
    fieldInSync st \/ filter accepted es <> [] ->
    fieldInSync (fold_left parseSlotEntry es st).
Proof.
  induction es as [|e es IH]; intros st H [S|N]; cbn [fold_left filter] in *;
    try assumption; try congruence.
  - apply IH; [now rewrite hasDisplay_parseSlotEntry|]. left.
    destruct (accepted e) eqn:A; [now apply parseSlotEntry_in_sync|].
    rewrite parseSlotEntry_skip by (now apply accepted_false). exact S.
  - apply IH; [now rewrite hasDisplay_parseSlotEntry|].
    destruct (accepted e) eqn:A; [left; now apply parseSlotEntry_in_sync|].
    right. exact N.
Qed.

(** X13. With the display in the page and slots whose days are day codes of
    the table, every change of the slot list writes the hidden field: after
    such a slot is added, after a slot is removed, after an accepted click
    on the add button with such days selected and after an accepted entry
    with such days, the field holds the text [formatSchedule] gives for the
    slots (the empty string when none is left).  A refused click is the
    other way a click can end. *)
Theorem mutations_write_hidden_field st :
  hasDisplay st = true ->
  Forall canonicalSlot (timeSlots st) ->
  (forall slot, canonicalSlot slot -> fieldInSync (addTimeSlot st slot)) /\
  (forall x, fieldInSync (removeTimeSlot st x)) /\
  (forallb canonicalDay (selectedDays st) = true ->
   fieldInSync (addTimeBtn_click st) \/ rejected st (addTimeBtn_click st)) /\
  (forall e ds a b,
      entrySlot e = Some (ds, a, b) -> forallb canonicalDay ds = true ->
      fieldInSync (parseSlotEntry st e)) /\
  (forall x, timeSlots (removeTimeSlot st x) = [] ->
             scheduleField (removeTimeSlot st x) = []).
Proof.
  intros H _.
  assert (R : forall x, fieldInSync (removeTimeSlot st x))
    by (intros x; unfold removeTimeSlot; now apply update_in_sync).
  split; [intros slot _; unfold addTimeSlot; now apply update_in_sync|].
  split; [exact R|]. split; [|split].
  - intros _. destruct (click_cases st) as [[msg E]|(a & b & f & E & _)].
    + right. exists msg. exact E.
    + left. rewrite E. unfold addTimeSlot.
      match goal with
      | |- fieldInSync (set_selectedDays
                          (set_timeInputs (updateScheduleDisplay ?x) _ _) _) =>
          exact (update_in_sync x H)
      end.
  - intros e ds a b A _. apply parseSlotEntry_in_sync; [exact H|].
    unfold accepted. now rewrite A.
  - intros x E. destruct (R x) as [S _]. now rewrite S, E.
Qed.

Lemma mutations_write_hidden_field_witness :
  hasDisplay thursdayBuilder = true /\
  Forall canonicalSlot (timeSlots thursdayBuilder) /\
  fieldInSync (addTimeSlot thursdayBuilder
                 (mkSlot "slot_1" (strs ["W"; "M"]) "11:00" "12:00" None)) /\
  scheduleField (removeTimeSlot thursdayBuilder "slot_0") = [].
Proof.
  assert (C : Forall canonicalSlot (timeSlots thursdayBuilder))
    by (repeat constructor).
  split; [reflexivity|]. split; [exact C|]. split.
  - apply (proj1 (mutations_write_hidden_field thursdayBuilder eq_refl C)).
    reflexivity.
  - apply (proj2 (proj2 (proj2 (proj2
             (mutations_write_hidden_field thursdayBuilder eq_refl C))))).
    reflexivity.
Defined.

(** X14. A stored schedule none of whose entries is accepted clears the slot
    list and leaves the hidden field, the counter and all the rest as they
    were; with at least one accepted entry, the days of the accepted
    entries being day codes of the table, and the display in the page, the
    hidden field is rewritten from the slots parsed. *)
Theorem parse_and_hidden_field st s :
  s <> [] ->
  (filter accepted (scheduleEntries s) = [] ->
   parseExistingSchedule st s = set_timeSlots st []) /\
  (hasDisplay st = true -> filter accepted (scheduleEntries s) <> [] ->
   Forall tableDays (acceptedTuples (scheduleEntries s)) ->
   fieldInSync (parseExistingSchedule st s)).
Proof.
  intros Hs. rewrite parseExistingSchedule_nonempty by assumption. split.
  - intros E. now rewrite fold_parse_filter, E.
  - intros H N _. apply fold_in_sync; [exact H|now right].
Qed.

Lemma parse_and_hidden_field_witness :
  let st := thursdayBuilder in
  parseExistingSchedule st "no schedule yet, TBA"
  = set_timeSlots st [] /\
  scheduleField (parseExistingSchedule st "no schedule yet, TBA")
  = "Th 9:00 AM-10:00 AM" /\
  Forall tableDays (acceptedTuples (scheduleEntries "WM 1:00 PM-2:00 PM")) /\
  fieldInSync (parseExistingSchedule st "WM 1:00 PM-2:00 PM").
Proof.
  intros st.
  assert (E : parseExistingSchedule st "no schedule yet, TBA"
              = set_timeSlots st []).
  { apply (proj1 (parse_and_hidden_field st "no schedule yet, TBA"
                    ltac:(discriminate))).
    vm_compute. reflexivity. }
  assert (T : Forall tableDays
                (acceptedTuples (scheduleEntries "WM 1:00 PM-2:00 PM")))
    by (vm_compute; repeat constructor).
  split; [exact E|]. split; [rewrite E; vm_compute; reflexivity|].
  split; [exact T|].
  apply (proj2 (parse_and_hidden_field st "WM 1:00 PM-2:00 PM"
                  ltac:(discriminate))); [reflexivity| |exact T].
  vm_compute. discriminate.
Defined.

(** *** Setting the builder up *)

Lemma countFrom_succ c n : countFrom c (S n) = c :: countFrom (c + 1) n.
Proof.
  unfold countFrom. cbn [seq map]. f_equal; [lia|].
  rewrite <- seq_shift, map_map. apply map_ext. intros k. lia.
Qed.

Lemma accepted_entrySlot e :
  accepted e = match entrySlot e with Some _ => true | None => false end.
Proof. reflexivity. Qed.

Lemma fold_ids es :
  forall st,
    map id (timeSlots (fold_left parseSlotEntry es st))
    = map id (timeSlots st)
        ++ map slotIdOf (countFrom (timeSlotCounter st)
                                   (List.length (filter accepted es))) /\
    timeSlotCounter (fold_left parseSlotEntry es st)
    = timeSlotCounter st + Z.of_nat (List.length (filter accepted es)).
Proof.
  induction es as [|e es IH]; intros st.
  - cbn. rewrite app_nil_r. split; [reflexivity|lia].
  - cbn [fold_left filter]. destruct (IH (parseSlotEntry st e)) as [I1 I2].
    rewrite I1, I2, parseSlotEntry_cases, accepted_entrySlot.
    destruct (entrySlot e) as [[[d a] b]|].
    + rewrite ids_addTimeSlot, counter_addTimeSlot.
      cbn [timeSlots set_timeSlotCounter timeSlotCounter id List.length].
      rewrite countFrom_succ. cbn [map]. rewrite <- app_assoc.
      split; [reflexivity|lia].
    + split; reflexivity.
Qed.

Lemma selectedDays_parseSlotEntry st e :
  selectedDays (parseSlotEntry st e) = selectedDays st.
Proof.
  rewrite parseSlotEntry_cases. destruct (entrySlot e) as [[[d a] b]|];
    [|reflexivity].
  unfold addTimeSlot. now rewrite selectedDays_update.
Qed.

Lemma selectedDays_fold es :
  forall st, selectedDays (fold_left parseSlotEntry es st) = selectedDays st.
Proof.
  induction es as [|e es IH]; intros st; [reflexivity|].
  cbn [fold_left]. now rewrite IH, selectedDays_parseSlotEntry.
Qed.

Lemma displayed_same st l :
  Forall2 sameTupleUpToDayOrder (displayed st l) l.
Proof.
  unfold displayed. destruct (hasDisplay st);
    induction l as [|[[d a] b] l IH]; cbn [map]; constructor; auto;
    repeat split; cbn; auto using arraySort_perm.
Qed.

(** X15. [setupScheduleBuilder] with a stored schedule, on a page that has the
    builder: the slots are those of the accepted entries in their order, each
    with the times of its entry and the days of its entry in some order,
    numbered slot_0, slot_1, ... , the counter is their number and no day
    is selected.  On a page without the builder nothing is parsed. *)
Theorem setup_with_stored_schedule st pg s :
  s <> [] ->
  let n := List.length (filter accepted (scheduleEntries s)) in
  (builderMissing pg = false ->
   let st' := setupScheduleBuilder st pg (Some s) in
   map id (timeSlots st') = map slotIdOf (countFrom 0 n) /\
   timeSlotCounter st' = Z.of_nat n /\
   selectedDays st' = [] /\
   Forall2 sameTupleUpToDayOrder
           (slotTuples st') (acceptedTuples (scheduleEntries s))) /\
  (builderMissing pg = true ->
   let st' := setupScheduleBuilder st pg (Some s) in
   timeSlots st' = [] /\ timeSlotCounter st' = 0 /\
   scheduleField st' = scheduleField st).
Proof.
  intros Hs n. unfold setupScheduleBuilder.
  set (st0 := set_timeSlotCounter (set_selectedDays (set_timeSlots st []) []) 0).
  split; intros M; rewrite M; cbv zeta; [|repeat split].
  destruct s as [|c s]; [congruence|].
  rewrite parseExistingSchedule_nonempty by discriminate.
  destruct (fold_ids (scheduleEntries (c :: s)) (set_timeSlots st0 []))
    as [I1 I2].
  split; [exact I1|]. split; [rewrite I2; cbn; reflexivity|].
  split; [now rewrite selectedDays_fold|].
  rewrite slotTuples_fold.
  destruct (acceptedTuples (scheduleEntries (c :: s))) as [|t l] eqn:E.
  - constructor.
  - apply (displayed_same (set_timeSlots st0 []) (t :: l)).
Qed.

Lemma setup_with_stored_schedule_witness :
  let pg := mkPage true true true true true true true in
  let s : str := "MWF 10:00 AM-12:00 PM, bad, TTh 1:00 PM-2:30 PM" in
  s <> [] /\ builderMissing pg = false /\
  map id (timeSlots (setupScheduleBuilder thursdayBuilder pg (Some s)))
  = strs ["slot_0"; "slot_1"].
Proof.
  intros pg s. split; [discriminate|]. split; [reflexivity|].
  exact (proj1 (proj1 (setup_with_stored_schedule thursdayBuilder pg s
                         ltac:(discriminate)) eq_refl)).
Defined.

(** *** Submitting the form *)

Lemma slotsError_none ts :
  slotsError ts = None <-> Forall submittable ts.
Proof.
  induction ts as [|s ts IH]; cbn [slotsError].
  - split; auto.
  - destruct (days s) as [|d ds] eqn:Ed; cbn [List.length Nat.eqb].
    + split; [discriminate|]. intros H. inversion H as [|? ? [H1 _]].
      congruence.
    + destruct (startTime s) as [|a sa] eqn:Ea; cbn [isEmpty orb].
      * split; [discriminate|]. intros H.
        inversion H as [|? ? (_ & H1 & _)]. congruence.
      * destruct (endTime s) as [|b sb] eqn:Eb.
        -- split; [discriminate|]. intros H.
           inversion H as [|? ? (_ & _ & H1)]. congruence.
        -- rewrite IH. split.
           ++ intros H. constructor; [|exact H].
              unfold submittable. rewrite Ed, Ea, Eb.
              repeat split; discriminate.
           ++ intros H. now inversion H.
Qed.

(** X16. The submit handler: the form is submitted only when there is a slot and
    every slot has a day and both times; when that is so, a request that
    fails lets the form through, and an answer that reports a conflict
    leaves the decision to the user; when it is not so, an error is shown,
    no request is sent and the builder is left as it is. *)
Theorem submit_validates_and_fails_open st endpoint confirm :
  (fst (fst (classForm_submit st endpoint confirm)) = Submitted ->
   timeSlots st <> [] /\ Forall submittable (timeSlots st)) /\
  (timeSlots st <> [] -> Forall submittable (timeSlots st) ->
   (requestFailed (endpoint (fst (formatSchedule (timeSlots st)))) ->
    fst (fst (classForm_submit st endpoint confirm)) = Submitted) /\
   (forall ok msg,
       endpoint (fst (formatSchedule (timeSlots st))) = BodyData ok msg ->
       fst (fst (classForm_submit st endpoint confirm))
       = if ok then Submitted
         else if confirm (confirmText
                            (match msg with Some m => m | None => [] end))
              then Submitted else NotSubmitted)) /\
  (timeSlots st = [] \/ ~ Forall submittable (timeSlots st) ->
   exists msg, classForm_submit st endpoint confirm = (ErrorShown msg, st, [])).
Proof.
  unfold classForm_submit.
  destruct (timeSlots st) as [|t ts] eqn:E.
  - split; [discriminate|]. split; [congruence|]. intros _. eauto.
  - rewrite <- E. pose proof (slotsError_none (timeSlots st)) as V.
    destruct (slotsError (timeSlots st)) as [err|].
    + assert (N : ~ Forall submittable (timeSlots st))
        by (intros F; apply V in F; discriminate).
      split; [discriminate|]. split; [tauto|]. intros _. eauto.
    + assert (F : Forall submittable (timeSlots st)) by now apply V.
      unfold checkScheduleConflicts.
      destruct (formatSchedule (timeSlots st)) as [text ts'] eqn:Ef.
      cbn [fst]. rewrite E in *.
      split; [intros _; split; [discriminate|exact F]|].
      split.
      * intros _ _. split.
        -- intros R. destruct (endpoint text); cbn in R; try contradiction;
             reflexivity.
        -- intros ok msg Er. rewrite Er. cbn. destruct ok; reflexivity.
      * intros [H|H]; [discriminate|contradiction].
Qed.

Lemma submit_validates_and_fails_open_witness :
  timeSlots thursdayBuilder <> [] /\
  Forall submittable (timeSlots thursdayBuilder) /\
  fst (fst (classForm_submit thursdayBuilder (fun _ => FetchRejected)
                             (fun _ => false)))
  = Submitted.
Proof.
  assert (H1 : timeSlots thursdayBuilder <> []) by discriminate.
  assert (H2 : Forall submittable (timeSlots thursdayBuilder))
    by (repeat constructor; discriminate).
  split; [exact H1|]. split; [exact H2|].
  exact (proj1 (proj1 (proj2 (submit_validates_and_fails_open thursdayBuilder
                                (fun _ => FetchRejected) (fun _ => false)))
                      H1 H2) I).
Defined.

(** *** Slots made through the buttons, slots read from a stored schedule *)

Lemma submittable_sortSlotDays s : submittable s -> submittable (sortSlotDays s).
Proof.
  intros (Hd & Ha & Hb). repeat split; [|exact Ha|exact Hb].
  cbn [sortSlotDays days]. intros E. apply Hd.
  apply Permutation_nil. rewrite <- E. apply arraySort_perm.
Qed.

Lemma submittable_displaySlots st ts :
  Forall submittable ts -> Forall submittable (displaySlots st ts).
Proof.
  unfold displaySlots. destruct (hasDisplay st); [|auto].
  intros H. apply Forall_map. revert H. apply Forall_impl.
  exact submittable_sortSlotDays.
Qed.

Lemma submittable_filter (f : TimeSlot -> bool) ts :
  Forall submittable ts -> Forall submittable (filter f ts).
Proof.
  rewrite !Forall_forall. intros H s Hs. apply filter_In in Hs. now apply H.
Qed.

Lemma submittable_click st :
  Forall submittable (timeSlots st) ->
  Forall submittable (timeSlots (addTimeBtn_click st)).
Proof.
  intros H. destruct (click_cases st) as [[msg ->]|(a & b & f & -> & Hd & Ha & Hb)];
    [exact H|].
  cbn [set_selectedDays set_timeInputs timeSlots].
  rewrite timeSlots_addTimeSlot. apply submittable_displaySlots.
  cbn [set_timeSlotCounter timeSlots]. apply Forall_app. split; [exact H|].
  constructor; [|constructor]. repeat split; assumption.
Qed.

Lemma submittable_step st ev :
  noStoredSchedule ev = true ->
  Forall submittable (timeSlots st) ->
  Forall submittable (timeSlots (step st ev)).
Proof.
  intros Hev H. destruct ev as [d|d| |a b| |x|pg|pg existing]; cbn [step].
  - unfold selectDay. destruct (existsb _ _); exact H.
  - exact H.
  - exact H.
  - exact H.
  - now apply submittable_click.
  - rewrite timeSlots_removeTimeSlot.
    now apply submittable_displaySlots, submittable_filter.
  - constructor.
  - unfold setupScheduleBuilder. destruct (builderMissing pg); [constructor|].
    destruct existing as [[|c s]|]; [| discriminate |];
      rewrite timeSlots_update; apply submittable_displaySlots; constructor.
Qed.

Lemma submittable_run evs :
  forall st,
    forallb noStoredSchedule evs = true ->
    Forall submittable (timeSlots st) ->
    Forall submittable (timeSlots (run st evs)).
Proof.
  induction evs as [|ev evs IH]; intros st Hev H; [exact H|].
  cbn [forallb] in Hev. apply andb_true_iff in Hev as [H1 H2].
  cbn [run fold_left]. apply IH; [exact H2|]. now apply submittable_step.
Qed.

(** X17. Slots made through the buttons always pass the validation of the slots in
    the submit handler: as long as no stored schedule is handed to the
    parser, every slot of the builder has a day and both times. *)
Theorem button_slots_pass_validation evs :
  forallb noStoredSchedule evs = true ->
  Forall submittable (timeSlots (run initialBuilder evs)) /\
  slotsError (timeSlots (run initialBuilder evs)) = None.
Proof.
  intros H.
  assert (F : Forall submittable (timeSlots (run initialBuilder evs)))
    by (apply submittable_run; [exact H|constructor]).
  split; [exact F|]. now apply slotsError_none.
Qed.

Lemma button_slots_pass_validation_witness :
  let evs := [EvSelectDay "W"; EvSelectDay "M"; EvEnterTimes "09:00" "10:30";
              EvClickAdd; EvClickAdd; EvSelectDay "F";
              EvEnterTimes "22:00" "01:00"; EvClickAdd; EvRemove "slot_0";
              EvSetup fullPage None; EvSelectDay "Th";
              EvEnterTimes "13:00" "14:00"; EvClickAdd] in
  forallb noStoredSchedule evs = true /\
  List.length (timeSlots (run initialBuilder evs)) = 1%nat /\
  slotsError (timeSlots (run initialBuilder evs)) = None.
Proof.
  intros evs. assert (H : forallb noStoredSchedule evs = true) by reflexivity.
  split; [exact H|]. split; [reflexivity|].
  exact (proj2 (button_slots_pass_validation evs H)).
Defined.

Lemma slotsError_timed ts :
  Forall timed ts ->
  (Exists (fun s => days s = []) ts -> slotsError ts = Some noDayMessage) /\
  (Forall (fun s => days s <> []) ts -> slotsError ts = None).
Proof.
  induction 1 as [|s ts [Ha Hb] _ [IH1 IH2]]; cbn [slotsError].
  - split; [intros E; inversion E|reflexivity].
  - destruct (days s) as [|d ds] eqn:Ed; cbn [List.length Nat.eqb].
    + split; [reflexivity|]. intros F. inversion F. congruence.
    + destruct (startTime s) as [|a sa]; [congruence|].
      destruct (endTime s) as [|b sb]; [congruence|]. cbn [isEmpty orb].
      split.
      * intros E. inversion E as [? ? E1|? ? E1]; [congruence|auto].
      * intros F. inversion F. auto.
Qed.

Lemma acceptedTuples_In es t :
  In t (acceptedTuples es) <-> exists e, In e es /\ entrySlot e = Some t.
Proof.
  unfold acceptedTuples. rewrite in_flat_map. split.
  - intros (e & He & Ht). exists e. split; [exact He|].
    destruct (entrySlot e) as [u|]; [|contradiction].
    destruct Ht as [->|[]]. reflexivity.
  - intros (e & He & Ht). exists e. split; [exact He|]. rewrite Ht. now left.
Qed.

Lemma entrySlot_times e ds a b :
  entrySlot e = Some (ds, a, b) -> a <> [] /\ b <> [].
Proof.
  unfold entrySlot. destruct (reEntry e) as [parts|]; [|discriminate].
  destruct (parse12HourTime (startTimeStr parts)) as [|x xs];
    [discriminate|].
  destruct (parse12HourTime (endTimeStr parts)) as [|y ys];
    [discriminate|].
  cbn [isEmpty negb andb]. intros [= <- <- <-]. split; discriminate.
Qed.

Lemma displayed_In st l ds a b :
  In (ds, a, b) (displayed st l) ->
  exists ds', In (ds', a, b) l /\ Permutation ds ds'.
Proof.
  unfold displayed. destruct (hasDisplay st).
  - rewrite in_map_iff. intros ([[d' a'] b'] & E & Hin). cbn in E.
    injection E as <- <- <-. exists d'. split; [exact Hin|].
    apply arraySort_perm.
  - intros H. exists ds. split; [exact H|reflexivity].
Qed.

Lemma In_displayed st l ds a b :
  In (ds, a, b) l ->
  exists ds', In (ds', a, b) (displayed st l) /\ Permutation ds' ds.
Proof.
  unfold displayed. destruct (hasDisplay st).
  - intros H. exists (arraySort dayCompare ds). split; [|apply arraySort_perm].
    apply in_map_iff. exists (ds, a, b). split; [reflexivity|exact H].
  - intros H. exists ds. split; [exact H|reflexivity].
Qed.

Lemma setup_tuples st pg s :
  s <> [] -> builderMissing pg = false ->
  slotTuples (setupScheduleBuilder st pg (Some s))
  = displayed st (acceptedTuples (scheduleEntries s)).
Proof.
  intros Hs M. unfold setupScheduleBuilder. rewrite M.
  destruct s as [|c s]; [congruence|].
  rewrite parseExistingSchedule_nonempty by discriminate.
  rewrite slotTuples_fold.
  destruct (acceptedTuples (scheduleEntries (c :: s))) as [|t l] eqn:E.
  - unfold displayed. destruct (hasDisplay st); reflexivity.
  - reflexivity.
Qed.

Lemma slotTuples_In st s :
  In s (timeSlots st) -> In (days s, startTime s, endTime s) (slotTuples st).
Proof.
  intros H. unfold slotTuples. apply in_map_iff. now exists s.
Qed.

(** X18. A stored schedule and the submit handler.  After the builder is set up
    from a stored schedule: when no entry is accepted the handler asks for a
    slot; when an accepted entry has no day letter among its letters, its
    slot has no day and the handler refuses the form for it; otherwise the
    slots pass the validation. *)
Theorem stored_schedule_then_submit st pg s endpoint confirm :
  s <> [] -> builderMissing pg = false ->
  let st' := setupScheduleBuilder st pg (Some s) in
  let ts := acceptedTuples (scheduleEntries s) in
  (ts = [] ->
   classForm_submit st' endpoint confirm = (ErrorShown noSlotMessage, st', [])) /\
  ((exists a b, In ([], a, b) ts) ->
   classForm_submit st' endpoint confirm = (ErrorShown noDayMessage, st', [])) /\
  (ts <> [] -> Forall (fun t => fst (fst t) <> []) ts ->
   Forall submittable (timeSlots st') /\ slotsError (timeSlots st') = None).
Proof.
  intros Hs M st' ts.
  pose proof (setup_tuples st pg s Hs M) as T. fold st' ts in T.
  assert (Ht : Forall timed (timeSlots st')).
  { apply Forall_forall. intros x Hx. apply slotTuples_In in Hx.
    rewrite T in Hx. apply displayed_In in Hx as (ds' & Hin & _).
    apply acceptedTuples_In in Hin as (e & _ & He).
    exact (entrySlot_times _ _ _ _ He). }
  destruct (slotsError_timed _ Ht) as [V1 V2].
  split; [|split].
  - intros E. rewrite E in T. unfold classForm_submit.
    assert (E0 : timeSlots st' = []).
    { destruct (timeSlots st') as [|x l] eqn:Ex; [reflexivity|].
      unfold slotTuples in T. rewrite Ex in T. unfold displayed in T.
      destruct (hasDisplay st); discriminate. }
    now rewrite E0.
  - intros (a & b & Hin).
    destruct (In_displayed st _ _ _ _ Hin) as (ds' & Hin' & P).
    apply Permutation_sym, Permutation_nil in P. subst ds'.
    rewrite <- T in Hin'. unfold slotTuples in Hin'.
    apply in_map_iff in Hin' as (x & Ex & Hx). injection Ex as Ed _ _.
    assert (X : Exists (fun s0 => days s0 = []) (timeSlots st'))
      by (apply Exists_exists; eauto).
    unfold classForm_submit. rewrite (V1 X).
    destruct (timeSlots st'); [contradiction|reflexivity].
  - intros _ F.
    assert (D : Forall (fun s0 => days s0 <> []) (timeSlots st')).
    { apply Forall_forall. intros x Hx. apply slotTuples_In in Hx.
      rewrite T in Hx. apply displayed_In in Hx as (ds' & Hin & P).
      rewrite Forall_forall in F. specialize (F _ Hin). cbn in F.
      intros E. rewrite E in P. apply Permutation_nil in P. congruence. }
    split; [|exact (V2 D)].
    apply Forall_forall. intros x Hx. rewrite Forall_forall in D, Ht.
    destruct (Ht x Hx). repeat split; auto.
Qed.

Lemma stored_schedule_then_submit_witness :
  let s : str := "MWF 10:00 AM-12:00 PM, Lab 9:00 AM-10:00 AM" in
  let st' := setupScheduleBuilder initialBuilder fullPage (Some s) in
  s <> [] /\ builderMissing fullPage = false /\
  (exists a b, In ([], a, b) (acceptedTuples (scheduleEntries s))) /\
  classForm_submit st' (fun _ => BodyData true None) (fun _ => true)
  = (ErrorShown noDayMessage, st', []).
Proof.
  intros s st'.
  assert (H1 : s <> []) by discriminate.
  assert (H2 : builderMissing fullPage = false) by reflexivity.
  assert (H3 : exists a b, In ([], a, b) (acceptedTuples (scheduleEntries s)))
    by (exists ("09:00" : str), ("10:00" : str); vm_compute; tauto).
  split; [exact H1|]. split; [exact H2|]. split; [exact H3|].
  exact (proj1 (proj2 (stored_schedule_then_submit initialBuilder fullPage s
                         (fun _ => BodyData true None) (fun _ => true) H1 H2))
               H3).
Defined.

(** *** Days of a slot *)

Lemma existsb_str_eqb_false d l :
  existsb (str_eqb d) l = false -> ~ In d l.
Proof.
  intros H Hin. apply not_true_iff_false in H. apply H.
  apply existsb_exists. exists d. split; [exact Hin|apply str_eqb_refl].
Qed.

Lemma NoDup_snoc (d : str) l : NoDup l -> ~ In d l -> NoDup (l ++ [d]).
Proof.
  intros H Hd. apply (Permutation_NoDup (l := d :: l)).
  - apply Permutation_cons_append.
  - now constructor.
Qed.

Lemma distinct_displaySlots st ts :
  Forall (fun s => NoDup (days s)) ts ->
  Forall (fun s => NoDup (days s)) (displaySlots st ts).
Proof.
  unfold displaySlots. destruct (hasDisplay st); [|auto].
  intros H. apply Forall_map. revert H. apply Forall_impl. intros s H.
  cbn [sortSlotDays days].
  eapply Permutation_NoDup; [symmetry; apply arraySort_perm|exact H].
Qed.

Lemma daysDistinct_step st ev :
  noStoredSchedule ev = true -> daysDistinct st -> daysDistinct (step st ev).
Proof.
  intros Hev [H1 H2].
  destruct ev as [d|d| |a b| |x|pg|pg existing]; cbn [step].
  - unfold selectDay. destruct (existsb _ _) eqn:E; [now split|].
    split; [|exact H2]. cbn [set_selectedDays selectedDays].
    apply NoDup_snoc; [exact H1|now apply existsb_str_eqb_false].
  - split; [|exact H2]. cbn [unselectDay set_selectedDays selectedDays].
    now apply NoDup_filter.
  - split; [constructor|exact H2].
  - now split.
  - destruct (click_cases st) as [[msg ->]|(a & b & f & -> & _)];
      [now split|].
    split; [constructor|]. cbn [set_selectedDays set_timeInputs timeSlots].
    rewrite timeSlots_addTimeSlot. apply distinct_displaySlots.
    cbn [set_timeSlotCounter timeSlots]. apply Forall_app.
    split; [exact H2|]. constructor; [exact H1|constructor].
  - split.
    + unfold removeTimeSlot. now rewrite selectedDays_update.
    + rewrite timeSlots_removeTimeSlot. apply distinct_displaySlots.
      rewrite Forall_forall in *. intros s Hs. apply filter_In in Hs.
      now apply H2.
  - split; constructor.
  - unfold setupScheduleBuilder. destruct (builderMissing pg);
      [split; constructor|].
    destruct existing as [[|c s]|]; [| discriminate |];
      (split; [rewrite selectedDays_update; constructor|]);
      rewrite timeSlots_update; apply distinct_displaySlots; constructor.
Qed.

Lemma daysDistinct_run evs :
  forall st,
    forallb noStoredSchedule evs = true ->
    daysDistinct st -> daysDistinct (run st evs).
Proof.
  induction evs as [|ev evs IH]; intros st Hev H; [exact H|].
  cbn [forallb] in Hev. apply andb_true_iff in Hev as [H1 H2].
  cbn [run fold_left]. apply IH; [exact H2|]. now apply daysDistinct_step.
Qed.

(** X19. A slot made through the buttons never lists a day twice, and no day is
    selected twice, as long as no stored schedule is handed to the parser. *)
Theorem button_slots_list_each_day_once evs :
  forallb noStoredSchedule evs = true ->
  daysDistinct (run initialBuilder evs).
Proof.
  intros H. apply daysDistinct_run; [exact H|split; constructor].
Qed.

Lemma button_slots_list_each_day_once_witness :
  let evs := [EvSelectDay "M"; EvSelectDay "W"; EvSelectDay "M";
              EvUnselectDay "W"; EvSelectDay "W"; EvSelectDay "M";
              EvEnterTimes "08:00" "09:00"; EvClickAdd] in
  forallb noStoredSchedule evs = true /\
  map days (timeSlots (run initialBuilder evs)) = [strs ["M"; "W"]] /\
  daysDistinct (run initialBuilder evs).
Proof.
  intros evs. assert (H : forallb noStoredSchedule evs = true) by reflexivity.
  split; [exact H|]. split; [reflexivity|].
  exact (button_slots_list_each_day_once evs H).
Defined.
